(** * Map-region capture and tile stitching: a shallow embedding

    The development follows [components/MapSection.tsx] (the capture
    pipeline [handleAnalyzeMapView], the region selector
    [updateAnalysisBounds] and [handleGetInsights]),
    [services/geminiService.ts] ([analyzeImageForBiodiversity]) and
    [components/AnalysisSection.tsx] ([handleAnalysis]).

    JavaScript numbers are modelled as exact rationals ([Q]); [===] on
    numbers is [Qeq_bool].  Integer-valued numbers (tile indices, canvas
    dimensions, pixel addresses) are [Z]. *)

From Stdlib Require Import ZArith QArith Qround Qminmax Lia Lqa.
From Stdlib Require Import List Bool String Ascii Permutation FinFun.
From Stdlib Require Import DecimalString DecimalPos DecimalZ.
Import ListNotations.

Local Open Scope Z_scope.

(** ** Leaflet geometry used by the component *)

Module L.

(** Modelled from the spec: [L.Point] of the map library, which is not
    among the sources: a position of pixel space, a pair of numbers. *)
Record Point : Type := point { x : Q; y : Q }.

Local Open Scope Q_scope.

(** Modelled from the spec: [point.divideBy(num)], [point.floor()] and
    [point.subtract(other)] of the map library act on both coordinates. *)
Definition divideBy (p : Point) (num : Q) : Point :=
  point (x p / num) (y p / num).

Definition floor (p : Point) : Point :=
  point (inject_Z (Qfloor (x p))) (inject_Z (Qfloor (y p))).

Definition subtract (p q : Point) : Point :=
  point (x p - x q) (y p - y q).

(** Modelled from the spec: [L.Bounds] of the map library, a rectangle
    of pixel space.  [L.bounds(a, b)] extends an empty rectangle by [a],
    then by [b], so that [min] and [max] are the coordinate-wise minimum
    and maximum of the two corners; [getSize] is [max - min]. *)
Record Bounds : Type := mkBounds { min : Point; max : Point }.

Definition bounds (a b : Point) : Bounds :=
  mkBounds (point (Qmin (x b) (x a)) (Qmin (y b) (y a)))
           (point (Qmax (x b) (x a)) (Qmax (y b) (y a))).

Definition getSize (b : Bounds) : Point := subtract (max b) (min b).

(** Modelled from the spec: [L.LatLng] and [L.LatLngBounds] of the map
    library, a geographic point and a rectangle given by its south-west
    and north-east corners, with the accessors of its four corners. *)
Record LatLng : Type := latLng { lat : Q; lng : Q }.

Record LatLngBounds : Type :=
  latLngBounds { southWest : LatLng; northEast : LatLng }.

Definition getSouthWest (b : LatLngBounds) : LatLng := southWest b.
Definition getNorthEast (b : LatLngBounds) : LatLng := northEast b.
Definition getNorthWest (b : LatLngBounds) : LatLng :=
  latLng (lat (northEast b)) (lng (southWest b)).
Definition getSouthEast (b : LatLngBounds) : LatLng :=
  latLng (lat (southWest b)) (lng (northEast b)).

Definition getCenter (b : LatLngBounds) : LatLng :=
  latLng ((lat (southWest b) + lat (northEast b)) / 2)
         ((lng (southWest b) + lng (northEast b)) / 2).

(** Length of the equator in metres, as the map library has it. *)
Definition earthCircumference : Q := 40075017.

(** Modelled from the spec: the map library's [LatLng.toBounds] is not
    among the sources.  It is the "great-circle-aware expansion" of the
    region selector: a box around the point whose four sides are
    [sizeInMeters / 2] metres away from it.  Half the size is converted
    to degrees of latitude on the meridian, and to degrees of longitude
    on the parallel of the point, which is shorter than the equator by
    the cosine of the latitude.  [cosDeg] is the cosine of an angle
    given in degrees. *)
Definition toBounds (cosDeg : Q -> Q) (c : LatLng) (sizeInMeters : Q)
  : LatLngBounds :=
  let latAccuracy := 180 * sizeInMeters / earthCircumference in
  let lngAccuracy := latAccuracy / cosDeg (lat c) in
  latLngBounds (latLng (lat c - latAccuracy) (lng c - lngAccuracy))
               (latLng (lat c + latAccuracy) (lng c + lngAccuracy)).

(** Extent of a box in metres: along a meridian, and along the parallel
    of a given latitude. *)
Definition metresPerDegree : Q := earthCircumference / 360.

Definition northSouthMetres (b : LatLngBounds) : Q :=
  (lat (northEast b) - lat (southWest b)) * metresPerDegree.

Definition eastWestMetres (cosDeg : Q -> Q) (latitude : Q)
  (b : LatLngBounds) : Q :=
  (lng (northEast b) - lng (southWest b))
  * (metresPerDegree * cosDeg latitude).

(** The map widget, as the handlers read it.  [handleAnalyzeMapView]
    reads the widget only after [fitBounds] and the settling delay, so
    the record stands for the widget at the time of those reads. *)
Record Map : Type := mkMap {
  mapCenter : LatLng;
  mapZoom : Z;
  mapSize : Point;
  project : LatLng -> Z -> Point
}.

End L.

(** ** The tile range of [handleAnalyzeMapView] (steps 3 and 4) *)

Definition tileSize : Q := 256.

(** [L.bounds(pixelBounds.min.divideBy(tileSize).floor(),
             pixelBounds.max.divideBy(tileSize).floor())] *)
Definition tileRange (pixelBounds : L.Bounds) : L.Bounds :=
  L.bounds (L.floor (L.divideBy (L.min pixelBounds) tileSize))
           (L.floor (L.divideBy (L.max pixelBounds) tileSize)).

(** [for (let i = lo; i <= hi; i++)]: the values taken by the loop
    variable, in order. *)
Definition forRange (lo hi : Z) : list Z :=
  map (fun k => lo + Z.of_nat k) (seq 0 (Z.to_nat (hi - lo + 1))).

(** A tile index of the grid, as pushed by the nested loops. *)
Record TileIndex : Type := tileIndex { tx : Z; ty : Z }.

(** The nested loops over [tileRange]: [x] outermost, [y] innermost. *)
Definition tileIndices (pixelBounds : L.Bounds) : list TileIndex :=
  let r := tileRange pixelBounds in
  flat_map
    (fun x =>
       map (fun y => tileIndex x y)
           (forRange (Qfloor (L.y (L.min r))) (Qfloor (L.y (L.max r)))))
    (forRange (Qfloor (L.x (L.min r))) (Qfloor (L.x (L.max r)))).

(** A pixel position lies in a rectangle of pixel space. *)
Definition inBounds (b : L.Bounds) (p : L.Point) : Prop :=
  (L.x (L.min b) <= L.x p <= L.x (L.max b))%Q /\
  (L.y (L.min b) <= L.y p <= L.y (L.max b))%Q.

(** The tile [t] of the grid is the square
    [[t*tileSize, (t+1)*tileSize)] in both axes. *)
Definition tileCovers (t : TileIndex) (p : L.Point) : Prop :=
  (inject_Z (tx t) * tileSize <= L.x p < inject_Z (tx t + 1) * tileSize)%Q /\
  (inject_Z (ty t) * tileSize <= L.y p < inject_Z (ty t + 1) * tileSize)%Q.


(** The bounds of the tile range, read as integers. *)
Definition loX (pb : L.Bounds) : Z := Qfloor (L.x (L.min pb) / tileSize).
Definition hiX (pb : L.Bounds) : Z := Qfloor (L.x (L.max pb) / tileSize).
Definition loY (pb : L.Bounds) : Z := Qfloor (L.y (L.min pb) / tileSize).
Definition hiY (pb : L.Bounds) : Z := Qfloor (L.y (L.max pb) / tileSize).

(** The nine indices of a three by three block of the grid. *)
Definition block3 (i j : Z) : list TileIndex :=
  [tileIndex i j; tileIndex i (j + 1)%Z; tileIndex i (j + 2)%Z;
   tileIndex (i + 1)%Z j; tileIndex (i + 1)%Z (j + 1)%Z; tileIndex (i + 1)%Z (j + 2)%Z;
   tileIndex (i + 2)%Z j; tileIndex (i + 2)%Z (j + 1)%Z; tileIndex (i + 2)%Z (j + 2)%Z].

(** ** A state-and-exception monad with an event trace

    A handler is a function of the component state that returns the new
    state, the effects it had in order, and either a value or the message
    of the [Error] it threw. *)

Section Monad.

Context {S E : Type}.

Definition M (A : Type) : Type := S -> S * list E * (A + string).

Definition ret {A} (a : A) : M A := fun s => (s, [], inl a).

Definition throw {A} (msg : string) : M A := fun s => (s, [], inr msg).

Definition bind {A B} (m : M A) (f : A -> M B) : M B :=
  fun s =>
    match m s with
    | (s1, l1, inl a) =>
        match f a s1 with (s2, l2, r) => (s2, l1 ++ l2, r) end
    | (s1, l1, inr e) => (s1, l1, inr e)
    end.

Definition emit (e : E) : M unit := fun s => (s, [e], inl tt).

Definition modify (f : S -> S) : M unit := fun s => (f s, [], inl tt).

(** [try { body } catch (err) { handler err }] *)
Definition catch {A} (body : M A) (handler : string -> M A) : M A :=
  fun s =>
    match body s with
    | (s1, l1, inl a) => (s1, l1, inl a)
    | (s1, l1, inr e) =>
        match handler e s1 with (s2, l2, r) => (s2, l1 ++ l2, r) end
    end.

(** [try { body } finally { fin }]: [fin] runs on both exits of [body];
    the exit of [body] is kept unless [fin] itself throws. *)
Definition finally {A} (body : M A) (fin : M unit) : M A :=
  fun s =>
    match body s with
    | (s1, l1, r) =>
        match fin s1 with
        | (s2, l2, inl _) => (s2, l1 ++ l2, r)
        | (s2, l2, inr e) => (s2, l1 ++ l2, inr e)
        end
    end.

Definition tryCatchFinally {A} (body : M A) (handler : string -> M A)
  (fin : M unit) : M A :=
  finally (catch body handler) fin.

(** [await Promise.all(promises)] on promises that have all been
    started: the list of values, or the rejection of a promise that
    failed.  Which of several failed promises rejects first depends on
    timing; the model takes the first one in the order of the list. *)
Fixpoint promiseAll {A} (promises : list (A + string)) : M (list A) :=
  match promises with
  | [] => ret []
  | inl a :: rest => bind (promiseAll rest) (fun l => ret (a :: l))
  | inr e :: _ => throw e
  end.

(** The effects of a run, and the state it leaves. *)
Definition traceOf {A} (r : S * list E * (A + string)) : list E :=
  snd (fst r).

Definition stateOf {A} (r : S * list E * (A + string)) : S :=
  fst (fst r).

(** The effects [l] happened before the run [r]. *)
Definition prepend {A} (l : list E) (r : S * list E * (A + string))
  : S * list E * (A + string) :=
  match r with (s, l', x) => (s, l ++ l', x) end.

(** Every effect of a computation satisfies [P], from whatever state
    it is run. *)
Definition emitsOnly {A} (P : E -> Prop) (m : M A) : Prop :=
  forall s, Forall P (snd (fst (m s))).

(** A computation leaves the state as it found it. *)
Definition keepsState {A} (m : M A) : Prop :=
  forall s, fst (fst (m s)) = s.

End Monad.

Arguments M : clear implicits.

Declare Scope monad_scope.
Delimit Scope monad_scope with monad.
Notation "x <- m ;; k" := (bind m (fun x => k))
  (at level 61, m at next level, right associativity) : monad_scope.
Notation "m ;; k" := (bind m (fun _ => k))
  (at level 61, right associativity) : monad_scope.

(** ** Canvases and images *)

(** One RGBA pixel, a byte per channel. *)
Record Pixel : Type := rgba { red : Z; green : Z; blue : Z; alpha : Z }.

Definition transparentBlack : Pixel := rgba 0 0 0 0.

(** A decoded image: its natural size and its pixels. *)
Record Image : Type := mkImage {
  naturalWidth : Z;
  naturalHeight : Z;
  imagePixel : Z -> Z -> Pixel
}.

(** A canvas bitmap. *)
Record Canvas : Type := mkCanvas {
  width : Z;
  height : Z;
  canvasPixel : Z -> Z -> Pixel
}.

(** Two canvases hold the same bitmap. *)
Definition sameBitmap (c d : Canvas) : Prop :=
  width c = width d /\ height c = height d /\
  forall i j, canvasPixel c i j = canvasPixel d i j.

(** Modelled from the spec: the canvas of the browser is not among the
    sources.  Assigning a number to [canvas.width] converts it to an
    unsigned long, which drops its fractional part. *)
Definition toUnsignedLong (q : Q) : Z :=
  Z.quot (Qnum q) (Zpos (Qden q)) mod 2 ^ 32.

(** [document.createElement('canvas')] followed by the assignments of
    [width] and [height]: a bitmap of transparent black. *)
Definition newCanvas (w h : Q) : Canvas :=
  mkCanvas (toUnsignedLong w) (toUnsignedLong h) (fun _ _ => transparentBlack).

Definition Qlt_bool (a b : Q) : bool := negb (Qle_bool b a).

Definition insideCanvas (c : Canvas) (i j : Z) : bool :=
  (0 <=? i) && (i <? width c) && (0 <=? j) && (j <? height c).

(** The destination rectangle [[dx, dx+w) x [dy, dy+h)] contains the
    pixel address [(i, j)]. *)
Definition insideRect (dx dy : Q) (w h : Z) (i j : Z) : bool :=
  Qle_bool dx (inject_Z i) && Qlt_bool (inject_Z i) (dx + inject_Z w)
  && Qle_bool dy (inject_Z j) && Qlt_bool (inject_Z j) (dy + inject_Z h).

Definition Blob : Type := list Byte.byte.

(** [new File([blob], name, { type })] *)
Record File : Type := mkFile {
  fileBits : Blob;
  fileName : string;
  fileType : string
}.

(** ** The browser around the component

    What the handlers cannot decide themselves: whether an image loads,
    whether a 2D context is available, how pixels are composited and
    resampled, how a canvas is encoded, the cosine. *)
Record Browser : Type := mkBrowser {
  (** [img.src = url]: the decoded image ([onload]) or nothing ([onerror]) *)
  loadImage : string -> option Image;
  (** [stitchCanvas.getContext('2d')] is not null *)
  stitchContext : bool;
  (** [finalCanvas.getContext('2d')] is not null *)
  finalContext : bool;
  (** source-over compositing of a source pixel onto a canvas pixel *)
  blend : Pixel -> Pixel -> Pixel;
  (** colour of the pixel [(i, j)] of a canvas scaled to [w] by [h] *)
  resample : Canvas -> Q -> Q -> Z -> Z -> Pixel;
  (** [canvas.toBlob(resolve, type)]: the encoded bytes, or null *)
  toBlob : Canvas -> string -> option Blob;
  (** [Math.cos((Math.PI / 180) * d)] *)
  cosDeg : Q -> Q
}.

(** The length of the part of the pixel [[i, i+1)] of one axis that the
    interval [[d, d+w)] covers. *)
Definition overlap (d : Q) (w i : Z) : Q :=
  Qmax 0 (Qmin (inject_Z i + 1) (d + inject_Z w) - Qmax (inject_Z i) d).

(** The fraction of the canvas pixel [(i, j)] that the destination
    rectangle [[dx, dx+w) x [dy, dy+h)] covers. *)
Definition coverage (dx dy : Q) (w h : Z) (i j : Z) : Q :=
  overlap dx w i * overlap dy h j.

(** A source pixel that covers the fraction [cov] of a canvas pixel:
    its alpha is scaled by the fraction, rounded to a byte. *)
Definition fade (cov : Q) (p : Pixel) : Pixel :=
  rgba (red p) (green p) (blue p)
    (Qfloor (inject_Z (alpha p) * cov + (1 # 2))).

(** The index of the image pixel under the position [u] of one axis of
    an image of [w] pixels, kept inside the image. *)
Definition nearest (w : Z) (u : Q) : Z := Z.max 0 (Z.min (w - 1) (Qfloor u)).

(** Modelled from the spec: the canvas of the browser is not among the
    sources.  [ctx.drawImage(img, dx, dy)] draws the image at its
    natural size with its top-left corner at [(dx, dy)], "clipping
    automatically to canvas bounds".  The offsets that the code passes
    are not rounded.  At offsets of whole pixels a canvas pixel inside
    the destination rectangle is composited with the image pixel that
    lies on it.  At other offsets the 2D context anti-aliases the edges
    of the rectangle: a canvas pixel that it covers in part is
    composited with the alpha of the source scaled by the covered
    fraction.  The interpolation of colours between neighbouring image
    pixels at such offsets is not modelled: the colour is that of the
    image pixel under the centre of the canvas pixel. *)
Definition drawImage (br : Browser) (img : Image) (dx dy : Q) (c : Canvas)
  : Canvas :=
  mkCanvas (width c) (height c)
    (fun i j =>
       let cov :=
         coverage dx dy (naturalWidth img) (naturalHeight img) i j in
       if insideCanvas c i j && Qlt_bool 0 cov
       then blend br
              (fade cov
                 (imagePixel img
                    (nearest (naturalWidth img) (inject_Z i + (1 # 2) - dx))
                    (nearest (naturalHeight img) (inject_Z j + (1 # 2) - dy))))
              (canvasPixel c i j)
       else canvasPixel c i j).

(** Modelled from the spec:
    [ctx.drawImage(src, 0, 0, src.width, src.height, 0, 0, dw, dh)] with
    a canvas as the source is the "single scaling blit" of the whole
    source onto [dw] by [dh] pixels.  A source canvas without area makes
    the call throw. *)
Definition drawImageScaled (br : Browser) (src : Canvas) (dw dh : Q)
  (c : Canvas) : Canvas + string :=
  if (width src =? 0) || (height src =? 0)
  then inr "InvalidStateError"%string
  else inl (mkCanvas (width c) (height c)
              (fun i j =>
                 if insideCanvas c i j
                    && Qlt_bool (inject_Z i) dw && Qlt_bool (inject_Z j) dh
                 then blend br (resample br src dw dh i j) (canvasPixel c i j)
                 else canvasPixel c i j)).

(** ** Strings of the platform *)

Definition stringOfZ (n : Z) : string :=
  NilZero.string_of_int (Z.to_int n).

(** [s.replace(pattern, replacement)] with a string pattern: the first
    occurrence is replaced. *)
Definition replace (pattern replacement s : string) : string :=
  match index 0 pattern s with
  | Some n =>
      (substring 0 n s ++ replacement
       ++ substring (n + String.length pattern)
            (String.length s - (n + String.length pattern)) s)%string
  | None => s
  end.

(** White space removed by [trim] and matched by [\s] (ASCII part). *)
Definition isWhiteSpace (c : ascii) : bool :=
  let n := nat_of_ascii c in
  ((9 <=? n) && (n <=? 13))%nat || (n =? 32)%nat.

Fixpoint trimStart (s : string) : string :=
  match s with
  | String c r => if isWhiteSpace c then trimStart r else s
  | EmptyString => EmptyString
  end.

Fixpoint trimEnd (s : string) : string :=
  match s with
  | String c r =>
      match trimEnd r with
      | EmptyString => if isWhiteSpace c then EmptyString
                       else String c EmptyString
      | r' => String c r'
      end
  | EmptyString => EmptyString
  end.

Definition trim (s : string) : string := trimEnd (trimStart s).

(** Truthiness of a string: it is not empty. *)
Definition truthy (s : string) : bool :=
  match s with EmptyString => false | _ => true end.

(** The string is empty or starts with a character that is not white
    space. *)
Definition noLeadingSpace (s : string) : Prop :=
  match s with
  | String c _ => isWhiteSpace c = false
  | EmptyString => True
  end.

(** [toUpperCase] and [toLowerCase] on one character (ASCII part). *)
Definition toUpperChar (c : ascii) : ascii :=
  let n := nat_of_ascii c in
  if ((97 <=? n) && (n <=? 122))%nat then ascii_of_nat (n - 32) else c.

Definition toLowerChar (c : ascii) : ascii :=
  let n := nat_of_ascii c in
  if ((65 <=? n) && (n <=? 90))%nat then ascii_of_nat (n + 32) else c.

Fixpoint mapChars (f : ascii -> ascii) (s : string) : string :=
  match s with
  | String c r => String (f c) (mapChars f r)
  | EmptyString => EmptyString
  end.

Definition toUpperCase (s : string) : string := mapChars toUpperChar s.
Definition toLowerCase (s : string) : string := mapChars toLowerChar s.

(** [s.replace(/\s+/g, '_')]: every run of white space becomes one
    underscore.  [inRun] tells that the character before was white
    space. *)
Fixpoint replaceSpaceRunsFrom (inRun : bool) (s : string) : string :=
  match s with
  | String c r =>
      if isWhiteSpace c
      then if inRun then replaceSpaceRunsFrom true r
           else String "_" (replaceSpaceRunsFrom true r)
      else String c (replaceSpaceRunsFrom false r)
  | EmptyString => EmptyString
  end.

Definition replaceSpaceRuns (s : string) : string :=
  replaceSpaceRunsFrom false s.

(** [s.replace(/_/g, ' ')] *)
Definition replaceUnderscores (s : string) : string :=
  mapChars (fun c => if Ascii.eqb c "_" then " "%char else c) s.

(** Every character of the string satisfies [p]. *)
Fixpoint allChars (p : ascii -> bool) (s : string) : bool :=
  match s with
  | String c r => p c && allChars p r
  | EmptyString => true
  end.

(** The double quote, as a string. *)
Definition quote : string := String (ascii_of_nat 34) EmptyString.

(** An object made by an object literal, as the list of its own
    properties in the order of insertion (JavaScript lists keys that
    are array indices first; nothing here depends on the order).
    [setOwn] writes an own property. *)
Fixpoint setOwn {V} (key : string) (value : V) (obj : list (string * V))
  : list (string * V) :=
  match obj with
  | [] => [(key, value)]
  | (k, v) :: rest =>
      if String.eqb k key then (k, value) :: rest
      else (k, v) :: setOwn key value rest
  end.

(** The assignment [obj[key] = value].  The key [__proto__] is the
    accessor inherited from [Object.prototype]: assigning to it sets
    the prototype of the object (or does nothing) and writes no own
    property, so the own properties are as before. *)
Definition objectSet {V} (key : string) (value : V) (obj : list (string * V))
  : list (string * V) :=
  if String.eqb key "__proto__" then obj else setOwn key value obj.

Definition objectKeys {V} (obj : list (string * V)) : list string :=
  List.map fst obj.

(** ** [MapSection]: state, effects and handlers *)

Module MapSection.

Local Open Scope string_scope.
Local Open Scope monad_scope.

Definition SATELLITE_TILE_URL : string :=
  "https://server.arcgisonline.com/ArcGIS/rest/services/World_Imagery/MapServer/tile/{z}/{y}/{x}".

(** [MapInsights]: an object from topic keys to paragraphs. *)
Definition MapInsights : Type := list (string * string).

(** The [useState] cells of the component that the handlers touch. *)
Record State : Type := mkState {
  mapInstance : option L.Map;
  radius : Q;
  analysisBounds : option L.LatLngBounds;
  insights : option MapInsights;
  isInsightsLoading : bool;
  insightsError : option string;
  selectedTopics : list string;
  customTopic : string;
  isMapViewLoading : bool;
  mapViewError : option string
}.

(** A tile as [Promise.all] delivers it: [{ img, x, y }]. *)
Record Tile : Type := mkTile { img : Image; x : Z; y : Z }.

(** Effects of the handlers, in the order they happen. *)
Inductive Event : Type :=
| SetIsMapViewLoading (b : bool)
| SetIsInsightsLoading (b : bool)
| FitBounds (b : L.LatLngBounds)
| Wait (ms : Z)
| CreateCanvas (w h : Z)
| RequestTile (url : string)
| DrawTile (t : TileIndex) (canvasX canvasY : Q)
| ScaleOnto (w h : Q)
| ConsoleError (msg : string)
| OnAnalyzeFromMap (f : File)
| GetMapInsights (b : L.LatLngBounds) (topics : list string)
    (custom : string).

Definition setAnalysisBounds (v : option L.LatLngBounds) : M State Event unit :=
  modify (fun s =>
    mkState (mapInstance s) (radius s) v (insights s) (isInsightsLoading s)
      (insightsError s) (selectedTopics s) (customTopic s)
      (isMapViewLoading s) (mapViewError s)).

Definition setInsights (v : option MapInsights) : M State Event unit :=
  modify (fun s =>
    mkState (mapInstance s) (radius s) (analysisBounds s) v
      (isInsightsLoading s) (insightsError s) (selectedTopics s)
      (customTopic s) (isMapViewLoading s) (mapViewError s)).

Definition setIsInsightsLoading (v : bool) : M State Event unit :=
  modify (fun s =>
    mkState (mapInstance s) (radius s) (analysisBounds s) (insights s) v
      (insightsError s) (selectedTopics s) (customTopic s)
      (isMapViewLoading s) (mapViewError s)) ;;
  emit (SetIsInsightsLoading v).

Definition setInsightsError (v : option string) : M State Event unit :=
  modify (fun s =>
    mkState (mapInstance s) (radius s) (analysisBounds s) (insights s)
      (isInsightsLoading s) v (selectedTopics s) (customTopic s)
      (isMapViewLoading s) (mapViewError s)).

Definition setIsMapViewLoading (v : bool) : M State Event unit :=
  modify (fun s =>
    mkState (mapInstance s) (radius s) (analysisBounds s) (insights s)
      (isInsightsLoading s) (insightsError s) (selectedTopics s)
      (customTopic s) v (mapViewError s)) ;;
  emit (SetIsMapViewLoading v).

Definition setMapViewError (v : option string) : M State Event unit :=
  modify (fun s =>
    mkState (mapInstance s) (radius s) (analysisBounds s) (insights s)
      (isInsightsLoading s) (insightsError s) (selectedTopics s)
      (customTopic s) (isMapViewLoading s) v).

(** *** [updateAnalysisBounds] *)

Definition updateAnalysisBounds (br : Browser) : M State Event unit :=
  fun s =>
    match mapInstance s with
    | Some map =>
        if Qlt_bool 0 (radius s)
        then
          (let center := L.mapCenter map in
           let newBounds := L.toBounds (cosDeg br) center (radius s * 2) in
           setAnalysisBounds (Some newBounds)) s
        else setAnalysisBounds None s
    | None => ret tt s
    end.

(** *** [handleGetInsights] *)

(** The remote model behind [getMapInsights]: a result, or the message
    of the error the call throws. *)
Definition InsightsService : Type :=
  L.LatLngBounds -> list string -> string -> MapInsights + string.

Definition getMapInsights (ai : InsightsService) (b : L.LatLngBounds)
  (topics : list string) (custom : string) : M State Event MapInsights :=
  emit (GetMapInsights b topics custom) ;;
  match ai b topics custom with
  | inl r => ret r
  | inr e => throw e
  end.

Definition handleGetInsights (br : Browser) (ai : InsightsService)
  : M State Event unit :=
  fun s =>
    let trimmedCustomTopic := trim (customTopic s) in
    let allTopics :=
      if truthy trimmedCustomTopic
      then (selectedTopics s ++ [trimmedCustomTopic])%list
      else selectedTopics s in
    match mapInstance s, allTopics with
    | None, _ | _, [] =>
        setInsightsError (Some "Please select at least one topic.") s
    | Some map, _ :: _ =>
        (setIsInsightsLoading true ;;
         setInsightsError None ;;
         setInsights None ;;
         tryCatchFinally
           (let center := L.mapCenter map in
            let insightsBounds := L.toBounds (cosDeg br) center (10000 * 2) in
            result <- getMapInsights ai insightsBounds (selectedTopics s)
                        trimmedCustomTopic ;;
            setInsights (Some result))
           (fun err =>
              emit (ConsoleError err) ;;
              setInsightsError
                (Some "Failed to get insights. Please try again."))
           (setIsInsightsLoading false)) s
    end.

(** *** [handleAnalyzeMapView] *)

Definition tileUrl (zoom : Z) (t : TileIndex) : string :=
  replace "{x}" (stringOfZ (tx t))
    (replace "{y}" (stringOfZ (ty t))
       (replace "{z}" (stringOfZ zoom) SATELLITE_TILE_URL)).

(** The body of the loops of step 4 for one index: the request is
    issued, and the promise settles with the tile or with an error. *)
Definition settled (br : Browser) (zoom : Z) (t : TileIndex)
  : Tile + string :=
  let url := tileUrl zoom t in
  match loadImage br url with
  | Some im => inl (mkTile im (tx t) (ty t))
  | None => inr ("Failed to load tile: " ++ url)
  end.

Definition requestTile (br : Browser) (zoom : Z) (t : TileIndex)
  : M State Event (Tile + string) :=
  emit (RequestTile (tileUrl zoom t)) ;;
  ret (settled br zoom t).

Fixpoint requestTiles (br : Browser) (zoom : Z) (ts : list TileIndex)
  : M State Event (list (Tile + string)) :=
  match ts with
  | [] => ret []
  | t :: rest =>
      p <- requestTile br zoom t ;;
      ps <- requestTiles br zoom rest ;;
      ret (p :: ps)
  end.

(** The callback of [tiles.forEach] in step 5. *)
Definition canvasX (pixelBounds : L.Bounds) (t : Tile) : Q :=
  inject_Z (x t) * tileSize - L.x (L.min pixelBounds).

Definition canvasY (pixelBounds : L.Bounds) (t : Tile) : Q :=
  inject_Z (y t) * tileSize - L.y (L.min pixelBounds).

Definition drawTile (br : Browser) (pixelBounds : L.Bounds) (t : Tile)
  (c : Canvas) : Canvas :=
  drawImage br (img t) (canvasX pixelBounds t) (canvasY pixelBounds t) c.

(** The bitmap after [tiles.forEach]. *)
Definition stitch (br : Browser) (pixelBounds : L.Bounds)
  (tiles : list Tile) (c : Canvas) : Canvas :=
  fold_left (fun c t => drawTile br pixelBounds t c) tiles c.

Definition drawEvent (pixelBounds : L.Bounds) (t : Tile) : Event :=
  DrawTile (tileIndex (x t) (y t))
    (canvasX pixelBounds t) (canvasY pixelBounds t).

Fixpoint drawTiles (br : Browser) (pixelBounds : L.Bounds)
  (tiles : list Tile) (c : Canvas) : M State Event Canvas :=
  match tiles with
  | [] => ret c
  | t :: rest =>
      emit (drawEvent pixelBounds t) ;;
      drawTiles br pixelBounds rest (drawTile br pixelBounds t c)
  end.

(** [L.bounds(map.project(bounds.getNorthWest(), zoom),
             map.project(bounds.getSouthEast(), zoom))] *)
Definition pixelBoundsOf (map : L.Map) (ab : L.LatLngBounds) : L.Bounds :=
  let zoom := L.mapZoom map in
  L.bounds (L.project map (L.getNorthWest ab) zoom)
           (L.project map (L.getSouthEast ab) zoom).

(** The [try] block.  [fitBounds] is recorded as an effect; the
    listeners that the map calls when its view has moved are code
    outside the handler and are not run here, so the state that a run
    returns tells what the handler itself writes: the flag and the
    error of the map view. *)
Definition capture (br : Browser) (map : L.Map) (ab : L.LatLngBounds)
  : M State Event unit :=
  emit (FitBounds ab) ;;
  emit (Wait 500) ;;
  let zoom := L.mapZoom map in
  let finalSize := L.mapSize map in
  (* 1. pixel bounds of the analysis area *)
  let pixelBounds := pixelBoundsOf map ab in
  let pixelBoundsSize := L.getSize pixelBounds in
  if Qeq_bool (L.x pixelBoundsSize) 0 || Qeq_bool (L.y pixelBoundsSize) 0
  then throw "Analysis bounds have zero area."
  else
    (* 2. the canvas for stitching *)
    let stitchCanvas :=
      newCanvas (L.x pixelBoundsSize) (L.y pixelBoundsSize) in
    emit (CreateCanvas (width stitchCanvas) (height stitchCanvas)) ;;
    if negb (stitchContext br)
    then throw "Could not get canvas context"
    else
      (* 3. and 4. the tiles of the range are requested and awaited *)
      tilePromises <- requestTiles br zoom (tileIndices pixelBounds) ;;
      tiles <- promiseAll tilePromises ;;
      (* 5. the tiles are drawn *)
      stitched <- drawTiles br pixelBounds tiles stitchCanvas ;;
      (* 6. the final canvas, and the stitched image scaled onto it *)
      let finalCanvas := newCanvas (L.x finalSize) (L.y finalSize) in
      emit (CreateCanvas (width finalCanvas) (height finalCanvas)) ;;
      if negb (finalContext br)
      then throw "Could not get final canvas context"
      else
        emit (ScaleOnto (L.x finalSize) (L.y finalSize)) ;;
        match drawImageScaled br stitched (L.x finalSize) (L.y finalSize)
                finalCanvas with
        | inr e => throw e
        | inl scaled =>
            (* 7. the blob and the file *)
            match toBlob br scaled "image/png" with
            | Some blob =>
                let imageFile := mkFile blob "map-view.png" "image/png" in
                emit (OnAnalyzeFromMap imageFile)
            | None => throw "Canvas to Blob conversion failed."
            end
        end.

Definition handleAnalyzeMapView (br : Browser) : M State Event unit :=
  fun s =>
    match mapInstance s, analysisBounds s with
    | Some map, Some ab =>
        (setIsMapViewLoading true ;;
         setMapViewError None ;;
         tryCatchFinally
           (capture br map ab)
           (fun err =>
              emit (ConsoleError ("Failed to analyze map view: " ++ err)) ;;
              setMapViewError
                (Some "Could not capture map view. Please try again."))
           (setIsMapViewLoading false)) s
    | _, _ => ret tt s
    end.

(** What the handler leaves of a state [s]: the flag cleared and the
    error message [err]. *)
Definition settledState (s : State) (err : option string) : State :=
  mkState (mapInstance s) (radius s) (analysisBounds s) (insights s)
    (isInsightsLoading s) (insightsError s) (selectedTopics s)
    (customTopic s) false err.

Definition captureFailedMessage : string :=
  "Could not capture map view. Please try again.".

(** The size of the pixel bounds is not zero in either axis. *)
Definition hasArea (map : L.Map) (ab : L.LatLngBounds) : bool :=
  let size := L.getSize (pixelBoundsOf map ab) in
  negb (Qeq_bool (L.x size) 0 || Qeq_bool (L.y size) 0).

(** The canvas of step 2. *)
Definition stitchCanvasOf (map : L.Map) (ab : L.LatLngBounds) : Canvas :=
  let size := L.getSize (pixelBoundsOf map ab) in
  newCanvas (L.x size) (L.y size).

(** The events of the first two steps, and of the requests. *)
Definition requestEvents (zoom : Z) (ts : list TileIndex) : list Event :=
  List.map (fun t => RequestTile (tileUrl zoom t)) ts.

(** The events of a capture up to the end of the requests. *)
Definition uptoRequests (map : L.Map) (ab : L.LatLngBounds) : list Event :=
  ([FitBounds ab; Wait 500;
    CreateCanvas (width (stitchCanvasOf map ab))
                 (height (stitchCanvasOf map ab))]
   ++ requestEvents (L.mapZoom map) (tileIndices (pixelBoundsOf map ab)))%list.

(** The events of the last steps, and the exit of the [try] block,
    once the stitched image has been scaled onto the final canvas. *)
Definition encodeEvents (br : Browser) (scaled : Canvas) : list Event :=
  match toBlob br scaled "image/png" with
  | Some blob => [OnAnalyzeFromMap (mkFile blob "map-view.png" "image/png")]
  | None => []
  end.

Definition encodeExit (br : Browser) (scaled : Canvas) : unit + string :=
  match toBlob br scaled "image/png" with
  | Some _ => inl tt
  | None => inr "Canvas to Blob conversion failed."
  end.

(** The final canvas of step 6. *)
Definition finalCanvasOf (map : L.Map) : Canvas :=
  newCanvas (L.x (L.mapSize map)) (L.y (L.mapSize map)).

(** Every tile of the range loads. *)
Definition allLoad (br : Browser) (map : L.Map) (ab : L.LatLngBounds)
  : Prop :=
  forall t, In t (tileIndices (pixelBoundsOf map ab)) ->
            loadImage br (tileUrl (L.mapZoom map) t) <> None.

(** [Math.round] *)
Definition round (q : Q) : Z := Qfloor (q + (1 # 2)).

Definition isRequest (e : Event) : bool :=
  match e with RequestTile _ => true | _ => false end.

Definition isDraw (e : Event) : bool :=
  match e with DrawTile _ _ _ => true | _ => false end.

Definition isDispatch (e : Event) : bool :=
  match e with OnAnalyzeFromMap _ => true | _ => false end.

Definition isFlagWrite (e : Event) : bool :=
  match e with SetIsMapViewLoading _ => true | _ => false end.

Definition isCanvas (e : Event) : bool :=
  match e with CreateCanvas _ _ => true | _ => false end.

(** The tiles that [Promise.all] delivers when every image loads. *)
Definition loadedTiles (br : Browser) (zoom : Z) (ts : list TileIndex)
  : list Tile :=
  flat_map (fun t => match settled br zoom t with
                     | inl v => [v]
                     | inr _ => []
                     end) ts.

(** The stitched canvas after step 5, and the final canvas after
    step 6, of a capture in which every image loads. *)
Definition stitchedOf (br : Browser) (map : L.Map) (ab : L.LatLngBounds)
  : Canvas :=
  stitch br (pixelBoundsOf map ab)
    (loadedTiles br (L.mapZoom map) (tileIndices (pixelBoundsOf map ab)))
    (stitchCanvasOf map ab).

Definition scaledOf (br : Browser) (map : L.Map) (ab : L.LatLngBounds)
  : Canvas + string :=
  drawImageScaled br (stitchedOf br map ab)
    (L.x (L.mapSize map)) (L.y (L.mapSize map)) (finalCanvasOf map).

(** A file handed to [onAnalyzeFromMap] is a PNG encoding of some
    canvas under the name of the capture. *)
Definition dispatchOk (br : Browser) (e : Event) : Prop :=
  match e with
  | OnAnalyzeFromMap f =>
      fileName f = "map-view.png" /\ fileType f = "image/png" /\
      exists c, toBlob br c "image/png" = Some (fileBits f)
  | _ => True
  end.

(** The state with another radius and other analysis bounds. *)
Definition withSelection (s : State) (r : Q) (ab : option L.LatLngBounds)
  : State :=
  mkState (mapInstance s) r ab (insights s) (isInsightsLoading s)
    (insightsError s) (selectedTopics s) (customTopic s)
    (isMapViewLoading s) (mapViewError s).

(** Every call of the insights service in the trace is for the box [b]. *)
Definition asksAbout (b : L.LatLngBounds) (e : Event) : Prop :=
  match e with
  | GetMapInsights b' _ _ => b' = b
  | _ => True
  end.

(** The topics that [handleGetInsights] collects. *)
Definition allTopicsOf (s : State) : list string :=
  if truthy (trim (customTopic s))
  then (selectedTopics s ++ [trim (customTopic s)])%list
  else selectedTopics s.

(** The index of a delivered tile. *)
Definition indexOf (t : Tile) : TileIndex := tileIndex (x t) (y t).

(** The corner [min] of the pixel bounds lies on whole pixels, so that
    every tile is drawn at an offset of whole pixels. *)
Definition wholePixels (pixelBounds : L.Bounds) : Prop :=
  (inject_Z (Qfloor (L.x (L.min pixelBounds))) == L.x (L.min pixelBounds))%Q /\
  (inject_Z (Qfloor (L.y (L.min pixelBounds))) == L.y (L.min pixelBounds))%Q.

(** The image of a tile is no larger than a tile of the grid. *)
Definition tileFits (t : Tile) : Prop :=
  (naturalWidth (img t) <= 256)%Z /\ (naturalHeight (img t) <= 256)%Z.

(** An effect other than a write of the flag. *)
Definition quietEvent (e : Event) : Prop := isFlagWrite e = false.

(** The state in which the [try] block runs: the flag set, the error
    message cleared. *)
Definition loadingState (s : State) : State :=
  mkState (mapInstance s) (radius s) (analysisBounds s) (insights s)
    (isInsightsLoading s) (insightsError s) (selectedTopics s)
    (customTopic s) true None.

(** The effects of the [catch] block, and the message it leaves, for
    an exit of the [try] block. *)
Definition catchEvents (r : unit + string) : list Event :=
  match r with
  | inl _ => []
  | inr err => [ConsoleError ("Failed to analyze map view: " ++ err)]
  end.

Definition errorAfter (r : unit + string) : option string :=
  match r with
  | inl _ => None
  | inr _ => Some captureFailedMessage
  end.

(** *** [capitalizeFirstLetter] *)

Definition capitalizeFirstLetter (s : string) : string :=
  match s with
  | EmptyString => EmptyString
  | String c r => String (toUpperChar c) r
  end.

(** The heading of an insight: [capitalizeFirstLetter(topic.replace(/_/g, ' '))]. *)
Definition insightHeading (topic : string) : string :=
  capitalizeFirstLetter (replaceUnderscores topic).

(** The rows that the panel shows for [Object.entries(insights)]: every
    entry but [district], with its heading. *)
Definition insightRows (ins : MapInsights) : list (string * string) :=
  flat_map (fun entry =>
              if String.eqb (fst entry) "district" then []
              else [(insightHeading (fst entry), snd entry)]) ins.

(** *** [calculateLandPercentages]

    The four results of [Math.random()] are parameters.  Numbers are
    exact rationals: the rounding of doubles is not modelled, so that
    only statements that hold with a margin carry over to the code. *)
Definition LandCoverData : Type := (string * Q)%type.

Definition calculateLandPercentages (r1 r2 r3 r4 : Q) : list LandCoverData :=
  let a := (8 + r1 * (16 - 8))%Q in
  let b := (4 + r2 * (9 - 4))%Q in
  let c := (22 + r3 * (36 - 22))%Q in
  let d := (45 + r4 * (58 - 45))%Q in
  let totalAssigned := (a + b + c + d)%Q in
  let scaleFactor := (100 / totalAssigned)%Q in
  let a := (a * scaleFactor)%Q in
  let b := (b * scaleFactor)%Q in
  let c := (c * scaleFactor)%Q in
  let d := (d * scaleFactor)%Q in
  let e := Qmax (100 - (a + b + c + d)) 0 in
  [("Water Bodies", a); ("Roads", b); ("Vegetation", c);
   ("Urban Areas", d); ("Other", e)].

Definition totalOf (data : list LandCoverData) : Q :=
  fold_right (fun d acc => (snd d + acc)%Q) 0%Q data.

(** *** [handleTopicChange] *)

(** The updater given to [setSelectedTopics]. *)
Definition toggleTopic (topicId : string) (prev : list string) : list string :=
  if existsb (String.eqb topicId) prev
  then filter (fun t => negb (String.eqb t topicId)) prev
  else (prev ++ [topicId])%list.

Definition handleTopicChange (topicId : string) : M State Event unit :=
  modify (fun s =>
    mkState (mapInstance s) (radius s) (analysisBounds s) (insights s)
      (isInsightsLoading s) (insightsError s)
      (toggleTopic topicId (selectedTopics s)) (customTopic s)
      (isMapViewLoading s) (mapViewError s)).

Definition isInsightsCall (e : Event) : bool :=
  match e with GetMapInsights _ _ _ => true | _ => false end.

(** The state that [handleGetInsights] leaves: the three cells of the
    insights panel. *)
Definition withInsights (s : State) (ins : option MapInsights)
  (loading : bool) (err : option string) : State :=
  mkState (mapInstance s) (radius s) (analysisBounds s) ins loading err
    (selectedTopics s) (customTopic s) (isMapViewLoading s) (mapViewError s).

Definition noTopicMessage : string := "Please select at least one topic.".

Definition insightsFailedMessage : string :=
  "Failed to get insights. Please try again.".

(** The tile that a [DrawTile] effect stands for, with its offsets. *)
Definition drawOf (pixelBounds : L.Bounds) (t : TileIndex) : Event :=
  DrawTile t (inject_Z (tx t) * tileSize - L.x (L.min pixelBounds))
             (inject_Z (ty t) * tileSize - L.y (L.min pixelBounds)).

(** A topic text whose only white space is single blanks between words
    and which has no underscore; [afterBlank] tells that the character
    before was a blank. *)
Fixpoint singleSpaced (afterBlank : bool) (s : string) : bool :=
  match s with
  | String c r =>
      if isWhiteSpace c
      then Ascii.eqb c " " && negb afterBlank && singleSpaced true r
      else negb (Ascii.eqb c "_") && singleSpaced false r
  | EmptyString => true
  end.

End MapSection.

(** ** [geminiService.analyzeImageForBiodiversity] and
       [AnalysisSection.handleAnalysis] *)

Module Analysis.

Local Open Scope string_scope.
Local Open Scope monad_scope.

(** The response of [ai.models.generateContent], as far as it is read:
    [response.candidates[0].content.parts]. *)
Record InlineData : Type := mkInlineData { mimeType : string; data : string }.

Record Part : Type :=
  mkPart { text : option string; inlineData : option InlineData }.

Record Candidate : Type := mkCandidate { parts : list Part }.

Record GenerateContentResponse : Type :=
  mkResponse { candidates : option (list Candidate) }.

(** [LandUsePercentages]: an object from category names to numbers. *)
Definition LandUsePercentages : Type := list (string * Q).

Record BiodiversityAnalysisResult : Type := mkResult {
  percentages : LandUsePercentages;
  segmentedImage : string
}.

(** What the service file calls: the remote model, which answers or
    throws, and [JSON.parse], which yields a value or throws. *)
Record Runtime : Type := mkRuntime {
  generateContent : string -> string -> GenerateContentResponse + string;
  parseJSON : string -> option LandUsePercentages
}.

(** *** The two patterns *)

(** [s.slice(n)] *)
Fixpoint skip (n : nat) (s : string) : string :=
  match n, s with
  | O, _ => s
  | S n', String _ r => skip n' r
  | S _, EmptyString => EmptyString
  end.

(** [u] is [s] without some of its first characters. *)
Inductive suffixOf (u : string) : string -> Prop :=
| suffix_all : suffixOf u u
| suffix_skip (c : ascii) (s : string) : suffixOf u s -> suffixOf u (String c s).

(** [^\s*```] *)
Definition closesFence (s : string) : bool := prefix "```" (trimStart s).

(** The longest prefix of [s] that ends in a closing brace which the
    predicate accepts on what follows it: the greedy [[\s\S]*\}]. *)
Fixpoint longestUpToBrace (after : string -> bool) (s : string)
  : option string :=
  match s with
  | EmptyString => None
  | String c r =>
      match longestUpToBrace after r with
      | Some b => Some (String c b)
      | None =>
          if Ascii.eqb c "}" && after r
          then Some (String c EmptyString) else None
      end
  end.

Definition startsWithBrace (s : string) : bool :=
  match s with
  | String c _ => Ascii.eqb c "{"
  | EmptyString => false
  end.

(** A match of [(json)?\s*(\{[\s\S]*\})\s*```] right after an opening
    fence; the result is group 2. *)
Definition matchFencedAt (r : string) : option string :=
  let r1 := if prefix "json" r then skip 4 r else r in
  let r2 := trimStart r1 in
  if startsWithBrace r2 then longestUpToBrace closesFence r2 else None.

(** Group 2 of the leftmost match of
    [/```(json)?\s*(\{[\s\S]*\})\s*```/]. *)
Fixpoint matchFenced (s : string) : option string :=
  match s with
  | EmptyString => None
  | String _ r =>
      match (if prefix "```" s then matchFencedAt (skip 3 s) else None) with
      | Some g => Some g
      | None => matchFenced r
      end
  end.

(** The match of [/\{[\s\S]*\}/]: from the first opening brace to the
    last closing brace after it. *)
Fixpoint matchBraces (s : string) : option string :=
  match s with
  | EmptyString => None
  | String c r =>
      if Ascii.eqb c "{" then longestUpToBrace (fun _ => true) s
      else matchBraces r
  end.

(** *** The loop over the parts *)

Record Scan : Type := mkScan {
  jsonString : string;
  scanImage : string;
  scanMimeType : string
}.

Definition scanStart : Scan := mkScan EmptyString EmptyString "image/png".

Definition textOf (p : Part) : option string :=
  match text p with
  | Some t => if truthy t then Some t else None
  | None => None
  end.

(** The JSON text taken from one text part, if a pattern matches. *)
Definition extractJson (t : string) : option string :=
  match matchFenced t with
  | Some g => if truthy g then Some g else matchBraces t
  | None => matchBraces t
  end.

Definition scanPart (acc : Scan) (p : Part) : Scan :=
  match textOf p with
  | Some t =>
      match extractJson t with
      | Some j => mkScan j (scanImage acc) (scanMimeType acc)
      | None => acc
      end
  | None =>
      match inlineData p with
      | Some d => mkScan (jsonString acc) (data d) (mimeType d)
      | None => acc
      end
  end.

Definition scanResponse (response : GenerateContentResponse) : Scan :=
  match candidates response with
  | Some (c :: _) => fold_left scanPart (parts c) scanStart
  | _ => scanStart
  end.

(** *** [AnalysisSection] *)

Record State : Type := mkState {
  imageFile : option File;
  previewImage : option string;
  analysisResult : option BiodiversityAnalysisResult;
  isLoading : bool;
  error : option string
}.

Inductive Event : Type :=
| GenerateContent (base64Image mime : string)
| ConsoleError (msg : string)
| OnAnalysisComplete.

Definition incompleteMessage : string :=
  "Failed to get complete analysis from the API. Missing JSON or segmented image.".

Definition analyzeImageForBiodiversity (rt : Runtime)
  (base64Image mime : string)
  : M State Event BiodiversityAnalysisResult :=
  emit (GenerateContent base64Image mime) ;;
  match generateContent rt base64Image mime with
  | inr e => throw e
  | inl response =>
      let sc := scanResponse response in
      if negb (truthy (jsonString sc)) || negb (truthy (scanImage sc))
      then
        emit (ConsoleError "API Response was incomplete:") ;;
        throw incompleteMessage
      else
        match parseJSON rt (jsonString sc) with
        | Some p =>
            ret (mkResult p
                   ("data:" ++ scanMimeType sc ++ ";base64," ++ scanImage sc))
        | None =>
            emit (ConsoleError "Failed to parse JSON string:") ;;
            throw "Failed to parse analysis data from the API."
        end
  end.

Definition setAnalysisResult (v : option BiodiversityAnalysisResult)
  : M State Event unit :=
  modify (fun s =>
    mkState (imageFile s) (previewImage s) v (isLoading s) (error s)).

Definition setIsLoading (v : bool) : M State Event unit :=
  modify (fun s =>
    mkState (imageFile s) (previewImage s) (analysisResult s) v (error s)).

Definition setError (v : option string) : M State Event unit :=
  modify (fun s =>
    mkState (imageFile s) (previewImage s) (analysisResult s)
      (isLoading s) v).

(** [s.split(',')] *)
Fixpoint splitComma (s : string) : list string :=
  match s with
  | EmptyString => [EmptyString]
  | String c r =>
      if Ascii.eqb c ","
      then EmptyString :: splitComma r
      else match splitComma r with
           | h :: t => String c h :: t
           | [] => [String c EmptyString]
           end
  end.

(** [previewImage?.split(',')[1]] *)
Definition base64Of (preview : option string) : option string :=
  match preview with
  | Some p => nth_error (splitComma p) 1
  | None => None
  end.

Definition onAnalysisComplete (startAnalysis : bool) : M State Event unit :=
  if startAnalysis then emit OnAnalysisComplete else ret tt.

Definition handleAnalysis (rt : Runtime) (startAnalysis : bool)
  : M State Event unit :=
  fun s =>
    match imageFile s with
    | None =>
        (setError (Some "Please select an image first.") ;;
         onAnalysisComplete startAnalysis) s
    | Some file =>
        (setIsLoading true ;;
         setError None ;;
         setAnalysisResult None ;;
         tryCatchFinally
           (match base64Of (previewImage s) with
            | Some base64Image =>
                if truthy base64Image
                then
                  result <- analyzeImageForBiodiversity rt base64Image
                              (fileType file) ;;
                  setAnalysisResult (Some result)
                else throw "Could not read image data."
            | None => throw "Could not read image data."
            end)
           (fun err =>
              emit (ConsoleError err) ;;
              setError (Some "Failed to analyze the image. Please try again."))
           (setIsLoading false ;; onAnalysisComplete startAnalysis)) s
    end.

(** *** What a response carries *)

Definition firstParts (response : GenerateContentResponse) : list Part :=
  match candidates response with
  | Some (c :: _) => parts c
  | _ => []
  end.

(** No text part of the response carries a JSON object. *)
Definition percentagesAbsent (response : GenerateContentResponse) : Prop :=
  forall p t, In p (firstParts response) -> text p = Some t ->
              matchBraces t = None.

(** No part of the response carries image data. *)
Definition imageAbsent (response : GenerateContentResponse) : Prop :=
  forall p d, In p (firstParts response) -> inlineData p = Some d ->
              data d = EmptyString.

(** The last character of a string. *)
Fixpoint lastChar (s : string) : option ascii :=
  match s with
  | EmptyString => None
  | String c EmptyString => Some c
  | String _ r => lastChar r
  end.

Definition notChar (x : ascii) (c : ascii) : bool := negb (Ascii.eqb c x).

(** A part that the loop reads as the segmented image. *)
Definition isImagePart (p : Part) : bool :=
  match textOf p, inlineData p with
  | None, Some _ => true
  | _, _ => false
  end.

Definition startsWithComma (s : string) : bool :=
  match s with
  | String c _ => Ascii.eqb c ","
  | EmptyString => false
  end.

Definition isModelCall (e : Event) : bool :=
  match e with GenerateContent _ _ => true | _ => false end.

Definition isCompletion (e : Event) : bool :=
  match e with OnAnalysisComplete => true | _ => false end.

Definition noImageMessage : string := "Please select an image first.".

Definition parseFailedMessage : string :=
  "Failed to parse analysis data from the API.".

(** The state in which the request is made: loading, nothing shown. *)
Definition busy (s : State) : State :=
  mkState (imageFile s) (previewImage s) None true None.

Definition analysisFailedMessage : string :=
  "Failed to analyze the image. Please try again.".

(** Sample responses: a complete one, and one without the image part. *)
Definition doubleQuote : string := String (ascii_of_nat 34) EmptyString.

Definition jsonPart : Part :=
  mkPart (Some ("Here you go: {" ++ doubleQuote ++ "Building" ++ doubleQuote
                ++ ": 40, " ++ doubleQuote ++ "Water" ++ doubleQuote
                ++ ": 60}")) None.

Definition imagePart : Part :=
  mkPart None (Some (mkInlineData "image/png" "iVBORw0KGgo=")).

Definition completeResponse : GenerateContentResponse :=
  mkResponse (Some [mkCandidate [imagePart; jsonPart]]).

Definition responseWithoutImage : GenerateContentResponse :=
  mkResponse (Some [mkCandidate [jsonPart]]).

Definition sampleState : State :=
  mkState (Some (mkFile [] "area.png" "image/png"))
    (Some "data:image/png;base64,AAAA") None false None.

Definition sampleRuntime (r : GenerateContentResponse) : Runtime :=
  mkRuntime (fun _ _ => inl r)
    (fun _ => Some [("Building", 40%Q); ("Water", 60%Q)]).

End Analysis.

(** ** Sample inputs *)

Module Sample.

Local Open Scope string_scope.

(** A map widget in the flat coordinate system [L.CRS.Simple]: a point
    [(lat, lng)] is projected to [(lng * 2^zoom, - lat * 2^zoom)]. *)
Definition simpleMap (zoom : Z) (w h : Z) : L.Map :=
  L.mkMap (L.latLng 0 0) zoom (L.point (inject_Z w) (inject_Z h))
    (fun ll z =>
       L.point (L.lng ll * inject_Z (2 ^ z)) (- L.lat ll * inject_Z (2 ^ z))).

Definition white : Pixel := rgba 255 255 255 255.
Definition grey : Pixel := rgba 128 128 128 255.

Definition whiteTile : Image := mkImage 256 256 (fun _ _ => white).
Definition greyTile : Image := mkImage 256 256 (fun _ _ => grey).

(** The cosine at the two latitudes the samples use. *)
Definition cosTable (d : Q) : Q := if Qeq_bool d 60 then 1 # 2 else 1.

(** A browser in which everything works, apart from the loading of the
    tile images, which [load] decides. *)
Definition browser (load : string -> option Image) : Browser :=
  mkBrowser load true true (fun src _ => src)
    (fun c _ _ _ _ => canvasPixel c 0 0)
    (fun _ _ => Some [Byte.x89; Byte.x50; Byte.x4e; Byte.x47])
    cosTable.

Definition allTilesLoad : string -> option Image := fun _ => Some whiteTile.

(** Every tile loads but the tile [(1, 1)] of zoom 10. *)
Definition oneTileFails : string -> option Image :=
  fun url =>
    if String.eqb url (MapSection.tileUrl 10 (tileIndex 1 1))
    then None else Some whiteTile.

(** A browser whose encoder yields no data. *)
Definition browserWithoutBlob : Browser :=
  mkBrowser allTilesLoad true true (fun src _ => src)
    (fun c _ _ _ _ => canvasPixel c 0 0) (fun _ _ => None) cosTable.

Definition stateWith (map : option L.Map) (r : Q)
  (ab : option L.LatLngBounds) : MapSection.State :=
  MapSection.mkState map r ab None false None [] EmptyString false None.

(** Bounds that [simpleMap] projects, at zoom 10, onto the pixel
    rectangle from [(0, 0)] to [(512, 512)]. *)
Definition square512 : L.LatLngBounds :=
  L.latLngBounds (L.latLng (- (1 # 2)) 0) (L.latLng 0 (1 # 2)).

(** Bounds that are a quarter of a pixel wide and 512 pixels high at
    zoom 10. *)
Definition sliver : L.LatLngBounds :=
  L.latLngBounds (L.latLng (- (1 # 2)) 0) (L.latLng 0 (1 # 4096)).

(** Bounds whose two corners are the same point. *)
Definition onePoint : L.LatLngBounds :=
  L.latLngBounds (L.latLng (1 # 3) (2 # 7)) (L.latLng (1 # 3) (2 # 7)).

(** Two neighbouring tiles of the grid, and a canvas of 512 by 512
    pixels whose corner is the pixel [(0, 0)]. *)
Definition twoTiles : list MapSection.Tile :=
  [MapSection.mkTile whiteTile 0 0; MapSection.mkTile greyTile 1 0].

Definition twoTilesSwapped : list MapSection.Tile :=
  [MapSection.mkTile greyTile 1 0; MapSection.mkTile whiteTile 0 0].

Definition bounds512 : L.Bounds := L.bounds (L.point 0 0) (L.point 512 512).

(** Source-over compositing of the Compositing and Blending
    specification on pixels that are not premultiplied: with [as] and
    [ab] the alphas of source and backdrop as fractions,
    [ao = as + ab (1 - as)] and [co = (cs as + cb ab (1 - as)) / ao];
    the colour channels are cut to a byte. *)
Definition sourceOver (src dst : Pixel) : Pixel :=
  let sa := (inject_Z (alpha src) / 255)%Q in
  let da := (inject_Z (alpha dst) / 255)%Q in
  let oa := (sa + da * (1 - sa))%Q in
  if Qeq_bool oa 0 then transparentBlack
  else
    let channel (cs cb : Z) :=
      Qfloor ((inject_Z cs * sa + inject_Z cb * da * (1 - sa)) / oa) in
    rgba (channel (red src) (red dst)) (channel (green src) (green dst))
      (channel (blue src) (blue dst)) (Qfloor (oa * 255 + (1 # 2))).

(** A browser that composites with [sourceOver]. *)
Definition compositing (load : string -> option Image) : Browser :=
  mkBrowser load true true sourceOver
    (fun c _ _ _ _ => canvasPixel c 0 0)
    (fun _ _ => Some [Byte.x89; Byte.x50; Byte.x4e; Byte.x47])
    cosTable.

(** Pixel bounds of 512 by 256 pixels whose corner lies half a pixel
    off the grid: the two tiles of [twoTiles] are drawn at the offsets
    [-1/2] and [255 + 1/2] and share the pixels of the column 255. *)
Definition boundsHalf : L.Bounds :=
  L.bounds (L.point (1 # 2) 0) (L.point (1025 # 2) 256).

(** An image one pixel wider than a tile of the grid, and the two
    neighbouring tiles with it in the place of the first. *)
Definition wideTile : Image := mkImage 257 256 (fun _ _ => white).

Definition wideTiles : list MapSection.Tile :=
  [MapSection.mkTile wideTile 0 0; MapSection.mkTile greyTile 1 0].

Definition wideTilesSwapped : list MapSection.Tile :=
  [MapSection.mkTile greyTile 1 0; MapSection.mkTile wideTile 0 0].

End Sample.

(** ** [geminiService.getMapInsights]: topics, prompt entries, schema *)

Module Insights.

Local Open Scope string_scope.

(** [allTopics]: the topics, and the trimmed custom topic when there is
    one. *)
Definition allTopics (topics : list string) (customTopic : option string)
  : list string :=
  match customTopic with
  | Some c =>
      if truthy c && negb (String.eqb (trim c) EmptyString)
      then (topics ++ [trim c])%list
      else topics
  | None => topics
  end.

(** [topic.trim().toLowerCase().replace(/\s+/g, '_')] *)
Definition topicKey (topic : string) : string :=
  replaceSpaceRuns (toLowerCase (trim topic)).

Definition safetyText : string :=
  "Detailed analysis of public safety. Consider factors like population density, road networks, proximity to emergency services, and typical crime patterns for such an area (e.g., urban core, suburb, industrial park). Mention potential risks and safety improvement suggestions.".

(** The callback of [allTopics.map] that builds [topicPrompts]. *)
Definition topicPrompt (topic : string) : string :=
  if String.eqb (toLowerCase topic) "safety"
  then quote ++ "safety" ++ quote ++ ": " ++ quote ++ safetyText ++ quote
  else
    let key := topicKey topic in
    quote ++ key ++ quote ++ ": " ++ quote
    ++ "A concise, one-paragraph analysis for the topic: " ++ topic ++ "."
    ++ quote.

(** [strings.join(',\n')] *)
Fixpoint joinLines (l : list string) : string :=
  match l with
  | [] => EmptyString
  | [x] => x
  | x :: rest =>
      x ++ "," ++ String (ascii_of_nat 10) EmptyString ++ joinLines rest
  end.

Definition topicPrompts (topics : list string) : string :=
  joinLines (List.map topicPrompt topics).

(** The two accumulators of [allTopics.forEach]:
    [responseSchemaProperties] (key and description) and
    [requiredFields]. *)
Definition Schema : Type := (list (string * string) * list string)%type.

Definition schemaStart : Schema :=
  ([("district", "The identified district or neighborhood name.")],
   ["district"]).

Definition addTopic (acc : Schema) (topic : string) : Schema :=
  let key := topicKey topic in
  if truthy key
  then (objectSet key ("Analysis for the " ++ topic ++ " topic.") (fst acc),
        (snd acc ++ [key])%list)
  else acc.

Definition responseSchema (topics : list string) : Schema :=
  fold_left addTopic topics schemaStart.

End Insights.

(** ** [App.handleSustainabilityAnalysis] *)

Module App.

Local Open Scope string_scope.
Local Open Scope monad_scope.

Definition SustainabilityReport : Type := list (string * string).

Record State : Type := mkState {
  sustainabilityReport : option SustainabilityReport;
  isReportLoading : bool;
  reportError : option string
}.

(** The argument of [getSustainabilityReport]. *)
Record MapData : Type := mkMapData {
  bounds : option L.LatLngBounds;
  urbanAreas : Q;
  vegetation : Q;
  waterBodies : Q;
  populationDensity : Q
}.

Record ImageArg : Type := mkImageArg { base64 : option string; mimeType : string }.

Inductive Event : Type :=
| ReadAsDataURL (f : File)
| GetSustainabilityReport (d : MapData) (image : option ImageArg)
| ConsoleError (msg : string).

(** What the handler calls: [Math.random()], numbered by call,
    [FileReader.readAsDataURL] and the report service; the last two
    yield a value or an error. *)
Record Runtime : Type := mkRuntime {
  random : nat -> Q;
  readAsDataURL : File -> string + string;
  getSustainabilityReport :
    MapData -> option ImageArg -> SustainabilityReport + string
}.

(** [Math.round] *)
Definition round (q : Q) : Q := inject_Z (Qfloor (q + (1 # 2))).

(** [landCover?.find(d => d.name === name)?.value] *)
Definition findValue (landCover : option (list MapSection.LandCoverData))
  (name : string) : option Q :=
  match landCover with
  | Some l =>
      match find (fun d => String.eqb (fst d) name) l with
      | Some d => Some (snd d)
      | None => None
      end
  | None => None
  end.

(** [value ?? Math.round(lo + Math.random() * span)]: the random number
    is drawn only when the value is missing; [n] counts the draws. *)
Definition orRandom (rt : Runtime) (v : option Q) (lo span : Q) (n : nat)
  : Q * nat :=
  match v with
  | Some q => (q, n)
  | None => (round (lo + random rt n * span), S n)
  end.

Definition mapDataOf (rt : Runtime) (b : option L.LatLngBounds)
  (landCover : option (list MapSection.LandCoverData)) : MapData :=
  let '(urban, n1) := orRandom rt (findValue landCover "Urban Areas") 10 40 O in
  let '(veg, n2) := orRandom rt (findValue landCover "Vegetation") 20 30 n1 in
  let '(water, n3) := orRandom rt (findValue landCover "Water Bodies") 5 15 n2 in
  let '(density, _) := orRandom rt None 500 2000 n3 in
  mkMapData b urban veg water density.

Definition setSustainabilityReport (v : option SustainabilityReport)
  : M State Event unit :=
  modify (fun s => mkState v (isReportLoading s) (reportError s)).

Definition setIsReportLoading (v : bool) : M State Event unit :=
  modify (fun s => mkState (sustainabilityReport s) v (reportError s)).

Definition setReportError (v : option string) : M State Event unit :=
  modify (fun s => mkState (sustainabilityReport s) (isReportLoading s) v).

(** The promise around the [FileReader]: the part of the data URL after
    its first comma, or the error of the reader. *)
Definition readBase64 (rt : Runtime) (f : File)
  : M State Event (option string) :=
  emit (ReadAsDataURL f) ;;
  match readAsDataURL rt f with
  | inl url => ret (nth_error (Analysis.splitComma url) 1)
  | inr e => throw e
  end.

Definition reportFailedMessage : string :=
  "Failed to get sustainability recommendations. Please try again.".

Definition handleSustainabilityAnalysis (rt : Runtime)
  (dataBounds : option L.LatLngBounds)
  (landCover : option (list MapSection.LandCoverData))
  (imageFile : option File) : M State Event unit :=
  setIsReportLoading true ;;
  setReportError None ;;
  setSustainabilityReport None ;;
  tryCatchFinally
    (let mapData := mapDataOf rt dataBounds landCover in
     image <- match imageFile with
              | Some f =>
                  base64Image <- readBase64 rt f ;;
                  ret (Some (mkImageArg base64Image (fileType f)))
              | None => ret None
              end ;;
     emit (GetSustainabilityReport mapData image) ;;
     match getSustainabilityReport rt mapData image with
     | inl result => setSustainabilityReport (Some result)
     | inr e => throw e
     end)
    (fun err =>
       emit (ConsoleError err) ;;
       setReportError (Some reportFailedMessage))
    (setIsReportLoading false).

Definition isReportCall (e : Event) : bool :=
  match e with GetSustainabilityReport _ _ => true | _ => false end.

End App.

(** ** [LocalMapIframe]: the effect that fetches the map *)

Module LocalMapIframe.

Local Open Scope string_scope.
Local Open Scope monad_scope.

Record State : Type := mkState {
  htmlContent : string;
  isLoading : bool;
  error : option string
}.

(** A response of [fetch]: [ok], [statusText], and what [text()] yields. *)
Record Response : Type := mkResponse {
  ok : bool;
  statusText : string;
  text : string + string
}.

Inductive Event : Type :=
| Fetch (url : string)
| ConsoleError (msg : string).

Definition setHtmlContent (v : string) : M State Event unit :=
  modify (fun s => mkState v (isLoading s) (error s)).

Definition setIsLoading (v : bool) : M State Event unit :=
  modify (fun s => mkState (htmlContent s) v (error s)).

Definition setError (v : option string) : M State Event unit :=
  modify (fun s => mkState (htmlContent s) (isLoading s) v).

Definition loadFailedMessage : string :=
  "Could not load the map data. Please ensure the file exists and the server is running.".

(** [fetchHtml]; [fetch] answers with a response or rejects. *)
Definition fetchHtml (fetch : string -> Response + string) (url : string)
  : M State Event unit :=
  setIsLoading true ;;
  setError None ;;
  setHtmlContent EmptyString ;;
  tryCatchFinally
    (emit (Fetch url) ;;
     match fetch url with
     | inr e => throw e
     | inl response =>
         if negb (ok response)
         then throw ("Failed to load map: " ++ statusText response)
         else match text response with
              | inl t => setHtmlContent t
              | inr e => throw e
              end
     end)
    (fun err =>
       emit (ConsoleError ("Error fetching " ++ url ++ ":")) ;;
       setError (Some loadFailedMessage))
    (setIsLoading false).

(** What the component renders for a state. *)
Inductive View : Type :=
| Spinner
| ErrorBox (msg : string)
| SpinnerAndError (msg : string)
| Frame (srcDoc : string).

Definition render (s : State) : View :=
  match isLoading s, error s with
  | true, Some e => SpinnerAndError e
  | true, None => Spinner
  | false, Some e => ErrorBox e
  | false, None => Frame (htmlContent s)
  end.

End LocalMapIframe.

(** ** [RadialProgress] *)

Module RadialProgress.

Local Open Scope Q_scope.

Inductive Colour : Type := Green | Yellow | Red.

(** The computed values of the component; [pi] stands for [Math.PI]. *)
Definition normalizedRadius (strokeWidth : Q) : Q := 50 - strokeWidth / 2.

Definition circumference (pi strokeWidth : Q) : Q :=
  normalizedRadius strokeWidth * 2 * pi.

Definition offset (pi strokeWidth progress : Q) : Q :=
  circumference pi strokeWidth
  - (progress / 100) * circumference pi strokeWidth.

Definition colorClass (progress : Q) : Colour :=
  let c := Green in
  let c := if Qlt_bool progress 75 then Yellow else c in
  let c := if Qlt_bool progress 40 then Red else c in
  c.

End RadialProgress.

(** * Proofs *)

(** ** Facts about loops and floors *)

Lemma forRange_In (lo hi i : Z) : In i (forRange lo hi) <-> lo <= i <= hi.
Proof.
  unfold forRange. rewrite in_map_iff. split.
  - intros [k [<- Hk]]. apply in_seq in Hk. lia.
  - intros H. exists (Z.to_nat (i - lo)). split; [lia|].
    apply in_seq. lia.
Qed.

Lemma forRange_NoDup (lo hi : Z) : NoDup (forRange lo hi).
Proof.
  unfold forRange. apply Finite.Injective_map_NoDup.
  - intros a b H. lia.
  - apply seq_NoDup.
Qed.

Lemma forRange_length (lo hi : Z) :
  List.length (forRange lo hi) = Z.to_nat (hi - lo + 1).
Proof. unfold forRange. now rewrite length_map, length_seq. Qed.

Lemma floor_unique (q : Q) (z : Z) :
  (inject_Z z <= q < inject_Z (z + 1))%Q <-> z = Qfloor q.
Proof.
  split.
  - intros [Hlo Hhi].
    assert (H1 : z <= Qfloor q).
    { rewrite <- (Qfloor_Z z). now apply Qfloor_resp_le. }
    assert (H2 : Qfloor q < z + 1).
    { rewrite Zlt_Qlt. eapply Qle_lt_trans; [apply Qfloor_le | exact Hhi]. }
    lia.
  - intros ->. split; [apply Qfloor_le | apply Qlt_floor].
Qed.

Lemma tile_axis (q : Q) (z : Z) :
  (inject_Z z * tileSize <= q < inject_Z (z + 1) * tileSize)%Q <->
  z = Qfloor (q / tileSize).
Proof.
  rewrite <- floor_unique. unfold tileSize.
  assert (E : (q / 256 * 256 == q)%Q) by (field; discriminate).
  split; intros [H1 H2]; split.
  - apply Qle_shift_div_l; [reflexivity | exact H1].
  - apply Qlt_shift_div_r; [reflexivity | exact H2].
  - rewrite <- E. apply Qmult_le_compat_r; [exact H1 | discriminate].
  - rewrite <- E at 1. apply Qmult_lt_compat_r; [reflexivity | exact H2].
Qed.

Lemma floor_div_mono (p q : Q) :
  (p <= q)%Q -> Qfloor (p / tileSize) <= Qfloor (q / tileSize).
Proof.
  intros H. apply Qfloor_resp_le. unfold Qdiv.
  apply Qmult_le_compat_r; [exact H | discriminate].
Qed.

Lemma Qfloor_Qmin_Z (a b : Z) :
  Qfloor (Qmin (inject_Z a) (inject_Z b)) = Z.min a b.
Proof.
  destruct (Z.le_ge_cases a b) as [H|H].
  - rewrite Z.min_l by exact H.
    assert (E : (Qmin (inject_Z a) (inject_Z b) == inject_Z a)%Q)
      by (apply Q.min_l; now rewrite <- Zle_Qle).
    rewrite E. apply Qfloor_Z.
  - rewrite Z.min_r by exact H.
    assert (E : (Qmin (inject_Z a) (inject_Z b) == inject_Z b)%Q)
      by (apply Q.min_r; now rewrite <- Zle_Qle).
    rewrite E. apply Qfloor_Z.
Qed.

Lemma Qfloor_Qmax_Z (a b : Z) :
  Qfloor (Qmax (inject_Z a) (inject_Z b)) = Z.max a b.
Proof.
  destruct (Z.le_ge_cases a b) as [H|H].
  - rewrite Z.max_r by exact H.
    assert (E : (Qmax (inject_Z a) (inject_Z b) == inject_Z b)%Q)
      by (apply Q.max_r; now rewrite <- Zle_Qle).
    rewrite E. apply Qfloor_Z.
  - rewrite Z.max_l by exact H.
    assert (E : (Qmax (inject_Z a) (inject_Z b) == inject_Z a)%Q)
      by (apply Q.max_l; now rewrite <- Zle_Qle).
    rewrite E. apply Qfloor_Z.
Qed.

(** [L.bounds] orders its corners. *)
Lemma bounds_ordered (a b : L.Point) :
  (L.x (L.min (L.bounds a b)) <= L.x (L.max (L.bounds a b)))%Q /\
  (L.y (L.min (L.bounds a b)) <= L.y (L.max (L.bounds a b)))%Q.
Proof.
  simpl. split.
  - eapply Qle_trans; [apply Q.le_min_l | apply Q.le_max_l].
  - eapply Qle_trans; [apply Q.le_min_l | apply Q.le_max_l].
Qed.

Lemma tileIndices_In (pb : L.Bounds) (t : TileIndex) :
  (L.x (L.min pb) <= L.x (L.max pb))%Q ->
  (L.y (L.min pb) <= L.y (L.max pb))%Q ->
  In t (tileIndices pb) <->
  loX pb <= tx t <= hiX pb /\ loY pb <= ty t <= hiY pb.
Proof.
  intros Hx Hy. unfold tileIndices, tileRange. cbn [L.bounds L.min L.max L.x L.y L.floor L.divideBy].
  rewrite !Qfloor_Qmin_Z, !Qfloor_Qmax_Z.
  pose proof (floor_div_mono _ _ Hx) as Mx.
  pose proof (floor_div_mono _ _ Hy) as My.
  fold (loX pb) (hiX pb) (loY pb) (hiY pb) in *.
  rewrite in_flat_map. split.
  - intros [i [Hi Ht]]. apply in_map_iff in Ht. destruct Ht as [j [<- Hj]].
    apply forRange_In in Hi, Hj. simpl. lia.
  - intros [H1 H2]. exists (tx t). split.
    + apply forRange_In. lia.
    + apply in_map_iff. exists (ty t). split; [now destruct t|].
      apply forRange_In. lia.
Qed.

Lemma tileIndices_NoDup (pb : L.Bounds) : NoDup (tileIndices pb).
Proof.
  unfold tileIndices.
  generalize (Qfloor (L.y (L.min (tileRange pb)))) (Qfloor (L.y (L.max (tileRange pb)))).
  intros ly hy.
  generalize (forRange_NoDup (Qfloor (L.x (L.min (tileRange pb))))
                (Qfloor (L.x (L.max (tileRange pb))))).
  generalize (forRange (Qfloor (L.x (L.min (tileRange pb))))
                (Qfloor (L.x (L.max (tileRange pb))))).
  intros xs. induction 1 as [|i xs Hi Hnd IH]; simpl.
  - constructor.
  - apply NoDup_app.
    + apply Finite.Injective_map_NoDup; [|apply forRange_NoDup].
      intros a b E. now inversion E.
    + exact IH.
    + intros t Ht Ht'. apply in_map_iff in Ht. destruct Ht as [j [<- _]].
      apply in_flat_map in Ht'. destruct Ht' as [i' [Hi' Hj']].
      apply in_map_iff in Hj'. destruct Hj' as [j' [E _]].
      inversion E. subst. contradiction.
Qed.

(** ** Running the monad *)

Section MonadFacts.

Context {S E : Type}.

Lemma run_bind_ok {A B} (m : M S E A) (f : A -> M S E B) s s1 l1 a :
  m s = (s1, l1, inl a) -> bind m f s = prepend l1 (f a s1).
Proof. intros H. unfold bind, prepend. now rewrite H. Qed.

Lemma run_modify {A} (f : S -> S) (k : unit -> M S E A) s :
  bind (modify f) k s = k tt (f s).
Proof. unfold bind, modify. now destruct (k tt (f s)) as [[s2 l2] r]. Qed.

Lemma prepend_prepend {A} (l1 l2 : list E) (r : S * list E * (A + string)) :
  prepend l1 (prepend l2 r) = prepend (l1 ++ l2) r.
Proof. destruct r as [[s l] x]. simpl. now rewrite app_assoc. Qed.

Lemma run_bind_throw {A B} (m : M S E A) (f : A -> M S E B) s s1 l1 e :
  m s = (s1, l1, inr e) -> bind m f s = (s1, l1, inr e).
Proof. intros H. unfold bind. now rewrite H. Qed.

Lemma emitsOnly_ret {A} (P : E -> Prop) (a : A) :
  emitsOnly (S := S) P (ret a).
Proof. intros s. constructor. Qed.

Lemma emitsOnly_throw {A} (P : E -> Prop) (e : string) :
  emitsOnly (S := S) (A := A) P (throw e).
Proof. intros s. constructor. Qed.

Lemma emitsOnly_modify (P : E -> Prop) (f : S -> S) :
  emitsOnly P (modify f).
Proof. intros s. constructor. Qed.

Lemma emitsOnly_emit (P : E -> Prop) (e : E) :
  P e -> emitsOnly (S := S) P (emit e).
Proof. intros H s. simpl. now repeat constructor. Qed.

Lemma emitsOnly_bind {A B} (P : E -> Prop) (m : M S E A) (f : A -> M S E B) :
  emitsOnly P m -> (forall a, emitsOnly P (f a)) -> emitsOnly P (bind m f).
Proof.
  intros Hm Hf s. unfold bind. specialize (Hm s).
  destruct (m s) as [[s1 l1] [a|e]]; simpl in *; [|exact Hm].
  specialize (Hf a s1). destruct (f a s1) as [[s2 l2] r]; simpl in *.
  apply Forall_app. now split.
Qed.

Lemma emitsOnly_catch {A} (P : E -> Prop) (m : M S E A) h :
  emitsOnly P m -> (forall e, emitsOnly P (h e)) -> emitsOnly P (catch m h).
Proof.
  intros Hm Hh s. unfold catch. specialize (Hm s).
  destruct (m s) as [[s1 l1] [a|e]]; simpl in *; [exact Hm|].
  specialize (Hh e s1). destruct (h e s1) as [[s2 l2] r]; simpl in *.
  apply Forall_app. now split.
Qed.

Lemma emitsOnly_promiseAll {A} (P : E -> Prop) (ps : list (A + string)) :
  emitsOnly (S := S) P (promiseAll ps).
Proof.
  induction ps as [|[a|e] ps IH]; simpl.
  - apply emitsOnly_ret.
  - apply emitsOnly_bind; [exact IH | intros; apply emitsOnly_ret].
  - apply emitsOnly_throw.
Qed.

(** [Promise.all] has no effect of its own and does not touch the
    state; it delivers all values, or throws the error of a promise of
    the list. *)
Lemma promiseAll_run {A} (ps : list (A + string)) (s : S) :
  (exists vs, promiseAll (E := E) ps s = (s, [], inl vs) /\ ps = map inl vs) \/
  (exists e, promiseAll (E := E) ps s = (s, [], inr e) /\ In (inr e) ps).
Proof.
  induction ps as [|[a|e] ps IH]; simpl.
  - left. now exists [].
  - destruct IH as [[vs [H E0]]|[e [H Hin]]].
    + left. exists (a :: vs). split; [|now rewrite E0].
      rewrite (run_bind_ok _ _ _ _ _ _ H). reflexivity.
    + right. exists e. split; [|now right].
      now rewrite (run_bind_throw _ _ _ _ _ _ H).
  - right. exists e. split; [reflexivity | now left].
Qed.

Lemma keepsState_ret {A} (a : A) : keepsState (S := S) (E := E) (ret a).
Proof. intros s. reflexivity. Qed.

Lemma keepsState_throw {A} (e : string) :
  keepsState (S := S) (E := E) (A := A) (throw e).
Proof. intros s. reflexivity. Qed.

Lemma keepsState_emit (e : E) : keepsState (S := S) (emit e).
Proof. intros s. reflexivity. Qed.

Lemma keepsState_bind {A B} (m : M S E A) (f : A -> M S E B) :
  keepsState m -> (forall a, keepsState (f a)) -> keepsState (bind m f).
Proof.
  intros Hm Hf s. unfold bind. specialize (Hm s).
  destruct (m s) as [[s1 l1] [a|e]]; simpl in *; [|exact Hm].
  specialize (Hf a s1). destruct (f a s1) as [[s2 l2] r]; simpl in *.
  congruence.
Qed.

Lemma keepsState_promiseAll {A} (ps : list (A + string)) :
  keepsState (S := S) (E := E) (promiseAll ps).
Proof.
  induction ps as [|[a|e] ps IH]; simpl.
  - apply keepsState_ret.
  - apply keepsState_bind; [exact IH | intros; apply keepsState_ret].
  - apply keepsState_throw.
Qed.

End MonadFacts.

Create HintDb effects.

#[export] Hint Resolve emitsOnly_ret emitsOnly_throw emitsOnly_modify
  emitsOnly_promiseAll keepsState_ret keepsState_throw keepsState_emit
  keepsState_promiseAll : effects.

(** Goals about the effects of a computation are taken apart along its
    structure; [leaf] settles what is asked of one effect. *)
Ltac effects_step leaf :=
  match goal with
  | |- emitsOnly _ (bind _ _) => apply emitsOnly_bind; [|intros]
  | |- keepsState (bind _ _) => apply keepsState_bind; [|intros]
  | |- emitsOnly _ (emit _) => apply emitsOnly_emit; leaf
  | |- emitsOnly _ (ret _) => apply emitsOnly_ret
  | |- emitsOnly _ (throw _) => apply emitsOnly_throw
  | |- emitsOnly _ (promiseAll _) => apply emitsOnly_promiseAll
  | |- keepsState (emit _) => apply keepsState_emit
  | |- keepsState (ret _) => apply keepsState_ret
  | |- keepsState (throw _) => apply keepsState_throw
  | |- keepsState (promiseAll _) => apply keepsState_promiseAll
  | |- emitsOnly _ (if ?c then _ else _) => destruct c
  | |- keepsState (if ?c then _ else _) => destruct c
  | |- emitsOnly _ (match ?x with _ => _ end) => destruct x eqn:?
  | |- keepsState (match ?x with _ => _ end) => destruct x
  | |- _ => solve [auto with effects]
  end.

Ltac effects_with leaf := cbv zeta; repeat effects_step leaf.

Ltac effects := effects_with ltac:(reflexivity).

(** ** Runs of the capture *)

Section CaptureFacts.

Import MapSection.
Local Open Scope string_scope.
Local Open Scope list_scope.

Variable br : Browser.

Lemma run_emit {A} (e : Event) (k : unit -> M State Event A) s :
  bind (emit e) k s = prepend [e] (k tt s).
Proof. apply (run_bind_ok (emit e) k s s [e] tt). reflexivity. Qed.

Lemma requestTiles_run zoom ts s :
  requestTiles br zoom ts s
  = (s, requestEvents zoom ts, inl (List.map (settled br zoom) ts)).
Proof.
  induction ts as [|t ts IH]; [reflexivity|].
  simpl. unfold requestTile.
  erewrite run_bind_ok by (rewrite run_emit; reflexivity).
  erewrite run_bind_ok by exact IH.
  cbv [ret prepend]. now rewrite !app_nil_r.
Qed.

Lemma drawTiles_run pb tiles c s :
  drawTiles br pb tiles c s
  = (s, List.map (drawEvent pb) tiles, inl (stitch br pb tiles c)).
Proof.
  revert c. induction tiles as [|t tiles IH]; intros c; [reflexivity|].
  simpl. rewrite run_emit, IH. reflexivity.
Qed.

Variables (map : L.Map) (ab : L.LatLngBounds).

Let zoom := L.mapZoom map.
Let pixelBounds := pixelBoundsOf map ab.
Let finalSize := L.mapSize map.

(** Step 1 stops a capture of a region without area. *)
Lemma capture_zero_area s :
  hasArea map ab = false ->
  capture br map ab s
  = (s, [FitBounds ab; Wait 500], inr "Analysis bounds have zero area.").
Proof.
  unfold hasArea. intros H. apply negb_false_iff in H.
  unfold capture. rewrite !run_emit. cbv beta zeta. rewrite H. reflexivity.
Qed.

(** The run of a capture from step 2 on, for a region with area. *)
Lemma capture_with_area s :
  hasArea map ab = true ->
  capture br map ab s
  = prepend [FitBounds ab; Wait 500;
             CreateCanvas (width (stitchCanvasOf map ab))
                          (height (stitchCanvasOf map ab))]
      ((if negb (stitchContext br)
        then throw "Could not get canvas context"
        else
          bind (requestTiles br zoom (tileIndices pixelBounds))
            (fun tilePromises =>
               bind (promiseAll tilePromises)
                 (fun tiles =>
                    bind (drawTiles br pixelBounds tiles (stitchCanvasOf map ab))
                      (fun stitched =>
                         bind (emit (CreateCanvas (width (finalCanvasOf map))
                                       (height (finalCanvasOf map))))
                           (fun _ =>
                              if negb (finalContext br)
                              then throw "Could not get final canvas context"
                              else
                                bind (emit (ScaleOnto (L.x finalSize)
                                              (L.y finalSize)))
                                  (fun _ =>
                                     match drawImageScaled br stitched
                                             (L.x finalSize) (L.y finalSize)
                                             (finalCanvasOf map) with
                                     | inr e => throw e
                                     | inl scaled =>
                                         match toBlob br scaled "image/png" with
                                         | Some blob =>
                                             emit (OnAnalyzeFromMap
                                                     (mkFile blob "map-view.png"
                                                        "image/png"))
                                         | None =>
                                             throw
                                               "Canvas to Blob conversion failed."
                                         end
                                     end)))))) s).
Proof.
  unfold hasArea. intros H. apply negb_true_iff in H.
  unfold capture. rewrite !run_emit. cbv beta zeta. rewrite H.
  rewrite run_emit, !prepend_prepend. reflexivity.
Qed.

Lemma capture_no_context s :
  hasArea map ab = true -> stitchContext br = false ->
  capture br map ab s
  = (s, [FitBounds ab; Wait 500;
         CreateCanvas (width (stitchCanvasOf map ab))
                      (height (stitchCanvasOf map ab))],
     inr "Could not get canvas context").
Proof.
  intros H C. rewrite (capture_with_area s H), C. reflexivity.
Qed.

(** A failed tile stops the capture right after the requests. *)
Lemma capture_tile_failure s t :
  hasArea map ab = true -> stitchContext br = true ->
  In t (tileIndices pixelBounds) ->
  loadImage br (tileUrl zoom t) = None ->
  exists t', In t' (tileIndices pixelBounds) /\
             loadImage br (tileUrl zoom t') = None /\
             capture br map ab s
             = (s, uptoRequests map ab,
                inr ("Failed to load tile: " ++ tileUrl zoom t')%string).
Proof.
  intros H C Ht Hl.
  destruct (promiseAll_run (E := Event)
              (List.map (settled br zoom) (tileIndices pixelBounds)) s)
    as [[vs [_ E0]]|[e [R Hin]]].
  - exfalso. assert (Hs : In (settled br zoom t) (List.map inl vs))
      by (rewrite <- E0; now apply in_map).
    unfold settled in Hs. rewrite Hl in Hs.
    apply in_map_iff in Hs. destruct Hs as [v [Hv _]]. discriminate.
  - apply in_map_iff in Hin. destruct Hin as [t' [Ht' Hin']].
    unfold settled in Ht'.
    destruct (loadImage br (tileUrl zoom t')) eqn:L'; [discriminate|].
    injection Ht' as <-.
    exists t'. split; [exact Hin'|]. split; [exact L'|].
    rewrite (capture_with_area s H), C. cbv [negb].
    erewrite run_bind_ok by apply requestTiles_run.
    erewrite run_bind_throw by exact R.
    unfold uptoRequests, prepend. fold zoom pixelBounds.
    now rewrite app_nil_r.
Qed.

(** The run up to the making of the final canvas, when every tile
    loads. *)
Lemma capture_tiles_loaded s :
  hasArea map ab = true -> stitchContext br = true ->
  allLoad br map ab ->
  exists tiles,
    List.map inl tiles = List.map (settled br zoom) (tileIndices pixelBounds) /\
    capture br map ab s
    = prepend (uptoRequests map ab ++ List.map (drawEvent pixelBounds) tiles
               ++ [CreateCanvas (width (finalCanvasOf map))
                                (height (finalCanvasOf map))])
        ((if negb (finalContext br)
          then throw "Could not get final canvas context"
          else
            bind (emit (ScaleOnto (L.x finalSize) (L.y finalSize)))
              (fun _ =>
                 match drawImageScaled br
                         (stitch br pixelBounds tiles (stitchCanvasOf map ab))
                         (L.x finalSize) (L.y finalSize)
                         (finalCanvasOf map) with
                 | inr e => throw e
                 | inl scaled =>
                     match toBlob br scaled "image/png" with
                     | Some blob =>
                         emit (OnAnalyzeFromMap
                                 (mkFile blob "map-view.png" "image/png"))
                     | None => throw "Canvas to Blob conversion failed."
                     end
                 end)) s).
Proof.
  intros H C Hall.
  destruct (promiseAll_run (E := Event)
              (List.map (settled br zoom) (tileIndices pixelBounds)) s)
    as [[vs [R E0]]|[e [_ Hin]]].
  - exists vs. split; [now rewrite E0|].
    rewrite (capture_with_area s H), C. cbv [negb].
    erewrite run_bind_ok by apply requestTiles_run.
    erewrite run_bind_ok by exact R.
    erewrite run_bind_ok by apply drawTiles_run.
    rewrite run_emit, !prepend_prepend.
    unfold uptoRequests. fold zoom pixelBounds.
    now rewrite app_nil_r, <- !app_assoc.
  - exfalso. apply in_map_iff in Hin. destruct Hin as [t [Ht Hin]].
    unfold settled in Ht. specialize (Hall t Hin). fold zoom in Hall.
    destruct (loadImage br (tileUrl zoom t)); [discriminate | now apply Hall].
Qed.

Lemma capture_no_final_context s :
  hasArea map ab = true -> stitchContext br = true ->
  allLoad br map ab -> finalContext br = false ->
  exists tiles,
    List.map inl tiles = List.map (settled br zoom) (tileIndices pixelBounds) /\
    capture br map ab s
    = (s, uptoRequests map ab ++ List.map (drawEvent pixelBounds) tiles
          ++ [CreateCanvas (width (finalCanvasOf map))
                           (height (finalCanvasOf map))],
       inr "Could not get final canvas context").
Proof.
  intros H C Hall F.
  destruct (capture_tiles_loaded s H C Hall) as [tiles [E R]].
  exists tiles. split; [exact E|]. rewrite R, F. cbv [negb throw prepend].
  now rewrite app_nil_r.
Qed.

(** When every tile loads and both contexts exist, the capture draws
    the tiles, scales the stitched canvas and encodes the result. *)
Lemma capture_reaches_scaling s :
  hasArea map ab = true -> stitchContext br = true ->
  allLoad br map ab -> finalContext br = true ->
  exists tiles,
    List.map inl tiles = List.map (settled br zoom) (tileIndices pixelBounds) /\
    let stitched := stitch br pixelBounds tiles (stitchCanvasOf map ab) in
    let upto :=
      uptoRequests map ab ++ List.map (drawEvent pixelBounds) tiles
      ++ [CreateCanvas (width (finalCanvasOf map))
                       (height (finalCanvasOf map));
          ScaleOnto (L.x finalSize) (L.y finalSize)] in
    capture br map ab s
    = match drawImageScaled br stitched (L.x finalSize) (L.y finalSize)
              (finalCanvasOf map) with
      | inl scaled =>
          (s, upto ++ encodeEvents br scaled, encodeExit br scaled)
      | inr e => (s, upto, inr e)
      end.
Proof.
  intros H C Hall F.
  destruct (capture_tiles_loaded s H C Hall) as [tiles [E R]].
  exists tiles. split; [exact E|]. cbv zeta. rewrite R, F. cbv [negb].
  rewrite run_emit, prepend_prepend.
  unfold encodeEvents, encodeExit.
  destruct (drawImageScaled br _ _ _ _) as [scaled|err].
  - destruct (toBlob br scaled "image/png") as [blob|];
      cbv [throw emit prepend];
      rewrite ?app_nil_r, <- ?app_assoc; reflexivity.
  - cbv [throw prepend]. rewrite ?app_nil_r, <- ?app_assoc. reflexivity.
Qed.

Lemma requestTiles_quiet ts : emitsOnly quietEvent (requestTiles br zoom ts).
Proof. induction ts; simpl; unfold requestTile; effects. Qed.

Lemma drawTiles_quiet pb tiles c :
  emitsOnly quietEvent (drawTiles br pb tiles c).
Proof. revert c. induction tiles; intros c; simpl; effects. Qed.

Lemma requestTiles_keepsState ts : keepsState (requestTiles br zoom ts).
Proof. induction ts; simpl; unfold requestTile; effects. Qed.

Lemma drawTiles_keepsState pb tiles c :
  keepsState (drawTiles br pb tiles c).
Proof. revert c. induction tiles; intros c; simpl; effects. Qed.

#[local] Hint Resolve requestTiles_quiet drawTiles_quiet
  requestTiles_keepsState drawTiles_keepsState : effects.

(** The [try] block never writes the flag, and never touches the state. *)
Lemma capture_quiet : emitsOnly quietEvent (capture br map ab).
Proof. unfold capture. effects. Qed.

Lemma capture_keepsState : keepsState (capture br map ab).
Proof. unfold capture. effects. Qed.

Lemma loadedTiles_unique ts tiles :
  List.map inl tiles = List.map (settled br zoom) ts ->
  tiles = loadedTiles br zoom ts.
Proof.
  revert tiles. induction ts as [|t ts IH]; intros [|v tiles] E;
    try discriminate; [reflexivity|].
  simpl in E. injection E as E1 E2. unfold loadedTiles. simpl.
  rewrite <- E1. simpl. f_equal. now apply IH.
Qed.

Lemma loadedTiles_index ts :
  List.map (fun v => tileIndex (x v) (y v)) (loadedTiles br zoom ts)
  = filter (fun t => match settled br zoom t with
                     | inl _ => true | inr _ => false end) ts.
Proof.
  induction ts as [|[a b] ts IH]; [reflexivity|].
  unfold loadedTiles in *. simpl. unfold settled at 1 3. simpl.
  destruct (loadImage br _); simpl; now rewrite IH.
Qed.

(** The tiles of one capture have pairwise different indices. *)
Lemma loadedTiles_distinct :
  NoDup (List.map (fun v => tileIndex (x v) (y v))
           (loadedTiles br zoom (tileIndices pixelBounds))).
Proof.
  rewrite loadedTiles_index. apply NoDup_filter, tileIndices_NoDup.
Qed.

(** The run of a capture in which every image loads and both contexts
    exist. *)
Lemma capture_run_loaded s :
  hasArea map ab = true -> stitchContext br = true ->
  allLoad br map ab -> finalContext br = true ->
  let tiles := loadedTiles br zoom (tileIndices pixelBounds) in
  let upto :=
    uptoRequests map ab ++ List.map (drawEvent pixelBounds) tiles
    ++ [CreateCanvas (width (finalCanvasOf map))
                     (height (finalCanvasOf map));
        ScaleOnto (L.x finalSize) (L.y finalSize)] in
  capture br map ab s
  = match scaledOf br map ab with
    | inl scaled => (s, upto ++ encodeEvents br scaled, encodeExit br scaled)
    | inr e => (s, upto, inr e)
    end.
Proof.
  intros H C Hall F.
  destruct (capture_reaches_scaling s H C Hall F) as [tiles [E R]].
  apply loadedTiles_unique in E. subst tiles. exact R.
Qed.

(** Every file that a capture hands on is well formed. *)
Lemma requestTiles_dispatchOk ts :
  emitsOnly (dispatchOk br) (requestTiles br zoom ts).
Proof.
  induction ts; simpl; unfold requestTile; effects_with ltac:(exact I).
Qed.

Lemma drawTiles_dispatchOk pb tiles c :
  emitsOnly (dispatchOk br) (drawTiles br pb tiles c).
Proof.
  revert c. induction tiles; intros c; simpl; effects_with ltac:(exact I).
Qed.

#[local] Hint Resolve requestTiles_dispatchOk drawTiles_dispatchOk : effects.

(** Every file that a capture hands on is well formed. *)
Lemma capture_dispatchOk : emitsOnly (dispatchOk br) (capture br map ab).
Proof.
  unfold capture.
  effects_with ltac:(first [exact I | simpl; eauto]).
Qed.

(** The handler around the [try] block: the flag is written before
    and after it, whatever its exit. *)
Lemma handle_run s :
  mapInstance s = Some map -> analysisBounds s = Some ab ->
  let run := capture br map ab (loadingState s) in
  handleAnalyzeMapView br s
  = (settledState s (errorAfter (snd run)),
     SetIsMapViewLoading true
       :: snd (fst run) ++ catchEvents (snd run)
          ++ [SetIsMapViewLoading false],
     inl tt).
Proof.
  intros Hm Hb run. unfold handleAnalyzeMapView. rewrite Hm, Hb.
  pose proof (capture_keepsState (loadingState s)) as K.
  subst run. unfold loadingState in *.
  unfold setIsMapViewLoading, setMapViewError, tryCatchFinally, finally,
    catch, bind, modify, emit.
  cbn [fst snd app].
  destruct (capture br map ab _) as [[s2 l] [[]|e]];
    cbn [fst snd] in *; subst s2;
    cbn [mapInstance radius analysisBounds insights
           isInsightsLoading insightsError selectedTopics customTopic
           isMapViewLoading mapViewError catchEvents errorAfter app];
    unfold settledState; rewrite ?app_nil_r, <- ?app_assoc; reflexivity.
Qed.

End CaptureFacts.

(** ** The capture pipeline: claims *)

Section CaptureClaims.

Import MapSection.
Local Open Scope string_scope.
Local Open Scope list_scope.

Lemma filter_none {A} (p : A -> bool) (l : list A) :
  Forall (fun a => p a = false) l -> filter p l = [].
Proof.
  induction 1 as [|a l Ha _ IH]; [reflexivity|]. simpl. now rewrite Ha.
Qed.

Lemma requestEvents_only_requests zoom ts :
  filter isRequest (requestEvents zoom ts) = requestEvents zoom ts.
Proof. induction ts; simpl; congruence. Qed.

Lemma requestEvents_no_draw zoom ts :
  filter isDraw (requestEvents zoom ts) = [].
Proof. induction ts; simpl; congruence. Qed.

Lemma requestEvents_no_dispatch zoom ts :
  filter isDispatch (requestEvents zoom ts) = [].
Proof. induction ts; simpl; congruence. Qed.

Lemma requestEvents_no_canvas zoom ts :
  filter isCanvas (requestEvents zoom ts) = [].
Proof. induction ts; simpl; congruence. Qed.

Lemma drawEvents_no_request pb tiles :
  filter isRequest (List.map (drawEvent pb) tiles) = [].
Proof. induction tiles; simpl; congruence. Qed.

Lemma drawEvents_no_canvas pb tiles :
  filter isCanvas (List.map (drawEvent pb) tiles) = [].
Proof. induction tiles; simpl; congruence. Qed.

Lemma drawEvents_no_dispatch pb tiles :
  filter isDispatch (List.map (drawEvent pb) tiles) = [].
Proof. induction tiles; simpl; congruence. Qed.

(** Whether every tile loads or not, a capture that has a region with
    area and a context for the stitch canvas issues one request per
    index of the tile range, in the order of the loops, and no other
    request; a capture that lacks one of the two issues none. *)
Lemma capture_requests (br : Browser) (map : L.Map) (ab : L.LatLngBounds)
  (s : State) :
  filter isRequest (traceOf (capture br map ab s))
  = if hasArea map ab && stitchContext br
    then requestEvents (L.mapZoom map) (tileIndices (pixelBoundsOf map ab))
    else [].
Proof.
  destruct (hasArea map ab) eqn:Ha; cbn [andb];
    [|now rewrite (capture_zero_area br map ab s Ha)].
  destruct (stitchContext br) eqn:Hc;
    [|now rewrite (capture_no_context br map ab s Ha Hc)].
  set (zoom := L.mapZoom map). set (pb := pixelBoundsOf map ab).
  assert (U : filter isRequest (uptoRequests map ab)
              = requestEvents zoom (tileIndices pb)).
  { unfold uptoRequests. rewrite filter_app, requestEvents_only_requests.
    reflexivity. }
  destruct (promiseAll_run (E := Event)
              (List.map (settled br zoom) (tileIndices pb)) s)
    as [[vs [_ E0]]|[e [_ Hin]]].
  - assert (Hall : allLoad br map ab).
    { intros t Ht L0.
      assert (Hs : In (settled br zoom t) (List.map inl vs))
        by (rewrite <- E0; now apply in_map).
      unfold settled in Hs. fold zoom in L0. rewrite L0 in Hs.
      apply in_map_iff in Hs. destruct Hs as [v [Hv _]]. discriminate. }
    destruct (capture_tiles_loaded br map ab s Ha Hc Hall) as [tiles [_ R]].
    rewrite R. unfold traceOf, prepend.
    destruct (finalContext br); cbn [negb].
    + rewrite run_emit. unfold prepend.
      destruct (drawImageScaled br _ _ _ _) as [scaled|err];
        [destruct (toBlob br scaled "image/png")|];
        cbn [fst snd throw emit]; rewrite !filter_app, U;
        rewrite drawEvents_no_request; cbn [filter isRequest app];
        now rewrite ?app_nil_r.
    + cbn [fst snd throw]. rewrite !filter_app, U.
      rewrite drawEvents_no_request. cbn [filter isRequest app].
      now rewrite ?app_nil_r.
  - apply in_map_iff in Hin. destruct Hin as [t [Ht Hin]].
    assert (L0 : loadImage br (tileUrl zoom t) = None).
    { unfold settled in Ht.
      destruct (loadImage br (tileUrl zoom t)); [discriminate | reflexivity]. }
    destruct (capture_tile_failure br map ab s t Ha Hc Hin L0)
      as [t' [_ [_ R]]].
    rewrite R. unfold traceOf. cbn [fst snd]. exact U.
Qed.



(** C9: a capture sets the "capture in progress" flag before anything
    else and clears it as its last effect, on every exit of the
    pipeline; the flag is not written in between, so that it is set
    while every other effect of the capture happens, and the handler
    never returns with the flag set.  An invocation without a map or
    without analysis bounds does nothing at all. *)
Theorem C9_flag_released (br : Browser) (s : State) :
  let run := handleAnalyzeMapView br s in
  match mapInstance s, analysisBounds s with
  | Some map, Some ab =>
      exists during,
        traceOf run
        = SetIsMapViewLoading true :: during ++ [SetIsMapViewLoading false]
        /\ Forall quietEvent during
        /\ during = traceOf (capture br map ab (loadingState s))
                    ++ catchEvents (snd (capture br map ab (loadingState s)))
        /\ isMapViewLoading (loadingState s) = true
        /\ isMapViewLoading (stateOf run) = false
        /\ snd run = inl tt
  | _, _ => run = (s, [], inl tt)
  end.
Proof.
  intros run. subst run.
  destruct (mapInstance s) as [map|] eqn:Hm;
    [destruct (analysisBounds s) as [ab|] eqn:Hb|].
  - rewrite (handle_run br map ab s Hm Hb). cbv zeta.
    exists (traceOf (capture br map ab (loadingState s))
            ++ catchEvents (snd (capture br map ab (loadingState s)))).
    unfold traceOf, stateOf. cbn [fst snd].
    split; [now rewrite <- app_assoc|].
    split; [|repeat split].
    apply Forall_app. split.
    + apply capture_quiet.
    + destruct (snd (capture br map ab (loadingState s))); simpl;
        now repeat constructor.
  - unfold handleAnalyzeMapView. now rewrite Hm, Hb.
  - unfold handleAnalyzeMapView. now rewrite Hm.
Qed.

(** C2: when the capture has reached the fetch stage and the image of
    at least one tile of the range fails to load, all requests have
    been issued, the capture stops with the load error of a failed
    tile, nothing is drawn on the stitch canvas, no further canvas is
    made, nothing is handed to the result dispatcher, and the user sees
    the capture error. *)
Theorem C2_all_or_nothing (br : Browser) (s : State) (map : L.Map)
  (ab : L.LatLngBounds) (t : TileIndex) :
  mapInstance s = Some map -> analysisBounds s = Some ab ->
  hasArea map ab = true -> stitchContext br = true ->
  In t (tileIndices (pixelBoundsOf map ab)) ->
  loadImage br (tileUrl (L.mapZoom map) t) = None ->
  let run := handleAnalyzeMapView br s in
  (exists t',
      In t' (tileIndices (pixelBoundsOf map ab)) /\
      loadImage br (tileUrl (L.mapZoom map) t') = None /\
      snd (capture br map ab (loadingState s))
      = inr ("Failed to load tile: " ++ tileUrl (L.mapZoom map) t')%string /\
      traceOf run
      = SetIsMapViewLoading true :: uptoRequests map ab
        ++ [ConsoleError ("Failed to analyze map view: Failed to load tile: "
                          ++ tileUrl (L.mapZoom map) t')%string;
            SetIsMapViewLoading false]) /\
  filter isRequest (traceOf run)
  = requestEvents (L.mapZoom map) (tileIndices (pixelBoundsOf map ab)) /\
  filter isDraw (traceOf run) = [] /\
  filter isCanvas (traceOf run)
  = [CreateCanvas (width (stitchCanvasOf map ab))
                  (height (stitchCanvasOf map ab))] /\
  filter isDispatch (traceOf run) = [] /\
  mapViewError (stateOf run) = Some captureFailedMessage.
Proof.
  intros Hm Hb Ha Hc Ht Hl run.
  destruct (capture_tile_failure br map ab (loadingState s) t Ha Hc Ht Hl)
    as [t' [Ht' [Hl' R]]].
  assert (T : traceOf run
              = SetIsMapViewLoading true :: uptoRequests map ab
                ++ [ConsoleError
                      ("Failed to analyze map view: Failed to load tile: "
                       ++ tileUrl (L.mapZoom map) t')%string;
                    SetIsMapViewLoading false]).
  { subst run. rewrite (handle_run br map ab s Hm Hb). cbv zeta.
    rewrite R. reflexivity. }
  split; [exists t'; rewrite R; auto|].
  rewrite T. unfold uptoRequests.
  cbn [filter isRequest isDraw isCanvas isDispatch app].
  rewrite !filter_app.
  rewrite requestEvents_only_requests, requestEvents_no_draw,
    requestEvents_no_canvas, requestEvents_no_dispatch.
  cbn [filter isRequest isDraw isCanvas isDispatch app].
  rewrite app_nil_r. repeat split.
  subst run. rewrite (handle_run br map ab s Hm Hb). cbv zeta.
  rewrite R. reflexivity.
Qed.

Lemma equal_corners_no_area (map : L.Map) (ab : L.LatLngBounds) :
  L.southWest ab = L.northEast ab -> hasArea map ab = false.
Proof.
  intros E. unfold hasArea, pixelBoundsOf, L.getNorthWest, L.getSouthEast.
  rewrite E. destruct (L.northEast ab) as [la lo]. cbn [L.lat L.lng].
  apply negb_false_iff, orb_true_iff. left. apply Qeq_bool_iff.
  cbn [L.getSize L.subtract L.bounds L.max L.min L.x].
  rewrite Q.max_id, Q.min_id. ring.
Qed.

Lemma zero_size_no_area (map : L.Map) (ab : L.LatLngBounds) :
  (L.x (L.getSize (pixelBoundsOf map ab)) == 0
   \/ L.y (L.getSize (pixelBoundsOf map ab)) == 0)%Q ->
  hasArea map ab = false.
Proof.
  intros H. unfold hasArea. apply negb_false_iff, orb_true_iff.
  destruct H as [H|H]; [left|right]; now apply Qeq_bool_iff.
Qed.

(** C3, as the code has it: when the projected width or height of the
    analysis bounds is exactly zero, and in particular when the two
    corners of the bounds are the same point, the capture stops with
    the zero-area error before the stitch canvas is made and before
    any tile is requested. *)
Theorem C3_zero_area_stops_before_fetch (br : Browser) (s : State)
  (map : L.Map) (ab : L.LatLngBounds) :
  mapInstance s = Some map -> analysisBounds s = Some ab ->
  (L.x (L.getSize (pixelBoundsOf map ab)) == 0)%Q
  \/ (L.y (L.getSize (pixelBoundsOf map ab)) == 0)%Q
  \/ L.southWest ab = L.northEast ab ->
  let run := handleAnalyzeMapView br s in
  snd (capture br map ab (loadingState s))
  = inr "Analysis bounds have zero area." /\
  traceOf run
  = [SetIsMapViewLoading true; FitBounds ab; Wait 500;
     ConsoleError
       "Failed to analyze map view: Analysis bounds have zero area.";
     SetIsMapViewLoading false] /\
  filter isRequest (traceOf run) = [] /\
  mapViewError (stateOf run) = Some captureFailedMessage.
Proof.
  intros Hm Hb H run.
  assert (Ha : hasArea map ab = false).
  { destruct H as [H|[H|H]].
    - apply zero_size_no_area. now left.
    - apply zero_size_no_area. now right.
    - now apply equal_corners_no_area. }
  pose proof (capture_zero_area br map ab (loadingState s) Ha) as R.
  subst run. rewrite (handle_run br map ab s Hm Hb). cbv zeta.
  rewrite R. repeat split.
Qed.

(** C3 as the spec states it fails: bounds a quarter of a pixel wide
    have a width that rounds to zero, and their capture requests three
    tiles. *)
Lemma C3_counterexample :
  let map := Sample.simpleMap 10 800 600 in
  let s := Sample.stateWith (Some map) 100 (Some Sample.sliver) in
  let run := handleAnalyzeMapView (Sample.browser Sample.allTilesLoad) s in
  round (L.x (L.getSize (pixelBoundsOf map Sample.sliver))) = 0%Z /\
  List.length (filter isRequest (traceOf run)) = 3%nat.
Proof. vm_compute. split; reflexivity. Qed.

Lemma C3_witness :
  let map := Sample.simpleMap 10 800 600 in
  let s := Sample.stateWith (Some map) 100 (Some Sample.onePoint) in
  filter isRequest
    (traceOf (handleAnalyzeMapView (Sample.browser Sample.allTilesLoad) s))
  = [].
Proof.
  intros map s.
  apply (C3_zero_area_stops_before_fetch
           (Sample.browser Sample.allTilesLoad) s map Sample.onePoint);
    [reflexivity | reflexivity | right; right; reflexivity].
Defined.

Lemma Qfloor_plus_Z (q : Q) (n : Z) :
  Qfloor (q + inject_Z n) = (Qfloor q + n)%Z.
Proof.
  symmetry. apply floor_unique. split.
  - rewrite inject_Z_plus. apply Qplus_le_l, Qfloor_le.
  - replace (Qfloor q + n + 1)%Z with ((Qfloor q + 1) + n)%Z by ring.
    rewrite inject_Z_plus. apply Qplus_lt_l, Qlt_floor.
Qed.

Lemma floor_of_span (lo hi : Q) :
  (hi - lo == 512)%Q ->
  Qfloor (hi / tileSize) = (Qfloor (lo / tileSize) + 2)%Z.
Proof.
  intros H. rewrite <- Qfloor_plus_Z.
  assert (E : (hi / tileSize == lo / tileSize + inject_Z 2)%Q).
  { unfold tileSize. setoid_replace hi with (lo + 512)%Q
      by (rewrite <- H; ring).
    field. }
  now rewrite E.
Qed.

Lemma forRange_three (lo : Z) :
  forRange lo (lo + 2) = [lo; (lo + 1)%Z; (lo + 2)%Z].
Proof.
  unfold forRange. replace (lo + 2 - lo + 1)%Z with 3%Z by ring.
  simpl. now rewrite Z.add_0_r.
Qed.

Lemma tileIndices_ordered (pb : L.Bounds) :
  (L.x (L.min pb) <= L.x (L.max pb))%Q ->
  (L.y (L.min pb) <= L.y (L.max pb))%Q ->
  tileIndices pb
  = flat_map (fun i => List.map (fun j => tileIndex i j)
                         (forRange (loY pb) (hiY pb)))
      (forRange (loX pb) (hiX pb)).
Proof.
  intros Hx Hy. unfold tileIndices, tileRange.
  cbn [L.bounds L.min L.max L.x L.y L.floor L.divideBy].
  rewrite !Qfloor_Qmin_Z, !Qfloor_Qmax_Z.
  pose proof (floor_div_mono _ _ Hx) as Mx.
  pose proof (floor_div_mono _ _ Hy) as My.
  fold (loX pb) (hiX pb) (loY pb) (hiY pb) in *.
  now rewrite !Z.min_r, !Z.max_l by lia.
Qed.

Lemma tileIndices_512 (a b : L.Point) :
  let pb := L.bounds a b in
  (L.x (L.getSize pb) == 512)%Q -> (L.y (L.getSize pb) == 512)%Q ->
  tileIndices pb = block3 (loX pb) (loY pb).
Proof.
  intros pb Hx Hy. destruct (bounds_ordered a b) as [Ox Oy].
  fold pb in Ox, Oy. rewrite (tileIndices_ordered pb Ox Oy).
  unfold hiX, hiY.
  rewrite (floor_of_span _ _ Hx), (floor_of_span _ _ Hy).
  fold (loX pb) (loY pb). now rewrite !forRange_three.
Qed.

Lemma toUnsignedLong_Z (n : Z) :
  (0 <= n < 2 ^ 32)%Z -> toUnsignedLong (inject_Z n) = n.
Proof.
  intros H. unfold toUnsignedLong. simpl. rewrite Z.quot_1_r.
  now apply Z.mod_small.
Qed.

Lemma toUnsignedLong_Qeq (q : Q) (n : Z) :
  (q == inject_Z n)%Q -> (0 <= n < 2 ^ 32)%Z -> toUnsignedLong q = n.
Proof.
  intros E H. unfold toUnsignedLong. unfold Qeq in E. simpl in E.
  rewrite Z.mul_1_r in E. rewrite E, Z.quot_mul by discriminate.
  now apply Z.mod_small.
Qed.

Lemma stitch_size (br : Browser) pb tiles c :
  width (stitch br pb tiles c) = width c /\
  height (stitch br pb tiles c) = height c.
Proof.
  revert c. induction tiles as [|t tiles IH]; intros c; [now split|].
  simpl. destruct (IH (drawTile br pb t c)) as [W H].
  now rewrite W, H.
Qed.

(** C6, as the code has it: pixel bounds of 512 by 512 pixels span
    three tiles of 256 pixels in each axis, since the index range
    includes both ends; nine tiles are requested, the stitch canvas
    measures 512 by 512 and the canvas that is encoded measures the
    size of the viewport. *)
Theorem C6_capture_of_512_square (br : Browser) (s : State) (map : L.Map)
  (ab : L.LatLngBounds) (w h : Z) :
  mapInstance s = Some map -> analysisBounds s = Some ab ->
  (L.x (L.getSize (pixelBoundsOf map ab)) == 512)%Q ->
  (L.y (L.getSize (pixelBoundsOf map ab)) == 512)%Q ->
  L.mapSize map = L.point (inject_Z w) (inject_Z h) ->
  (0 <= w < 2 ^ 32)%Z -> (0 <= h < 2 ^ 32)%Z ->
  stitchContext br = true -> finalContext br = true ->
  allLoad br map ab ->
  let run := handleAnalyzeMapView br s in
  let pb := pixelBoundsOf map ab in
  tileIndices pb = block3 (loX pb) (loY pb) /\
  filter isRequest (traceOf run)
  = requestEvents (L.mapZoom map) (block3 (loX pb) (loY pb)) /\
  List.length (filter isRequest (traceOf run)) = 9%nat /\
  filter isCanvas (traceOf run) = [CreateCanvas 512 512; CreateCanvas w h] /\
  In (ScaleOnto (inject_Z w) (inject_Z h)) (traceOf run) /\
  exists scaled,
    scaledOf br map ab = inl scaled /\
    width scaled = w /\ height scaled = h /\
    filter isDispatch (traceOf run) = encodeEvents br scaled.
Proof.
  intros Hm Hb Hx Hy Hs Hw Hh Hc Hf Hall run pb.
  assert (Ha : hasArea map ab = true).
  { unfold hasArea. apply negb_true_iff, orb_false_iff.
    split; apply not_true_iff_false; intros E; apply Qeq_bool_iff in E.
    - rewrite E in Hx. discriminate.
    - rewrite E in Hy. discriminate. }
  assert (Ht : tileIndices pb = block3 (loX pb) (loY pb))
    by (now apply tileIndices_512).
  assert (Sw : width (stitchCanvasOf map ab) = 512%Z)
    by (apply (toUnsignedLong_Qeq _ 512); [exact Hx | lia]).
  assert (Sh : height (stitchCanvasOf map ab) = 512%Z)
    by (apply (toUnsignedLong_Qeq _ 512); [exact Hy | lia]).
  assert (Fw : width (finalCanvasOf map) = w)
    by (unfold finalCanvasOf; rewrite Hs; now apply toUnsignedLong_Z).
  assert (Fh : height (finalCanvasOf map) = h)
    by (unfold finalCanvasOf; rewrite Hs; now apply toUnsignedLong_Z).
  assert (Tw : width (stitchedOf br map ab) = 512%Z)
    by (unfold stitchedOf; now rewrite (proj1 (stitch_size _ _ _ _))).
  assert (Th : height (stitchedOf br map ab) = 512%Z)
    by (unfold stitchedOf; now rewrite (proj2 (stitch_size _ _ _ _))).
  pose proof (capture_run_loaded br map ab (loadingState s) Ha Hc Hall Hf)
    as R. cbv zeta in R.
  unfold scaledOf, drawImageScaled in *. rewrite Tw, Th in *.
  cbn [Z.eqb orb] in *.
  set (scaled := mkCanvas _ _ _) in *.
  set (tail := encodeEvents br scaled ++ catchEvents (encodeExit br scaled)
               ++ [SetIsMapViewLoading false]).
  assert (T : traceOf run
              = SetIsMapViewLoading true
                :: (uptoRequests map ab
                    ++ List.map (drawEvent pb)
                         (loadedTiles br (L.mapZoom map) (tileIndices pb))
                    ++ [CreateCanvas w h;
                        ScaleOnto (inject_Z w) (inject_Z h)])
                ++ tail).
  { subst run tail. rewrite (handle_run br map ab s Hm Hb). cbv zeta.
    rewrite R. unfold traceOf. cbn [fst snd].
    rewrite Fw, Fh, Hs. cbn [L.x L.y]. fold pb.
    now rewrite <- !app_assoc. }
  assert (Q1 : filter isRequest tail = [])
    by (unfold tail, encodeEvents, encodeExit;
        destruct (toBlob br scaled "image/png"); reflexivity).
  assert (Q2 : filter isCanvas tail = [])
    by (unfold tail, encodeEvents, encodeExit;
        destruct (toBlob br scaled "image/png"); reflexivity).
  assert (Q3 : filter isDispatch tail = encodeEvents br scaled)
    by (unfold tail, encodeEvents, encodeExit;
        destruct (toBlob br scaled "image/png"); reflexivity).
  clearbody tail.
  assert (TR : filter isRequest (traceOf run)
               = requestEvents (L.mapZoom map) (block3 (loX pb) (loY pb))).
  { rewrite T. unfold uptoRequests. fold pb. rewrite Ht.
    cbn [filter isRequest app]. rewrite !filter_app.
    rewrite requestEvents_only_requests, drawEvents_no_request, Q1.
    cbn [filter isRequest app]. now rewrite !app_nil_r. }
  split; [exact Ht|]. split; [exact TR|].
  split; [rewrite TR; reflexivity|].
  split.
  { rewrite T. unfold uptoRequests. rewrite Sw, Sh.
    cbn [filter isCanvas app]. rewrite !filter_app.
    rewrite requestEvents_no_canvas, drawEvents_no_canvas, Q2.
    cbn [filter isCanvas app]. reflexivity. }
  split.
  { rewrite T. right. apply in_or_app. left. apply in_or_app. right.
    apply in_or_app. right. right. now left. }
  exists scaled. split; [reflexivity|].
  split; [exact Fw|]. split; [exact Fh|].
  rewrite T. unfold uptoRequests.
  cbn [filter isDispatch app]. rewrite !filter_app.
  rewrite requestEvents_no_dispatch, drawEvents_no_dispatch, Q3.
  cbn [filter isDispatch app]. reflexivity.
Qed.

(** C6 as the spec states it fails: pixel bounds from [(0, 0)] to
    [(512, 512)] at zoom 10 measure 512 by 512 pixels, and their
    capture requests nine tiles, not four. *)
Lemma C6_counterexample :
  let map := Sample.simpleMap 10 800 600 in
  let s := Sample.stateWith (Some map) 100 (Some Sample.square512) in
  let run := handleAnalyzeMapView (Sample.browser Sample.allTilesLoad) s in
  let size := L.getSize (pixelBoundsOf map Sample.square512) in
  (L.x size == 512)%Q /\ (L.y size == 512)%Q /\ L.mapZoom map = 10%Z /\
  List.length (filter isRequest (traceOf run)) <> 4%nat.
Proof. vm_compute. repeat split; discriminate. Qed.

Lemma C6_witness :
  let map := Sample.simpleMap 10 800 600 in
  let s := Sample.stateWith (Some map) 100 (Some Sample.square512) in
  let run := handleAnalyzeMapView (Sample.browser Sample.allTilesLoad) s in
  List.length (filter isRequest (traceOf run)) = 9%nat /\
  filter isCanvas (traceOf run)
  = [CreateCanvas 512 512; CreateCanvas 800 600].
Proof.
  intros map s run.
  destruct (C6_capture_of_512_square
              (Sample.browser Sample.allTilesLoad) s map Sample.square512
              800 600) as [_ [_ [N [C _]]]];
    try reflexivity; try (split; [discriminate | reflexivity]).
  - intros t _ H. discriminate H.
  - split; [exact N | exact C].
Defined.

Lemma C2_witness :
  let map := Sample.simpleMap 10 800 600 in
  let s := Sample.stateWith (Some map) 100 (Some Sample.square512) in
  let run := handleAnalyzeMapView (Sample.browser Sample.oneTileFails) s in
  filter isDraw (traceOf run) = [] /\
  filter isDispatch (traceOf run) = [] /\
  mapViewError (stateOf run) = Some captureFailedMessage.
Proof.
  intros map s run.
  destruct (C2_all_or_nothing
              (Sample.browser Sample.oneTileFails) s map Sample.square512
              (tileIndex 1 1)) as [_ [_ [D [_ [P E]]]]];
    try reflexivity.
  - vm_compute. tauto.
  - repeat split; assumption.
Defined.

(** C7: every file that the handler hands to the result dispatcher is
    named [map-view.png], has the type [image/png] and holds the PNG
    encoding of a canvas.  When the capture reaches the encoding of the
    final canvas, a blob is handed on as exactly one such file and no
    error is shown; when the encoder yields no data, the capture fails
    with the conversion error, the user sees the capture error and
    nothing is handed on. *)
Theorem C7_png_file_or_encoding_error (br : Browser) (s : State) :
  let run := handleAnalyzeMapView br s in
  Forall (dispatchOk br) (traceOf run) /\
  forall map ab scaled,
    mapInstance s = Some map -> analysisBounds s = Some ab ->
    hasArea map ab = true -> stitchContext br = true ->
    allLoad br map ab -> finalContext br = true ->
    scaledOf br map ab = inl scaled ->
    match toBlob br scaled "image/png" with
    | Some blob =>
        filter isDispatch (traceOf run)
        = [OnAnalyzeFromMap (mkFile blob "map-view.png" "image/png")] /\
        snd (capture br map ab (loadingState s)) = inl tt /\
        mapViewError (stateOf run) = None
    | None =>
        filter isDispatch (traceOf run) = [] /\
        snd (capture br map ab (loadingState s))
        = inr "Canvas to Blob conversion failed." /\
        In (ConsoleError
              "Failed to analyze map view: Canvas to Blob conversion failed.")
           (traceOf run) /\
        mapViewError (stateOf run) = Some captureFailedMessage
    end.
Proof.
  intros run. split.
  - subst run.
    destruct (mapInstance s) as [map|] eqn:Hm;
      [destruct (analysisBounds s) as [ab|] eqn:Hb|];
      try (unfold handleAnalyzeMapView; rewrite Hm, ?Hb; constructor).
    rewrite (handle_run br map ab s Hm Hb). cbv zeta.
    unfold traceOf. cbn [fst snd].
    constructor; [exact I|].
    apply Forall_app. split; [apply capture_dispatchOk|].
    apply Forall_app. split.
    + destruct (snd (capture br map ab (loadingState s)));
        simpl; now repeat constructor.
    + now repeat constructor.
  - intros map ab scaled Hm Hb Ha Hc Hall Hf Hs.
    pose proof (capture_run_loaded br map ab (loadingState s) Ha Hc Hall Hf)
      as R. cbv zeta in R. rewrite Hs in R.
    subst run. rewrite (handle_run br map ab s Hm Hb). cbv zeta.
    rewrite R. unfold traceOf, stateOf, encodeEvents, encodeExit,
      uptoRequests.
    cbn [fst snd].
    destruct (toBlob br scaled "image/png") as [blob|];
      cbn [catchEvents errorAfter settledState mapViewError app];
      rewrite <- ?app_assoc; cbn [filter isDispatch app];
      rewrite !filter_app;
      rewrite requestEvents_no_dispatch, drawEvents_no_dispatch;
      cbn [filter isDispatch app]; repeat split.
    repeat match goal with
           | |- _ = _ \/ _ => first [left; reflexivity | right]
           | |- In _ (_ :: _) => first [left; reflexivity | right]
           | |- In _ (_ ++ _) => apply in_or_app; right
           end.
Qed.

Lemma C7_witness :
  let map := Sample.simpleMap 10 800 600 in
  let s := Sample.stateWith (Some map) 100 (Some Sample.square512) in
  (exists blob,
      filter isDispatch
        (traceOf (handleAnalyzeMapView (Sample.browser Sample.allTilesLoad) s))
      = [OnAnalyzeFromMap (mkFile blob "map-view.png" "image/png")]) /\
  filter isDispatch (traceOf (handleAnalyzeMapView Sample.browserWithoutBlob s))
  = [].
Proof.
  intros map s.
  assert (Ha : hasArea map Sample.square512 = true)
    by (vm_compute; reflexivity).
  split.
  - destruct (C7_png_file_or_encoding_error
                (Sample.browser Sample.allTilesLoad) s) as [_ H].
    destruct (scaledOf (Sample.browser Sample.allTilesLoad) map
                Sample.square512) as [scaled|e] eqn:E;
      [|vm_compute in E; discriminate E].
    assert (Hall : allLoad (Sample.browser Sample.allTilesLoad) map
                     Sample.square512)
      by (intros t _ L; discriminate L).
    destruct (H map Sample.square512 scaled eq_refl eq_refl Ha eq_refl Hall
                eq_refl E) as [D _].
    eexists. exact D.
  - destruct (C7_png_file_or_encoding_error Sample.browserWithoutBlob s)
      as [_ H].
    destruct (scaledOf Sample.browserWithoutBlob map Sample.square512)
      as [scaled|e] eqn:E; [|vm_compute in E; discriminate E].
    assert (Hall : allLoad Sample.browserWithoutBlob map Sample.square512)
      by (intros t _ L; discriminate L).
    destruct (H map Sample.square512 scaled eq_refl eq_refl Ha eq_refl Hall
                eq_refl E) as [D _].
    exact D.
Defined.

End CaptureClaims.

(** ** The stitcher *)

(** ** Drawing at offsets of whole pixels *)

Section DrawFacts.

Local Open Scope Q_scope.

Lemma inject_Z_le (u v : Z) : (u <= v)%Z -> inject_Z u <= inject_Z v.
Proof. intros H. now rewrite <- Zle_Qle. Qed.

(** At a whole offset a pixel of one axis is covered entirely or not at
    all. *)
Lemma overlap_whole (a w i : Z) (d : Q) :
  d == inject_Z a ->
  overlap d w i == if ((a <=? i) && (i <? a + w))%Z then 1 else 0.
Proof.
  intros H. unfold overlap.
  destruct (Q.max_spec (inject_Z i) d) as [[M1 E1]|[M1 E1]];
    destruct (Q.min_spec (inject_Z i + 1) (d + inject_Z w))
      as [[M2 E2]|[M2 E2]];
    destruct (Q.max_spec 0
                (Qmin (inject_Z i + 1) (d + inject_Z w)
                 - Qmax (inject_Z i) d)) as [[M3 E3]|[M3 E3]];
    rewrite E3; clear E3;
    destruct (Z.leb_spec a i) as [L1|L1];
    destruct (Z.ltb_spec i (a + w)) as [L2|L2]; cbn [andb];
    try (pose proof (inject_Z_le a i L1) as Q1);
    try (pose proof (inject_Z_le (i + 1) a ltac:(lia)) as Q1;
         rewrite inject_Z_plus in Q1; change (inject_Z 1) with 1 in Q1);
    try (pose proof (inject_Z_le (i + 1) (a + w) ltac:(lia)) as Q2;
         rewrite !inject_Z_plus in Q2; change (inject_Z 1) with 1 in Q2);
    try (pose proof (inject_Z_le (a + w) i L2) as Q2;
         rewrite inject_Z_plus in Q2);
    lra.
Qed.

Lemma coverage_whole (a b w h i j : Z) (dx dy : Q) :
  dx == inject_Z a -> dy == inject_Z b ->
  coverage dx dy w h i j
  == if ((a <=? i) && (i <? a + w) && ((b <=? j) && (j <? b + h)))%Z
     then 1 else 0.
Proof.
  intros Hx Hy. unfold coverage.
  rewrite (overlap_whole a w i dx Hx), (overlap_whole b h j dy Hy).
  destruct ((a <=? i) && (i <? a + w))%Z;
    destruct ((b <=? j) && (j <? b + h))%Z; reflexivity.
Qed.

Lemma insideRect_whole (a b w h i j : Z) (dx dy : Q) :
  dx == inject_Z a -> dy == inject_Z b ->
  insideRect dx dy w h i j
  = ((a <=? i) && (i <? a + w) && ((b <=? j) && (j <? b + h)))%Z.
Proof.
  intros Hx Hy. unfold insideRect, Qlt_bool.
  rewrite Hx, Hy, <- !inject_Z_plus.
  assert (Le : forall u v, Qle_bool (inject_Z u) (inject_Z v) = (u <=? v)%Z).
  { intros u v. apply eq_true_iff_eq.
    now rewrite Qle_bool_iff, Z.leb_le, <- Zle_Qle. }
  rewrite !Le, <- !Z.ltb_antisym, <- !andb_assoc. reflexivity.
Qed.

Lemma fade_whole (cov : Q) (p : Pixel) : cov == 1 -> fade cov p = p.
Proof.
  intros H. unfold fade. destruct p as [r g b al]. cbn [red green blue alpha].
  f_equal. symmetry. apply floor_unique. rewrite H, inject_Z_plus.
  change (inject_Z 1) with 1. split; lra.
Qed.

Lemma nearest_whole (a w i : Z) (d : Q) :
  d == inject_Z a -> (a <= i)%Z -> (i < a + w)%Z ->
  nearest w (inject_Z i + (1 # 2) - d) = Qfloor (inject_Z i - d).
Proof.
  intros H L1 L2. unfold nearest.
  assert (F1 : Qfloor (inject_Z i + (1 # 2) - d) = (i - a)%Z).
  { symmetry. apply floor_unique. rewrite H.
    unfold Z.sub. rewrite !inject_Z_plus, inject_Z_opp.
    change (inject_Z 1) with 1. split; lra. }
  assert (F2 : Qfloor (inject_Z i - d) = (i - a)%Z).
  { symmetry. apply floor_unique. rewrite H.
    unfold Z.sub. rewrite !inject_Z_plus, inject_Z_opp.
    change (inject_Z 1) with 1. split; lra. }
  rewrite F1, F2. lia.
Qed.

(** At offsets of whole pixels [drawImage] copies whole pixels: a
    canvas pixel inside the destination rectangle is composited with
    the image pixel that lies on it, every other pixel is left as it
    was. *)
Lemma drawImage_whole (br : Browser) (img : Image) (dx dy : Q) (c : Canvas)
  (i j : Z) :
  inject_Z (Qfloor dx) == dx -> inject_Z (Qfloor dy) == dy ->
  canvasPixel (drawImage br img dx dy c) i j
  = if insideCanvas c i j
       && insideRect dx dy (naturalWidth img) (naturalHeight img) i j
    then blend br
           (imagePixel img (Qfloor (inject_Z i - dx))
                           (Qfloor (inject_Z j - dy)))
           (canvasPixel c i j)
    else canvasPixel c i j.
Proof.
  intros Hx Hy. symmetry in Hx, Hy.
  set (a := Qfloor dx) in *. set (b := Qfloor dy) in *.
  unfold drawImage. cbn [canvasPixel].
  pose proof (coverage_whole a b (naturalWidth img) (naturalHeight img) i j
                dx dy Hx Hy) as C.
  rewrite (insideRect_whole a b _ _ i j dx dy Hx Hy).
  destruct (insideCanvas c i j); [|reflexivity]. cbn [andb].
  destruct ((a <=? i) && (i <? a + naturalWidth img)
            && ((b <=? j) && (j <? b + naturalHeight img)))%Z eqn:In.
  - assert (T : Qlt_bool 0
                  (coverage dx dy (naturalWidth img) (naturalHeight img) i j)
                = true).
    { unfold Qlt_bool. apply negb_true_iff, not_true_iff_false.
      rewrite Qle_bool_iff, C. lra. }
    rewrite T, (fade_whole _ _ C).
    apply andb_true_iff in In. destruct In as [I1 I2].
    apply andb_true_iff in I1. destruct I1 as [X1 X2].
    apply andb_true_iff in I2. destruct I2 as [Y1 Y2].
    apply Z.leb_le in X1, Y1. apply Z.ltb_lt in X2, Y2.
    now rewrite (nearest_whole a _ i dx Hx X1 X2),
      (nearest_whole b _ j dy Hy Y1 Y2).
  - assert (T : Qlt_bool 0
                  (coverage dx dy (naturalWidth img) (naturalHeight img) i j)
                = false).
    { unfold Qlt_bool. apply negb_false_iff.
      rewrite Qle_bool_iff, C. lra. }
    now rewrite T.
Qed.

(** With the corner of the pixel bounds on whole pixels, every offset
    [k * tileSize - min] is whole. *)
Lemma offset_whole (k : Z) (m : Q) :
  inject_Z (Qfloor m) == m ->
  inject_Z (Qfloor (inject_Z k * tileSize - m)) == inject_Z k * tileSize - m.
Proof.
  intros H.
  assert (E : inject_Z k * tileSize - m == inject_Z (k * 256 - Qfloor m)).
  { unfold Z.sub. rewrite inject_Z_plus, inject_Z_mult, inject_Z_opp, H.
    reflexivity. }
  rewrite (Qfloor_comp _ _ E), Qfloor_Z. now rewrite E.
Qed.

End DrawFacts.

Section Stitcher.

Import MapSection.

Variables (br : Browser) (pixelBounds : L.Bounds).

Hypothesis whole : wholePixels pixelBounds.

Let offsetX (t : Tile) : Q := inject_Z (x t) * tileSize - L.x (L.min pixelBounds).
Let offsetY (t : Tile) : Q := inject_Z (y t) * tileSize - L.y (L.min pixelBounds).

(** The destination rectangle of the tile contains the pixel address. *)
Let covers (t : Tile) (i j : Z) : bool :=
  insideRect (offsetX t) (offsetY t)
    (naturalWidth (img t)) (naturalHeight (img t)) i j.

Lemma drawTile_pixel (t : Tile) (c : Canvas) (i j : Z) :
  canvasPixel (drawTile br pixelBounds t c) i j
  = if insideCanvas c i j && covers t i j
    then blend br
           (imagePixel (img t) (Qfloor (inject_Z i - offsetX t))
                               (Qfloor (inject_Z j - offsetY t)))
           (canvasPixel c i j)
    else canvasPixel c i j.
Proof.
  destruct whole as [Wx Wy]. unfold drawTile, canvasX, canvasY.
  apply drawImage_whole; now apply offset_whole.
Qed.

Lemma drawTile_inside (t : Tile) (c : Canvas) (i j : Z) :
  insideCanvas (drawTile br pixelBounds t c) i j = insideCanvas c i j.
Proof. reflexivity. Qed.

(** On one axis, an image no wider than a tile and placed at the offset
    of the tile [k] only covers addresses of the tile [k]. *)
Lemma axis_index (k i w : Z) (m : Q) :
  (w <= 256)%Z ->
  Qle_bool (inject_Z k * tileSize - m) (inject_Z i) = true ->
  Qlt_bool (inject_Z i) (inject_Z k * tileSize - m + inject_Z w) = true ->
  k = Qfloor ((inject_Z i + m) / tileSize).
Proof.
  intros Hw H1 H2. apply tile_axis.
  apply Qle_bool_iff in H1. unfold Qlt_bool in H2.
  apply negb_true_iff, not_true_iff_false in H2.
  rewrite Qle_bool_iff in H2. apply Qnot_le_lt in H2.
  rewrite Zle_Qle in Hw. rewrite inject_Z_plus. unfold tileSize in *.
  change (inject_Z 256) with 256%Q in Hw.
  change (inject_Z 1) with 1%Q.
  split; lra.
Qed.

Lemma covers_index (t : Tile) (i j : Z) :
  tileFits t -> covers t i j = true ->
  x t = Qfloor ((inject_Z i + L.x (L.min pixelBounds)) / tileSize) /\
  y t = Qfloor ((inject_Z j + L.y (L.min pixelBounds)) / tileSize).
Proof.
  intros [Fw Fh] H. unfold covers, insideRect, offsetX, offsetY in H.
  apply andb_true_iff in H. destruct H as [H Hy2].
  apply andb_true_iff in H. destruct H as [H Hy1].
  apply andb_true_iff in H. destruct H as [Hx1 Hx2].
  split.
  - exact (axis_index _ _ _ _ Fw Hx1 Hx2).
  - exact (axis_index _ _ _ _ Fh Hy1 Hy2).
Qed.

(** Two tiles with different indices never cover the same address. *)
Lemma covers_disjoint (t u : Tile) (i j : Z) :
  tileFits t -> tileFits u -> indexOf t <> indexOf u ->
  covers t i j = true -> covers u i j = false.
Proof.
  intros Ft Fu D Ht. apply not_true_iff_false. intros Hu.
  destruct (covers_index t i j Ft Ht) as [X1 Y1].
  destruct (covers_index u i j Fu Hu) as [X2 Y2].
  apply D. unfold indexOf. now rewrite X1, Y1, X2, Y2.
Qed.

Lemma drawTile_proper (t : Tile) (c d : Canvas) :
  sameBitmap c d ->
  sameBitmap (drawTile br pixelBounds t c) (drawTile br pixelBounds t d).
Proof.
  intros [W [H P]]. split; [exact W|]. split; [exact H|].
  intros i j. rewrite !drawTile_pixel. unfold insideCanvas.
  now rewrite W, H, P.
Qed.

Lemma stitch_proper (tiles : list Tile) (c d : Canvas) :
  sameBitmap c d ->
  sameBitmap (stitch br pixelBounds tiles c) (stitch br pixelBounds tiles d).
Proof.
  revert c d. induction tiles as [|t tiles IH]; intros c d E; [exact E|].
  simpl. apply IH. now apply drawTile_proper.
Qed.

Lemma sameBitmap_refl (c : Canvas) : sameBitmap c c.
Proof. now repeat split. Qed.

Lemma sameBitmap_trans (c d e : Canvas) :
  sameBitmap c d -> sameBitmap d e -> sameBitmap c e.
Proof.
  intros [W1 [H1 P1]] [W2 [H2 P2]].
  split; [congruence|]. split; [congruence|].
  intros i j. now rewrite P1.
Qed.

(** Tiles with different indices can be drawn in either order. *)
Lemma drawTile_comm (t u : Tile) (c : Canvas) :
  tileFits t -> tileFits u -> indexOf t <> indexOf u ->
  sameBitmap (drawTile br pixelBounds t (drawTile br pixelBounds u c))
             (drawTile br pixelBounds u (drawTile br pixelBounds t c)).
Proof.
  intros Ft Fu D. split; [reflexivity|]. split; [reflexivity|].
  intros i j. rewrite !drawTile_pixel, !drawTile_inside.
  destruct (insideCanvas c i j); [|reflexivity]. cbn [andb].
  destruct (covers t i j) eqn:Ct.
  - now rewrite (covers_disjoint t u i j Ft Fu D Ct).
  - reflexivity.
Qed.

Lemma stitch_perm (tiles tiles' : list Tile) :
  Permutation tiles tiles' ->
  NoDup (List.map indexOf tiles) -> Forall tileFits tiles ->
  forall c d, sameBitmap c d ->
  sameBitmap (stitch br pixelBounds tiles c) (stitch br pixelBounds tiles' d).
Proof.
  induction 1 as [|t l l' HP IH|t u l|l l' l'' HP1 IH1 HP2 IH2];
    intros ND FT c d E.
  - exact E.
  - simpl. inversion ND; subst. inversion FT; subst.
    apply IH; [assumption | assumption | now apply drawTile_proper].
  - simpl. inversion ND as [|? ? Nu ND']; subst.
    inversion ND' as [|? ? Nt ND'']; subst.
    inversion FT as [|? ? Fu FT']; subst.
    inversion FT' as [|? ? Ft FT'']; subst.
    apply stitch_proper.
    eapply sameBitmap_trans.
    + apply drawTile_comm; [exact Ft | exact Fu |].
      intros Eq. apply Nu. left. now symmetry.
    + apply drawTile_proper, drawTile_proper, E.
  - eapply sameBitmap_trans.
    + apply (IH1 ND FT c c), sameBitmap_refl.
    + apply IH2; [|  | exact E].
      * eapply Permutation_NoDup; [|exact ND]. now apply Permutation_map.
      * eapply Permutation_Forall; eassumption.
Qed.

(** An address that no tile of the list covers keeps its pixel. *)
Lemma stitch_uncovered (tiles : list Tile) (c : Canvas) (i j : Z) :
  (forall t, In t tiles -> covers t i j = false) ->
  canvasPixel (stitch br pixelBounds tiles c) i j = canvasPixel c i j.
Proof.
  revert c. induction tiles as [|t tiles IH]; intros c H; [reflexivity|].
  simpl. rewrite IH by (intros u Hu; apply H; now right).
  rewrite drawTile_pixel, (H t) by now left.
  now rewrite andb_false_r.
Qed.

(** An address inside the canvas that a tile covers holds the pixel of
    that tile, blended onto what the canvas held before. *)
Lemma stitch_covered (tiles : list Tile) (c : Canvas) (t : Tile) (i j : Z) :
  NoDup (List.map indexOf tiles) -> Forall tileFits tiles ->
  In t tiles -> covers t i j = true -> insideCanvas c i j = true ->
  canvasPixel (stitch br pixelBounds tiles c) i j
  = blend br
      (imagePixel (img t) (Qfloor (inject_Z i - offsetX t))
                          (Qfloor (inject_Z j - offsetY t)))
      (canvasPixel c i j).
Proof.
  revert c. induction tiles as [|u tiles IH]; intros c ND FT Hin Ct Hc;
    [contradiction|].
  inversion ND as [|? ? Nu ND']; subst. inversion FT as [|? ? Fu FT']; subst.
  assert (Ft : tileFits t) by (rewrite Forall_forall in FT; now apply FT).
  simpl. destruct Hin as [->|Hin].
  - rewrite stitch_uncovered.
    + rewrite drawTile_pixel, Hc, Ct. reflexivity.
    + intros v Hv. apply (covers_disjoint t v i j Ft); [|  | exact Ct].
      * rewrite Forall_forall in FT'. now apply FT'.
      * intros Eq. apply Nu. rewrite Eq. now apply in_map.
  - rewrite IH; try assumption.
    rewrite drawTile_pixel.
    rewrite (covers_disjoint t u i j Ft Fu); [now rewrite andb_false_r | | exact Ct].
    intros Eq. apply Nu. rewrite <- Eq. now apply in_map.
Qed.

End Stitcher.

Section StitcherClaims.

Import MapSection.

(** The draws and the files handed on in a capture in which every tile
    loads. *)
Lemma loaded_run_events (br : Browser) (s : State) (map : L.Map)
  (ab : L.LatLngBounds) :
  mapInstance s = Some map -> analysisBounds s = Some ab ->
  hasArea map ab = true -> stitchContext br = true ->
  allLoad br map ab ->
  let pb := pixelBoundsOf map ab in
  let tiles := loadedTiles br (L.mapZoom map) (tileIndices pb) in
  let run := handleAnalyzeMapView br s in
  filter isDraw (traceOf run) = List.map (drawEvent pb) tiles /\
  filter isDispatch (traceOf run)
  = if finalContext br
    then match scaledOf br map ab with
         | inl scaled => encodeEvents br scaled
         | inr _ => []
         end
    else [].
Proof.
  intros Hm Hb Ha Hc Hall pb tiles run.
  assert (FD : filter isDraw (List.map (drawEvent pb) tiles)
               = List.map (drawEvent pb) tiles)
    by (clear; induction tiles; simpl; congruence).
  subst run. rewrite (handle_run br map ab s Hm Hb). cbv zeta.
  destruct (finalContext br) eqn:Hf.
  - pose proof (capture_run_loaded br map ab (loadingState s) Ha Hc Hall Hf)
      as R. cbv zeta in R. fold pb in R. fold tiles in R.
    rewrite R. unfold traceOf, uptoRequests. fold pb.
    destruct (scaledOf br map ab) as [scaled|e]; cbn [fst snd];
      [unfold encodeEvents, encodeExit;
       destruct (toBlob br scaled "image/png")|];
      cbn [catchEvents filter isDraw isDispatch app];
      rewrite !filter_app;
      rewrite ?requestEvents_no_draw, ?requestEvents_no_dispatch,
        ?drawEvents_no_dispatch, ?FD;
      cbn [filter isDraw isDispatch app];
      rewrite ?filter_app, ?requestEvents_no_draw, ?requestEvents_no_dispatch,
        ?drawEvents_no_dispatch, ?FD;
      cbn [filter isDraw isDispatch app];
      rewrite ?app_nil_r; split; reflexivity.
  - destruct (capture_no_final_context br map ab (loadingState s)
                Ha Hc Hall Hf) as [tiles0 [E R]].
    apply loadedTiles_unique in E. fold pb in E. fold tiles in E. subst tiles0.
    rewrite R. unfold traceOf, uptoRequests. fold pb. cbn [fst snd].
    cbn [catchEvents filter isDraw isDispatch app].
    rewrite !filter_app.
    rewrite ?requestEvents_no_draw, ?requestEvents_no_dispatch,
      ?drawEvents_no_dispatch, ?FD.
    cbn [filter isDraw isDispatch app].
    rewrite ?filter_app, ?requestEvents_no_draw, ?requestEvents_no_dispatch,
      ?drawEvents_no_dispatch, ?FD.
    cbn [filter isDraw isDispatch app].
    rewrite ?app_nil_r. split; reflexivity.
Qed.

(** Clipping: whatever the offsets, a draw leaves the size of the canvas
    and every address outside it as they were. *)
Lemma stitch_clips (br : Browser) (pb : L.Bounds) (tiles : list Tile)
  (c : Canvas) (i j : Z) :
  insideCanvas c i j = false ->
  canvasPixel (stitch br pb tiles c) i j = canvasPixel c i j.
Proof.
  revert c. induction tiles as [|t tiles IH]; intros c H; [reflexivity|].
  simpl. rewrite IH.
  - unfold drawTile, drawImage. cbn [canvasPixel]. now rewrite H.
  - exact H.
Qed.




End StitcherClaims.

(** ** The region selector and the insights box *)

Section RegionClaims.

Import MapSection.
Local Open Scope Q_scope.

Lemma Qlt_bool_iff (a b : Q) : Qlt_bool a b = true <-> a < b.
Proof.
  unfold Qlt_bool. rewrite negb_true_iff, <- not_true_iff_false, Qle_bool_iff.
  split; [apply Qnot_le_lt | apply Qlt_not_le].
Qed.

(** The box of [toBounds] is centred on the point, and its sides measure
    [sizeInMeters] on the meridian and on the parallel of the point. *)
Lemma toBounds_box (cosd : Q -> Q) (c : L.LatLng) (size : Q) :
  ~ cosd (L.lat c) == 0 ->
  let box := L.toBounds cosd c size in
  L.lat (L.getCenter box) == L.lat c /\
  L.lng (L.getCenter box) == L.lng c /\
  L.northSouthMetres box == size /\
  L.eastWestMetres cosd (L.lat c) box == size.
Proof.
  intros Hc box. subst box.
  unfold L.toBounds, L.getCenter, L.northSouthMetres, L.eastWestMetres,
    L.metresPerDegree, L.earthCircumference.
  cbn [L.lat L.lng L.southWest L.northEast].
  repeat split; field; try exact Hc; try discriminate.
Qed.

(** C5: with a map present, a radius of 0 leaves no analysis bounds;
    a radius [r > 0] leaves the box [center.toBounds(2 * r)], which is
    centred on the centre of the map and whose sides measure [2 * r]
    metres from south to north and, on the parallel of the centre, from
    west to east, at every latitude whose cosine is not zero. *)
Theorem C5_region_selector (br : Browser) (s : State) (map : L.Map) :
  mapInstance s = Some map ->
  let run := updateAnalysisBounds br s in
  let center := L.mapCenter map in
  (radius s == 0 -> analysisBounds (stateOf run) = None) /\
  (0 < radius s ->
   analysisBounds (stateOf run)
   = Some (L.toBounds (cosDeg br) center (radius s * 2))) /\
  (0 < radius s -> ~ cosDeg br (L.lat center) == 0 ->
   exists box,
     analysisBounds (stateOf run) = Some box /\
     L.lat (L.getCenter box) == L.lat center /\
     L.lng (L.getCenter box) == L.lng center /\
     L.northSouthMetres box == 2 * radius s /\
     L.eastWestMetres (cosDeg br) (L.lat center) box == 2 * radius s).
Proof.
  intros Hm run center.
  assert (Pos : 0 < radius s ->
                analysisBounds (stateOf run)
                = Some (L.toBounds (cosDeg br) center (radius s * 2))).
  { intros Hr. subst run. unfold updateAnalysisBounds. rewrite Hm.
    apply Qlt_bool_iff in Hr. rewrite Hr. reflexivity. }
  split; [|split; [exact Pos|]].
  - intros Hr. subst run. unfold updateAnalysisBounds. rewrite Hm.
    destruct (Qlt_bool 0 (radius s)) eqn:E; [|reflexivity].
    apply Qlt_bool_iff in E. rewrite Hr in E. discriminate E.
  - intros Hr Hc. eexists. split; [exact (Pos Hr)|].
    destruct (toBounds_box (cosDeg br) center (radius s * 2) Hc)
      as [C1 [C2 [N E]]].
    repeat split; try assumption.
    + rewrite N. ring.
    + rewrite E. ring.
Qed.

Lemma C5_witness :
  let map := Sample.simpleMap 10 800 600 in
  let br := Sample.browser Sample.allTilesLoad in
  analysisBounds
    (stateOf (updateAnalysisBounds br (Sample.stateWith (Some map) 0 None)))
  = None /\
  exists box,
    analysisBounds
      (stateOf (updateAnalysisBounds br (Sample.stateWith (Some map) 500 None)))
    = Some box /\
    L.northSouthMetres box == 2 * 500.
Proof.
  intros map br. split.
  - apply (C5_region_selector br (Sample.stateWith (Some map) 0 None) map);
      reflexivity.
  - destruct (C5_region_selector br (Sample.stateWith (Some map) 500 None) map
                eq_refl) as [_ [_ H]].
    destruct H as [box [B [_ [_ [N _]]]]].
    + reflexivity.
    + discriminate.
    + exists box. split; [exact B | exact N].
Defined.

(** The trace of [handleGetInsights], by cases. *)
Lemma handleGetInsights_trace (br : Browser) (ai : InsightsService)
  (s : State) (map : L.Map) :
  mapInstance s = Some map ->
  let box := L.toBounds (cosDeg br) (L.mapCenter map) (10000 * 2) in
  traceOf (handleGetInsights br ai s)
  = match allTopicsOf s with
    | [] => []
    | _ :: _ =>
        [SetIsInsightsLoading true;
         GetMapInsights box (selectedTopics s) (trim (customTopic s))]
        ++ match ai box (selectedTopics s) (trim (customTopic s)) with
           | inl _ => []
           | inr err => [ConsoleError err]
           end
        ++ [SetIsInsightsLoading false]
    end%list.
Proof.
  intros Hm box. unfold handleGetInsights, allTopicsOf. rewrite Hm.
  destruct (if truthy (trim (customTopic s)) then _ else _) as [|t ts];
    [reflexivity|].
  unfold setIsInsightsLoading, setInsightsError, setInsights,
    tryCatchFinally, finally, catch, getMapInsights, bind, modify, emit,
    traceOf.
  fold box. cbn [fst snd app].
  destruct (ai box (selectedTopics s) (trim (customTopic s))); reflexivity.
Qed.

(** C10: every request that [handleGetInsights] sends to the insights
    service is for the box [center.toBounds(10000 * 2)] around the
    centre of the map; what is sent does not depend on the radius of the
    slider nor on the analysis bounds; a request is sent whenever a topic
    is chosen; and the box is centred on the centre of the map with sides
    of 20000 metres. *)
Theorem C10_insights_box_fixed (br : Browser) (ai : InsightsService)
  (s : State) (map : L.Map) :
  mapInstance s = Some map ->
  let center := L.mapCenter map in
  let box := L.toBounds (cosDeg br) center (10000 * 2) in
  Forall (asksAbout box) (traceOf (handleGetInsights br ai s)) /\
  (forall r ab,
      traceOf (handleGetInsights br ai (withSelection s r ab))
      = traceOf (handleGetInsights br ai s)) /\
  (allTopicsOf s <> [] ->
   In (GetMapInsights box (selectedTopics s) (trim (customTopic s)))
      (traceOf (handleGetInsights br ai s))) /\
  (~ cosDeg br (L.lat center) == 0 ->
   L.lat (L.getCenter box) == L.lat center /\
   L.lng (L.getCenter box) == L.lng center /\
   L.northSouthMetres box == 20000 /\
   L.eastWestMetres (cosDeg br) (L.lat center) box == 20000).
Proof.
  intros Hm center box.
  pose proof (handleGetInsights_trace br ai s map Hm) as T.
  cbv zeta in T. fold center box in T.
  split; [|split; [|split]].
  - rewrite T. destruct (allTopicsOf s); [constructor|].
    constructor; [exact I|]. constructor; [reflexivity|].
    apply Forall_app. split.
    + destruct (ai box _ _); now repeat constructor.
    + now repeat constructor.
  - intros r ab. rewrite T.
    apply (handleGetInsights_trace br ai (withSelection s r ab) map Hm).
  - intros Hn. rewrite T. destruct (allTopicsOf s); [contradiction|].
    right. now left.
  - intros Hc.
    destruct (toBounds_box (cosDeg br) center (10000 * 2) Hc)
      as [C1 [C2 [N E]]].
    repeat split; assumption.
Qed.

Lemma C10_witness :
  let map := Sample.simpleMap 10 800 600 in
  let br := Sample.browser Sample.allTilesLoad in
  let ai : InsightsService := fun _ _ _ => inl [] in
  let s := mkState (Some map) 300 None None false None ["safety"%string]
             EmptyString false None in
  let box := L.toBounds (cosDeg br) (L.mapCenter map) (10000 * 2) in
  Forall (asksAbout box) (traceOf (handleGetInsights br ai s)) /\
  traceOf (handleGetInsights br ai (withSelection s 2000 (Some Sample.onePoint)))
  = traceOf (handleGetInsights br ai s) /\
  L.northSouthMetres box == 20000.
Proof.
  intros map br ai s box.
  destruct (C10_insights_box_fixed br ai s map eq_refl) as [A [B [_ D]]].
  split; [exact A|]. split; [apply B|].
  apply D. discriminate.
Defined.

End RegionClaims.

(** ** The segmentation response *)

Section ResponseFacts.

Import Analysis.

Lemma longestUpToBrace_any (after : string -> bool) (s b : string) :
  longestUpToBrace after s = Some b ->
  longestUpToBrace (fun _ => true) s <> None.
Proof.
  revert b. induction s as [|c r IH]; intros b H; [discriminate|].
  simpl in *. destruct (longestUpToBrace after r) as [b'|].
  - specialize (IH b' eq_refl).
    now destruct (longestUpToBrace (fun _ => true) r).
  - destruct (longestUpToBrace (fun _ => true) r); [discriminate|].
    destruct (Ascii.eqb c "}"); [discriminate | discriminate H].
Qed.

Lemma noBrace_tail (c : ascii) (r : string) :
  longestUpToBrace (fun _ => true) (String c r) = None ->
  longestUpToBrace (fun _ => true) r = None.
Proof.
  simpl. now destruct (longestUpToBrace (fun _ => true) r).
Qed.

Lemma noBrace_suffix (u s : string) :
  suffixOf u s ->
  longestUpToBrace (fun _ => true) s = None ->
  longestUpToBrace (fun _ => true) u = None.
Proof.
  induction 1 as [|c s _ IH]; intros H; [exact H|].
  apply IH. now apply noBrace_tail in H.
Qed.

Lemma suffixOf_trans (u v s : string) :
  suffixOf u v -> suffixOf v s -> suffixOf u s.
Proof.
  intros Huv Hvs. induction Hvs as [|c s _ IH]; [exact Huv|].
  now constructor.
Qed.

Lemma trimStart_suffix (s : string) : suffixOf (trimStart s) s.
Proof.
  induction s as [|c r IH]; simpl; [constructor|].
  destruct (isWhiteSpace c); now constructor.
Qed.

Lemma skip_suffix (n : nat) (s : string) : suffixOf (skip n s) s.
Proof.
  revert s. induction n as [|n IH]; intros s; [constructor|].
  destruct s as [|c r]; simpl; [constructor|]. constructor. apply IH.
Qed.

(** A text without a brace-delimited object has none after any of its
    opening braces. *)
Lemma matchBraces_none (s u : string) :
  matchBraces s = None -> suffixOf u s -> startsWithBrace u = true ->
  longestUpToBrace (fun _ => true) u = None.
Proof.
  intros H Hu. revert H. induction Hu as [|c s Hu IH]; intros H B.
  - destruct u as [|c r]; [discriminate|].
    unfold startsWithBrace in B. cbn [matchBraces] in H.
    now rewrite B in H.
  - simpl in H. destruct (Ascii.eqb c "{").
    + apply (noBrace_suffix u s Hu). now apply noBrace_tail in H.
    + now apply IH.
Qed.

(** A match of the fenced pattern takes its group from an opening brace
    of the text. *)
Lemma matchFenced_some (s g : string) :
  matchFenced s = Some g ->
  exists u, suffixOf u s /\ startsWithBrace u = true /\
            longestUpToBrace closesFence u = Some g.
Proof.
  induction s as [|c r IH]; intros H; [discriminate|].
  cbn [matchFenced] in H.
  destruct (if prefix "```" (String c r)
            then matchFencedAt (skip 3 (String c r)) else None)
    as [g'|] eqn:E.
  - injection H as <-.
    destruct (prefix "```" (String c r)); [|discriminate].
    unfold matchFencedAt in E.
    set (r1 := if prefix "json" (skip 3 (String c r))
               then skip 4 (skip 3 (String c r))
               else skip 3 (String c r)) in *.
    destruct (startsWithBrace (trimStart r1)) eqn:B; [|discriminate].
    exists (trimStart r1). split; [|split; [exact B | exact E]].
    eapply suffixOf_trans; [apply trimStart_suffix|].
    unfold r1. destruct (prefix "json" _).
    + eapply suffixOf_trans; apply skip_suffix.
    + apply skip_suffix.
  - destruct (IH H) as [u [Hu HB]]. exists u. split; [now constructor | exact HB].
Qed.

(** A text in which the plain pattern finds nothing gives no JSON. *)
Lemma extractJson_none (t : string) :
  matchBraces t = None -> extractJson t = None.
Proof.
  intros H. unfold extractJson.
  destruct (matchFenced t) as [g|] eqn:F; [|exact H].
  exfalso. destruct (matchFenced_some t g F) as [u [Hu [B L]]].
  apply (longestUpToBrace_any _ _ _ L).
  now apply (matchBraces_none t u).
Qed.

Lemma textOf_text (p : Part) (t : string) :
  textOf p = Some t -> text p = Some t.
Proof.
  unfold textOf. destruct (text p) as [t'|]; [|discriminate].
  destruct (truthy t'); [intros H; exact H | discriminate].
Qed.

Lemma scan_without_json (ps : list Part) (acc : Scan) :
  (forall p t, In p ps -> text p = Some t -> matchBraces t = None) ->
  jsonString (fold_left scanPart ps acc) = jsonString acc.
Proof.
  revert acc. induction ps as [|p ps IH]; intros acc H; [reflexivity|].
  simpl. rewrite IH by (intros q t Hq; apply H; now right).
  unfold scanPart. destruct (textOf p) as [t|] eqn:T.
  - rewrite extractJson_none; [reflexivity|].
    apply (H p t); [now left | now apply textOf_text].
  - now destruct (inlineData p).
Qed.

Lemma scan_without_image (ps : list Part) (acc : Scan) :
  (forall p d, In p ps -> inlineData p = Some d -> data d = EmptyString) ->
  scanImage acc = EmptyString ->
  scanImage (fold_left scanPart ps acc) = EmptyString.
Proof.
  revert acc. induction ps as [|p ps IH]; intros acc H A; [exact A|].
  simpl. apply IH; [intros q d Hq; apply H; now right|].
  unfold scanPart. destruct (textOf p) as [t|].
  - now destruct (extractJson t).
  - destruct (inlineData p) as [d|] eqn:D; [|exact A].
    simpl. apply (H p d); [now left | exact D].
Qed.

Lemma scan_absent (response : GenerateContentResponse) :
  percentagesAbsent response \/ imageAbsent response ->
  negb (truthy (jsonString (scanResponse response)))
  || negb (truthy (scanImage (scanResponse response))) = true.
Proof.
  unfold percentagesAbsent, imageAbsent, firstParts, scanResponse.
  intros H. apply orb_true_iff.
  destruct (candidates response) as [[|c cs]|];
    try (left; reflexivity).
  destruct H as [H|H]; [left|right].
  - now rewrite (scan_without_json _ _ H).
  - now rewrite (scan_without_image _ _ H).
Qed.

(** The run of the service call on a response of the model. *)
Lemma analyze_run (rt : Runtime) (base64Image mime : string)
  (response : GenerateContentResponse) (s : State) :
  generateContent rt base64Image mime = inl response ->
  let sc := scanResponse response in
  analyzeImageForBiodiversity rt base64Image mime s
  = if negb (truthy (jsonString sc)) || negb (truthy (scanImage sc))
    then (s, [GenerateContent base64Image mime;
              ConsoleError "API Response was incomplete:"],
          inr incompleteMessage)
    else match parseJSON rt (jsonString sc) with
         | Some p =>
             (s, [GenerateContent base64Image mime],
              inl (mkResult p
                     ("data:" ++ scanMimeType sc ++ ";base64,"
                      ++ scanImage sc)%string))
         | None =>
             (s, [GenerateContent base64Image mime;
                  ConsoleError "Failed to parse JSON string:"],
              inr "Failed to parse analysis data from the API."%string)
         end.
Proof.
  intros G sc. unfold analyzeImageForBiodiversity.
  unfold bind at 1. cbn [emit]. rewrite G. fold sc.
  destruct (negb (truthy (jsonString sc)) || negb (truthy (scanImage sc))).
  - reflexivity.
  - destruct (parseJSON rt (jsonString sc)); reflexivity.
Qed.

(** The state that [handleAnalysis] leaves, for an exit of the service
    call. *)
Lemma handleAnalysis_state (rt : Runtime) (startAnalysis : bool) (s : State)
  (file : File) (base64Image : string) (l : list Event)
  (r : BiodiversityAnalysisResult + string) :
  imageFile s = Some file ->
  base64Of (previewImage s) = Some base64Image ->
  truthy base64Image = true ->
  analyzeImageForBiodiversity rt base64Image (fileType file) (busy s)
  = (busy s, l, r) ->
  stateOf (handleAnalysis rt startAnalysis s)
  = mkState (imageFile s) (previewImage s)
      (match r with inl res => Some res | inr _ => None end)
      false
      (match r with inl _ => None | inr _ => Some analysisFailedMessage end).
Proof.
  intros Hf Hb Ht R.
  match goal with |- _ = ?rhs => set (final := rhs) end.
  unfold handleAnalysis. rewrite Hf, Hb, Ht. subst final.
  unfold setIsLoading, setError. rewrite !run_modify.
  unfold setAnalysisResult at 1. rewrite run_modify.
  cbn [imageFile previewImage analysisResult isLoading error].
  change (mkState (imageFile s) (previewImage s) None true None)
    with (busy s).
  unfold tryCatchFinally, finally, catch, stateOf.
  destruct r as [res|e].
  - erewrite run_bind_ok by exact R.
    destruct startAnalysis; reflexivity.
  - erewrite run_bind_throw by exact R.
    destruct startAnalysis; reflexivity.
Qed.

(** C8: when the response of the model lacks the percentage JSON or the
    segmented image, the service call throws the error of an incomplete
    response, and [handleAnalysis] shows the failure message and leaves
    the analysis result empty; a result is returned only for a response
    that has both parts and whose JSON parses, and then it is what the
    component shows. *)
Theorem C8_incomplete_response_fails (rt : Runtime) (startAnalysis : bool)
  (s : State) (file : File) (base64Image : string)
  (response : GenerateContentResponse) :
  imageFile s = Some file ->
  base64Of (previewImage s) = Some base64Image ->
  truthy base64Image = true ->
  generateContent rt base64Image (fileType file) = inl response ->
  let call := analyzeImageForBiodiversity rt base64Image (fileType file) in
  let run := handleAnalysis rt startAnalysis s in
  (percentagesAbsent response \/ imageAbsent response ->
   (forall s0, snd (call s0) = inr incompleteMessage) /\
   analysisResult (stateOf run) = None /\
   error (stateOf run) = Some analysisFailedMessage) /\
  (forall s0 res,
      snd (call s0) = inl res ->
      ~ percentagesAbsent response /\ ~ imageAbsent response /\
      parseJSON rt (jsonString (scanResponse response))
      = Some (percentages res) /\
      analysisResult (stateOf run) = Some res /\
      error (stateOf run) = None).
Proof.
  intros Hf Hb Ht G call run. subst call run.
  pose proof (fun s0 => analyze_run rt base64Image (fileType file) response
                          s0 G) as A. cbv zeta in A.
  split.
  - intros H. apply scan_absent in H. rewrite H in A.
    split; [intros s0; now rewrite A|].
    rewrite (handleAnalysis_state rt startAnalysis s file base64Image _ _
               Hf Hb Ht (A (busy s))).
    now split.
  - intros s0 res R.
    destruct (negb (truthy (jsonString (scanResponse response)))
              || negb (truthy (scanImage (scanResponse response)))) eqn:C.
    + rewrite A in R. discriminate R.
    + assert (NP : ~ percentagesAbsent response)
        by (intros H; rewrite (scan_absent response (or_introl H)) in C;
            discriminate C).
      assert (NI : ~ imageAbsent response)
        by (intros H; rewrite (scan_absent response (or_intror H)) in C;
            discriminate C).
      split; [exact NP|]. split; [exact NI|].
      destruct (parseJSON rt (jsonString (scanResponse response))) as [p|] eqn:P.
      * pose proof (A s0) as A0. rewrite A0 in R. cbn [snd] in R.
        injection R as <-. split; [reflexivity|].
        rewrite (handleAnalysis_state rt startAnalysis s file base64Image _ _
                   Hf Hb Ht (A (busy s))).
        now split.
      * rewrite A in R. discriminate R.
Qed.

Lemma C8_witness :
  (analysisResult
     (stateOf (handleAnalysis (sampleRuntime responseWithoutImage) true
                 sampleState))
   = None /\
   error
     (stateOf (handleAnalysis (sampleRuntime responseWithoutImage) true
                 sampleState))
   = Some analysisFailedMessage) /\
  exists res,
    analysisResult
      (stateOf (handleAnalysis (sampleRuntime completeResponse) true
                  sampleState))
    = Some res /\
    segmentedImage res = "data:image/png;base64,iVBORw0KGgo="%string.
Proof.
  split.
  - destruct (C8_incomplete_response_fails
                (sampleRuntime responseWithoutImage) true sampleState
                (mkFile [] "area.png" "image/png") "AAAA" responseWithoutImage
                eq_refl eq_refl eq_refl eq_refl) as [H _].
    apply H. right. intros p d [<-|[]] D. discriminate D.
  - destruct (C8_incomplete_response_fails
                (sampleRuntime completeResponse) true sampleState
                (mkFile [] "area.png" "image/png") "AAAA" completeResponse
                eq_refl eq_refl eq_refl eq_refl) as [_ H].
    eexists. split.
    + apply (H sampleState). vm_compute. reflexivity.
    + reflexivity.
Defined.

End ResponseFacts.


(** * Further properties of the code *)

(** ** Characters and strings *)

Section TextFacts.

Lemma toUpperChar_idem (c : ascii) : toUpperChar (toUpperChar c) = toUpperChar c.
Proof. destruct c as [[] [] [] [] [] [] [] []]; reflexivity. Qed.

Lemma toLowerChar_idem (c : ascii) : toLowerChar (toLowerChar c) = toLowerChar c.
Proof. destruct c as [[] [] [] [] [] [] [] []]; reflexivity. Qed.

Lemma toLowerChar_space (c : ascii) :
  isWhiteSpace (toLowerChar c) = isWhiteSpace c.
Proof. destruct c as [[] [] [] [] [] [] [] []]; reflexivity. Qed.

Lemma toLowerChar_blank (c : ascii) :
  Ascii.eqb (toLowerChar c) " " = Ascii.eqb c " ".
Proof. destruct c as [[] [] [] [] [] [] [] []]; reflexivity. Qed.

Lemma toLowerChar_underscore (c : ascii) :
  Ascii.eqb (toLowerChar c) "_" = Ascii.eqb c "_".
Proof. destruct c as [[] [] [] [] [] [] [] []]; reflexivity. Qed.

Lemma underscore_not_space (c : ascii) :
  isWhiteSpace c = true -> Ascii.eqb c "_" = false.
Proof. destruct c as [[] [] [] [] [] [] [] []]; (reflexivity || discriminate). Qed.

Lemma toLowerCase_idem (s : string) : toLowerCase (toLowerCase s) = toLowerCase s.
Proof.
  induction s as [|c r IH]; [reflexivity|].
  unfold toLowerCase in *. simpl. now rewrite toLowerChar_idem, IH.
Qed.

Lemma trimStart_lower (s : string) :
  trimStart (toLowerCase s) = toLowerCase (trimStart s).
Proof.
  induction s as [|c r IH]; [reflexivity|].
  unfold toLowerCase in *. simpl. rewrite toLowerChar_space.
  destruct (isWhiteSpace c); [exact IH | reflexivity].
Qed.

Lemma trimEnd_lower (s : string) :
  trimEnd (toLowerCase s) = toLowerCase (trimEnd s).
Proof.
  induction s as [|c r IH]; [reflexivity|].
  unfold toLowerCase in *. simpl. rewrite IH, toLowerChar_space.
  destruct (trimEnd r); simpl; [now destruct (isWhiteSpace c) | reflexivity].
Qed.

Lemma trim_lower (s : string) : trim (toLowerCase s) = toLowerCase (trim s).
Proof. unfold trim. now rewrite trimStart_lower, trimEnd_lower. Qed.

Lemma trimStart_noLeadingSpace (s : string) : noLeadingSpace (trimStart s).
Proof.
  induction s as [|c r IH]; simpl; [exact I|].
  destruct (isWhiteSpace c) eqn:E; [exact IH | exact E].
Qed.

Lemma trimStart_fixed (s : string) : noLeadingSpace s -> trimStart s = s.
Proof. destruct s as [|c r]; simpl; [reflexivity|]. now intros ->. Qed.

Lemma trimEnd_noLeadingSpace (s : string) :
  noLeadingSpace s -> noLeadingSpace (trimEnd s).
Proof.
  destruct s as [|c r]; simpl; [exact (fun H => H)|]. intros H.
  destruct (trimEnd r); simpl; [now rewrite H | exact H].
Qed.

Lemma trimEnd_idem (s : string) : trimEnd (trimEnd s) = trimEnd s.
Proof.
  induction s as [|c r IH]; [reflexivity|]. simpl.
  destruct (trimEnd r) as [|d t] eqn:E.
  - destruct (isWhiteSpace c) eqn:W; simpl; [reflexivity | now rewrite W].
  - simpl in IH |- *. now rewrite IH.
Qed.

Lemma trim_idem (s : string) : trim (trim s) = trim s.
Proof.
  unfold trim.
  rewrite (trimStart_fixed (trimEnd (trimStart s)))
    by apply trimEnd_noLeadingSpace, trimStart_noLeadingSpace.
  apply trimEnd_idem.
Qed.

Lemma truthy_eqb (s : string) : truthy s = negb (String.eqb s EmptyString).
Proof. now destruct s. Qed.

Lemma string_app_assoc (a b c : string) :
  ((a ++ b) ++ c)%string = (a ++ (b ++ c))%string.
Proof. induction a as [|x a IH]; simpl; [reflexivity | now rewrite IH]. Qed.

End TextFacts.

(** ** [MapSection]: topics, headings, land cover *)

Section MapControls.

Import MapSection.
Local Open Scope string_scope.
Local Open Scope list_scope.

Lemma existsb_eqb_In (x : string) (l : list string) :
  existsb (String.eqb x) l = true <-> In x l.
Proof.
  rewrite existsb_exists. split.
  - intros [y [Hy E]]. apply String.eqb_eq in E. now subst.
  - intros H. exists x. split; [exact H | apply String.eqb_refl].
Qed.

Lemma filter_other_In (x t : string) (l : list string) :
  In t (filter (fun u => negb (String.eqb u x)) l) <-> In t l /\ t <> x.
Proof.
  rewrite filter_In, negb_true_iff. split; intros [H1 H2]; split; try exact H1.
  - intros ->. now rewrite String.eqb_refl in H2.
  - now apply String.eqb_neq.
Qed.

Lemma filter_absent (x : string) (l : list string) :
  ~ In x l -> filter (fun u => negb (String.eqb u x)) l = l.
Proof.
  induction l as [|a l IH]; intros H; [reflexivity|]. simpl.
  destruct (String.eqb_spec a x) as [->|N].
  - exfalso. apply H. now left.
  - simpl. f_equal. apply IH. intros Hx. apply H. now right.
Qed.

(** X1: clicking a topic changes the selection and nothing else: every
    other cell of the state is as before, nothing is emitted and the
    handler does not fail.  The topic becomes selected when it was not
    and loses every occurrence when it was; the other topics stay, in
    their order, and a selection without repetition stays without
    repetition. *)
Theorem handleTopicChange_toggles (topicId : string) (s : State) :
  let run := handleTopicChange topicId s in
  let after := selectedTopics (stateOf run) in
  stateOf run
  = mkState (mapInstance s) (radius s) (analysisBounds s) (insights s)
      (isInsightsLoading s) (insightsError s) after (customTopic s)
      (isMapViewLoading s) (mapViewError s) /\
  traceOf run = [] /\ snd run = inl tt /\
  (In topicId after <-> ~ In topicId (selectedTopics s)) /\
  (forall t, t <> topicId -> (In t after <-> In t (selectedTopics s))) /\
  filter (fun u => negb (String.eqb u topicId)) after
  = filter (fun u => negb (String.eqb u topicId)) (selectedTopics s) /\
  (NoDup (selectedTopics s) -> NoDup after).
Proof.
  unfold handleTopicChange, modify, stateOf, traceOf.
  cbn [fst snd selectedTopics].
  split; [reflexivity|]. split; [reflexivity|]. split; [reflexivity|].
  unfold toggleTopic.
  destruct (existsb (String.eqb topicId) (selectedTopics s)) eqn:E.
  - apply existsb_eqb_In in E.
    split; [|split; [|split]].
    + rewrite filter_other_In. split; [intros [_ H]; now contradict H | tauto].
    + intros t Ht. rewrite filter_other_In. tauto.
    + apply filter_absent. rewrite filter_other_In. tauto.
    + apply NoDup_filter.
  - assert (N : ~ In topicId (selectedTopics s))
      by (rewrite <- existsb_eqb_In, E; discriminate).
    split; [|split; [|split]].
    + rewrite in_app_iff. simpl. tauto.
    + intros t Ht. rewrite in_app_iff. simpl. split; [|tauto].
      intros [H|[H|[]]]; [exact H | now contradict Ht].
    + rewrite filter_app. simpl. rewrite String.eqb_refl. simpl.
      apply app_nil_r.
    + intros ND. apply NoDup_app; [exact ND | repeat constructor; intros [] |].
      intros t Ht [<-|[]]. contradiction.
Qed.

Lemma handleTopicChange_toggles_witness :
  NoDup (selectedTopics
           (stateOf (handleTopicChange "safety"
                       (mkState None 0 None None false None
                          ["safety"; "tourism"] EmptyString false None)))) /\
  (In "tourism"
      (selectedTopics
         (stateOf (handleTopicChange "safety"
                     (mkState None 0 None None false None
                        ["safety"; "tourism"] EmptyString false None))))
   <-> In "tourism" ["safety"; "tourism"]).
Proof.
  destruct (handleTopicChange_toggles "safety"
              (mkState None 0 None None false None
                 ["safety"; "tourism"] EmptyString false None))
    as [_ [_ [_ [_ [O [_ N]]]]]].
  split.
  - apply N. repeat constructor; simpl; intuition discriminate.
  - apply O. discriminate.
Defined.

(** X2: clicking the same topic twice gives back the selection when the
    topic was not selected; when it was, the topic ends up selected
    again, once and in the last place. *)
Theorem handleTopicChange_twice (topicId : string) (s : State) :
  selectedTopics
    (stateOf (handleTopicChange topicId
                (stateOf (handleTopicChange topicId s))))
  = if existsb (String.eqb topicId) (selectedTopics s)
    then filter (fun u => negb (String.eqb u topicId)) (selectedTopics s)
         ++ [topicId]
    else selectedTopics s.
Proof.
  unfold handleTopicChange, modify, stateOf. cbn [fst snd selectedTopics].
  unfold toggleTopic.
  destruct (existsb (String.eqb topicId) (selectedTopics s)) eqn:E.
  - destruct (existsb _ (filter _ _)) eqn:E2; [|reflexivity].
    apply existsb_eqb_In, filter_other_In in E2. now destruct E2.
  - assert (N : ~ In topicId (selectedTopics s))
      by (rewrite <- existsb_eqb_In, E; discriminate).
    destruct (existsb _ (_ ++ _)) eqn:E2.
    + rewrite filter_app, (filter_absent _ _ N). simpl.
      rewrite String.eqb_refl. apply app_nil_r.
    + exfalso. rewrite <- not_true_iff_false, existsb_eqb_In in E2.
      apply E2, in_or_app. right. now left.
Qed.

Lemma replaceUnderscores_spaceRuns (b : bool) (u : string) :
  singleSpaced b u = true ->
  replaceUnderscores (replaceSpaceRunsFrom b u) = u.
Proof.
  revert b. induction u as [|c r IH]; intros b H; [reflexivity|].
  simpl in H |- *. destruct (isWhiteSpace c) eqn:W.
  - apply andb_true_iff in H. destruct H as [H Hr].
    apply andb_true_iff in H. destruct H as [Hc Hb].
    apply negb_true_iff in Hb. subst b. apply Ascii.eqb_eq in Hc. subst c.
    unfold replaceUnderscores in *. simpl. f_equal. now apply IH.
  - apply andb_true_iff in H. destruct H as [Hc Hr].
    apply negb_true_iff in Hc.
    unfold replaceUnderscores in *. simpl. rewrite Hc. f_equal. now apply IH.
Qed.

Lemma singleSpaced_lower (b : bool) (u : string) :
  singleSpaced b (toLowerCase u) = singleSpaced b u.
Proof.
  revert b. induction u as [|c r IH]; intros b; [reflexivity|].
  unfold toLowerCase in *. simpl.
  rewrite toLowerChar_space, toLowerChar_blank, toLowerChar_underscore.
  now rewrite !IH.
Qed.

(** X3: the heading shown for the key of a topic: for a topic whose words
    are separated by single blanks and which has no underscore, the
    heading is the trimmed topic in lower case with a capital first
    letter; the key loses nothing of such a topic. *)
Theorem insightHeading_of_topicKey (topic : string) :
  singleSpaced false (trim topic) = true ->
  insightHeading (Insights.topicKey topic)
  = capitalizeFirstLetter (toLowerCase (trim topic)).
Proof.
  intros H. unfold insightHeading, Insights.topicKey, replaceSpaceRuns.
  rewrite replaceUnderscores_spaceRuns; [reflexivity|].
  now rewrite singleSpaced_lower.
Qed.

Lemma insightHeading_of_topicKey_witness :
  insightHeading (Insights.topicKey "  Air Quality ") = "Air quality".
Proof.
  apply (insightHeading_of_topicKey "  Air Quality "). reflexivity.
Defined.

(** [capitalizeFirstLetter] maps the empty string to itself, keeps the
    length and everything after the first character, and applying it
    twice is the same as applying it once. *)
Theorem capitalizeFirstLetter_shape (s : string) :
  String.length (capitalizeFirstLetter s) = String.length s /\
  substring 1 (String.length s) (capitalizeFirstLetter s)
  = substring 1 (String.length s) s /\
  (capitalizeFirstLetter s = EmptyString <-> s = EmptyString) /\
  capitalizeFirstLetter (capitalizeFirstLetter s) = capitalizeFirstLetter s.
Proof.
  destruct s as [|c r]; simpl.
  - repeat split; reflexivity.
  - rewrite toUpperChar_idem. repeat split; try reflexivity; discriminate.
Qed.

(** The district is never shown as a row of the insights panel, and
    every other entry gives one row with its text unchanged. *)
Theorem insightRows_skip_district (ins : MapInsights) :
  List.map snd (insightRows ins)
  = List.map snd (filter (fun e => negb (String.eqb (fst e) "district")) ins) /\
  List.length (insightRows ins)
  = List.length (filter (fun e => negb (String.eqb (fst e) "district")) ins).
Proof.
  unfold insightRows. induction ins as [|[k v] ins [IH1 IH2]]; [now split|].
  simpl. destruct (String.eqb k "district"); simpl; [now split|].
  now rewrite IH1, IH2.
Qed.

(** X4: whatever the four random numbers of the unit interval, the
    land cover has the five categories in their fixed order with shares
    within these limits: water 7..19, roads 3..11, vegetation 20..39,
    urban areas 42..64, other 0..1; water is at most vegetation, which
    is at most urban areas; and the shares total 100 up to 1.  Every
    limit is missed by a margin, so none depends on the arithmetic
    being exact. *)
Theorem calculateLandPercentages_total (r1 r2 r3 r4 : Q) :
  (0 <= r1 < 1)%Q -> (0 <= r2 < 1)%Q -> (0 <= r3 < 1)%Q -> (0 <= r4 < 1)%Q ->
  exists water roads vegetation urban other : Q,
    calculateLandPercentages r1 r2 r3 r4
    = [("Water Bodies", water); ("Roads", roads); ("Vegetation", vegetation);
       ("Urban Areas", urban); ("Other", other)] /\
    (7 <= water <= 19)%Q /\ (3 <= roads <= 11)%Q /\
    (20 <= vegetation <= 39)%Q /\ (42 <= urban <= 64)%Q /\
    (0 <= other <= 1)%Q /\
    (water <= vegetation <= urban)%Q /\
    (99 <= totalOf (calculateLandPercentages r1 r2 r3 r4) <= 101)%Q.
Proof.
  intros H1 H2 H3 H4. unfold calculateLandPercentages.
  set (a := (8 + r1 * (16 - 8))%Q).
  set (b := (4 + r2 * (9 - 4))%Q).
  set (c := (22 + r3 * (36 - 22))%Q).
  set (d := (45 + r4 * (58 - 45))%Q).
  assert (Ha : (8 <= a < 16)%Q) by (unfold a; lra).
  assert (Hb : (4 <= b < 9)%Q) by (unfold b; lra).
  assert (Hc : (22 <= c < 36)%Q) by (unfold c; lra).
  assert (Hd : (45 <= d < 58)%Q) by (unfold d; lra).
  clearbody a b c d.
  set (total := (a + b + c + d)%Q).
  assert (Ht : (0 < total)%Q) by (unfold total; lra).
  assert (Hn : ~ (total == 0)%Q) by (intros E; rewrite E in Ht; discriminate).
  set (k := (100 / total)%Q).
  assert (Hk : (0 <= k)%Q).
  { unfold k, Qdiv. apply Qmult_le_0_compat; [discriminate|].
    apply Qlt_le_weak. now apply Qinv_lt_0_compat. }
  assert (Sum : (a * k + b * k + c * k + d * k == 100)%Q)
    by (unfold k, total; field; exact Hn).
  clearbody k.
  assert (P : forall u, (0 <= u)%Q -> (0 <= u * k)%Q)
    by (intros u Hu; now apply Qmult_le_0_compat).
  assert (E0 : (Qmax (100 - (a * k + b * k + c * k + d * k)) 0 == 0)%Q).
  { apply Q.max_r. rewrite Sum. discriminate. }
  eexists _, _, _, _, _. split; [reflexivity|].
  pose proof (P (93 * a - 7 * b - 7 * c - 7 * d)%Q ltac:(lra)) as A1.
  pose proof (P (19 * b + 19 * c + 19 * d - 81 * a)%Q ltac:(lra)) as A2.
  pose proof (P (97 * b - 3 * a - 3 * c - 3 * d)%Q ltac:(lra)) as B1.
  pose proof (P (11 * a + 11 * c + 11 * d - 89 * b)%Q ltac:(lra)) as B2.
  pose proof (P (80 * c - 20 * a - 20 * b - 20 * d)%Q ltac:(lra)) as C1.
  pose proof (P (39 * a + 39 * b + 39 * d - 61 * c)%Q ltac:(lra)) as C2.
  pose proof (P (58 * d - 42 * a - 42 * b - 42 * c)%Q ltac:(lra)) as D1.
  pose proof (P (64 * a + 64 * b + 64 * c - 36 * d)%Q ltac:(lra)) as D2.
  pose proof (P (c - a)%Q ltac:(lra)) as O1.
  pose proof (P (d - c)%Q ltac:(lra)) as O2.
  unfold totalOf. cbn [fold_right snd]. rewrite E0.
  repeat split; lra.
Qed.

Lemma calculateLandPercentages_total_witness :
  exists water roads vegetation urban other : Q,
    calculateLandPercentages (1 # 2) 0 (1 # 4) (3 # 4)
    = [("Water Bodies", water); ("Roads", roads); ("Vegetation", vegetation);
       ("Urban Areas", urban); ("Other", other)] /\
    (7 <= water <= 19)%Q /\ (3 <= roads <= 11)%Q /\
    (20 <= vegetation <= 39)%Q /\ (42 <= urban <= 64)%Q /\
    (0 <= other <= 1)%Q /\
    (water <= vegetation <= urban)%Q /\
    (99 <= totalOf (calculateLandPercentages (1 # 2) 0 (1 # 4) (3 # 4))
     <= 101)%Q.
Proof.
  apply (calculateLandPercentages_total (1 # 2) 0 (1 # 4) (3 # 4));
    split; (discriminate || reflexivity).
Defined.

End MapControls.

(** ** [MapSection]: more on the insights and the capture *)

Section MapSectionMore.

Import MapSection.
Local Open Scope string_scope.
Local Open Scope list_scope.

(** X5: without a map, or without any topic (none selected and the custom
    topic blank), [handleGetInsights] only shows the message that asks
    for a topic: the service is not called, the loading flag and the
    insights shown are left alone. *)
Theorem handleGetInsights_needs_topic (br : Browser) (ai : InsightsService)
  (s : State) :
  mapInstance s = None \/ allTopicsOf s = [] ->
  handleGetInsights br ai s
  = (withInsights s (insights s) (isInsightsLoading s) (Some noTopicMessage),
     [], inl tt).
Proof.
  intros H. unfold handleGetInsights. fold (allTopicsOf s).
  destruct (mapInstance s) as [map|]; [|reflexivity].
  destruct H as [H|H]; [discriminate|]. now rewrite H.
Qed.

Lemma handleGetInsights_needs_topic_witness :
  traceOf (handleGetInsights (Sample.browser Sample.allTilesLoad)
             (fun _ _ _ => inl [])
             (mkState (Some (Sample.simpleMap 10 800 600)) 0 None None false
                None [] "   " false None))
  = [].
Proof.
  rewrite handleGetInsights_needs_topic; [reflexivity|]. right. reflexivity.
Defined.

(** X6: with a map and a topic, [handleGetInsights] calls the service once,
    with the selected topics and the trimmed custom topic apart; it
    ends with the loading flag cleared, and shows the insights and no
    error when the service answers, or no insights and the failure
    message when it throws. *)
Theorem handleGetInsights_outcome (br : Browser) (ai : InsightsService)
  (s : State) (map : L.Map) :
  mapInstance s = Some map -> allTopicsOf s <> [] ->
  let run := handleGetInsights br ai s in
  let box := L.toBounds (cosDeg br) (L.mapCenter map) (10000 * 2) in
  filter isInsightsCall (traceOf run)
  = [GetMapInsights box (selectedTopics s) (trim (customTopic s))] /\
  stateOf run
  = match ai box (selectedTopics s) (trim (customTopic s)) with
    | inl result => withInsights s (Some result) false None
    | inr _ => withInsights s None false (Some insightsFailedMessage)
    end /\
  snd run = inl tt.
Proof.
  intros Hm Hn run box. subst run.
  unfold handleGetInsights. fold (allTopicsOf s). rewrite Hm.
  destruct (allTopicsOf s) as [|t ts]; [contradiction|].
  unfold setIsInsightsLoading, setInsightsError, setInsights,
    tryCatchFinally, finally, catch, getMapInsights, bind, modify, emit,
    traceOf, stateOf.
  fold box. cbn [fst snd app].
  destruct (ai box (selectedTopics s) (trim (customTopic s)));
    repeat split.
Qed.

Lemma handleGetInsights_outcome_witness :
  let s := mkState (Some (Sample.simpleMap 10 800 600)) 0 None None false
             None ["tourism"] " rivers " false None in
  insights (stateOf (handleGetInsights (Sample.browser Sample.allTilesLoad)
                       (fun _ _ _ => inr "quota") s))
  = None.
Proof.
  intros s.
  destruct (handleGetInsights_outcome (Sample.browser Sample.allTilesLoad)
              (fun _ _ _ => inr "quota") s (Sample.simpleMap 10 800 600)
              eq_refl) as [_ [H _]].
  - discriminate.
  - now rewrite H.
Defined.

(** X7: without a 2D context for the stitch canvas, a capture stops before
    it requests any tile: the effects of the handler are the flag set,
    the fit of the map, the wait, the making of the canvas, the logged
    error and the flag cleared; it returns normally and leaves the flag
    cleared and the capture error shown. *)
Theorem capture_without_context (br : Browser) (s : State) (map : L.Map)
  (ab : L.LatLngBounds) :
  mapInstance s = Some map -> analysisBounds s = Some ab ->
  hasArea map ab = true -> stitchContext br = false ->
  let run := handleAnalyzeMapView br s in
  traceOf run
  = [SetIsMapViewLoading true; FitBounds ab; Wait 500;
     CreateCanvas (width (stitchCanvasOf map ab))
                  (height (stitchCanvasOf map ab));
     ConsoleError "Failed to analyze map view: Could not get canvas context";
     SetIsMapViewLoading false] /\
  snd run = inl tt /\
  isMapViewLoading (stateOf run) = false /\
  mapViewError (stateOf run) = Some captureFailedMessage.
Proof.
  intros Hm Hb Ha Hc run. subst run.
  rewrite (handle_run br map ab s Hm Hb). cbv zeta.
  rewrite (capture_no_context br map ab (loadingState s) Ha Hc).
  repeat split.
Qed.

Lemma capture_without_context_witness :
  let br := mkBrowser Sample.allTilesLoad false true (fun p _ => p)
              (fun c _ _ _ _ => canvasPixel c 0 0) (fun _ _ => None)
              Sample.cosTable in
  let s := Sample.stateWith (Some (Sample.simpleMap 10 800 600)) 100
             (Some Sample.square512) in
  filter isRequest (traceOf (handleAnalyzeMapView br s)) = [].
Proof.
  intros br s.
  destruct (capture_without_context br s (Sample.simpleMap 10 800 600)
              Sample.square512 eq_refl eq_refl) as [T _];
    [vm_compute; reflexivity | reflexivity |].
  rewrite T. reflexivity.
Defined.

(** X8: without a 2D context for the final canvas, every tile has been
    requested and one draw has been made per tile, but nothing is
    scaled onto any size and nothing is handed on; the handler leaves
    the flag cleared and the capture error shown. *)
Theorem capture_without_final_context (br : Browser) (s : State)
  (map : L.Map) (ab : L.LatLngBounds) :
  mapInstance s = Some map -> analysisBounds s = Some ab ->
  hasArea map ab = true -> stitchContext br = true ->
  allLoad br map ab -> finalContext br = false ->
  let run := handleAnalyzeMapView br s in
  let pb := pixelBoundsOf map ab in
  filter isRequest (traceOf run) = requestEvents (L.mapZoom map) (tileIndices pb) /\
  List.length (filter isDraw (traceOf run)) = List.length (tileIndices pb) /\
  filter isDispatch (traceOf run) = [] /\
  (forall w h, ~ In (ScaleOnto w h) (traceOf run)) /\
  isMapViewLoading (stateOf run) = false /\
  mapViewError (stateOf run) = Some captureFailedMessage.
Proof.
  intros Hm Hb Ha Hc Hall Hf run pb.
  destruct (capture_no_final_context br map ab (loadingState s) Ha Hc Hall Hf)
    as [tiles [E R]].
  assert (S0 : run
               = (settledState s (Some captureFailedMessage),
                  SetIsMapViewLoading true
                  :: (uptoRequests map ab ++ List.map (drawEvent pb) tiles
                      ++ [CreateCanvas (width (finalCanvasOf map))
                                       (height (finalCanvasOf map))])
                     ++ [ConsoleError
                           "Failed to analyze map view: Could not get final canvas context";
                         SetIsMapViewLoading false],
                  inl tt)).
  { subst run. rewrite (handle_run br map ab s Hm Hb). cbv zeta.
    rewrite R. reflexivity. }
  rewrite S0. unfold traceOf, stateOf, uptoRequests. cbn [fst snd]. fold pb.
  assert (D : filter isDraw (List.map (drawEvent pb) tiles)
              = List.map (drawEvent pb) tiles)
    by (clear; induction tiles; simpl; congruence).
  split; [|split; [|split; [|split; [|split]]]].
  - cbn [app filter isRequest]. rewrite !filter_app.
    rewrite requestEvents_only_requests, drawEvents_no_request.
    cbn [app filter isRequest]. now rewrite !app_nil_r.
  - cbn [app filter isDraw]. rewrite !filter_app.
    rewrite requestEvents_no_draw, D.
    cbn [app filter isDraw]. rewrite !app_nil_r, length_map.
    rewrite <- (length_map (@inl Tile string) tiles), E. apply length_map.
  - cbn [app filter isDispatch]. rewrite !filter_app.
    rewrite requestEvents_no_dispatch, drawEvents_no_dispatch. reflexivity.
  - intros w h [H|H]; [discriminate H|].
    repeat (apply in_app_or in H; destruct H as [H|H]).
    + destruct H as [H|[H|[H|[]]]]; discriminate H.
    + unfold requestEvents in H. apply in_map_iff in H.
      destruct H as [t [H _]]. discriminate H.
    + apply in_map_iff in H. destruct H as [t [H _]]. discriminate H.
    + destruct H as [H|[]]; discriminate H.
    + destruct H as [H|[H|[]]]; discriminate H.
  - reflexivity.
  - reflexivity.
Qed.

Lemma capture_without_final_context_witness :
  let br := mkBrowser Sample.allTilesLoad true false (fun p _ => p)
              (fun c _ _ _ _ => canvasPixel c 0 0) (fun _ _ => None)
              Sample.cosTable in
  let s := Sample.stateWith (Some (Sample.simpleMap 10 800 600)) 100
             (Some Sample.square512) in
  filter isDispatch (traceOf (handleAnalyzeMapView br s)) = [].
Proof.
  intros br s.
  assert (Ha : hasArea (Sample.simpleMap 10 800 600) Sample.square512 = true)
    by (vm_compute; reflexivity).
  assert (Hall : allLoad br (Sample.simpleMap 10 800 600) Sample.square512)
    by (intros t _ L; discriminate L).
  apply (capture_without_final_context br s (Sample.simpleMap 10 800 600)
           Sample.square512 eq_refl eq_refl Ha eq_refl Hall eq_refl).
Defined.

Lemma loadedTiles_all (br : Browser) (zoom : Z) (ts : list TileIndex) :
  (forall t, In t ts -> loadImage br (tileUrl zoom t) <> None) ->
  List.map indexOf (loadedTiles br zoom ts) = ts.
Proof.
  intros H. unfold indexOf.
  rewrite (loadedTiles_index br (L.mkMap (L.latLng 0 0) zoom (L.point 0 0)
                                   (fun _ _ => L.point 0 0))).
  cbn [L.mapZoom].
  induction ts as [|t ts IH]; [reflexivity|]. simpl.
  unfold settled at 1.
  destruct (loadImage br (tileUrl zoom t)) eqn:E.
  - f_equal. apply IH. intros u Hu. apply H. now right.
  - exfalso. apply (H t); [now left | exact E].
Qed.

(** X9: in a capture in which every tile loads and both contexts exist,
    the tiles drawn on the stitch canvas are exactly the tiles
    requested, each once and in the order of the requests, each with
    its top-left corner at [index * 256 - pixelBounds.min]. *)
Theorem capture_draws_what_it_requests (br : Browser) (s : State)
  (map : L.Map) (ab : L.LatLngBounds) :
  mapInstance s = Some map -> analysisBounds s = Some ab ->
  hasArea map ab = true -> stitchContext br = true ->
  allLoad br map ab -> finalContext br = true ->
  let run := handleAnalyzeMapView br s in
  let pb := pixelBoundsOf map ab in
  filter isRequest (traceOf run)
  = requestEvents (L.mapZoom map) (tileIndices pb) /\
  filter isDraw (traceOf run) = List.map (drawOf pb) (tileIndices pb).
Proof.
  intros Hm Hb Ha Hc Hall Hf run pb.
  pose proof (capture_run_loaded br map ab (loadingState s) Ha Hc Hall Hf)
    as R. cbv zeta in R. fold pb in R.
  set (tiles := loadedTiles br (L.mapZoom map) (tileIndices pb)) in *.
  assert (D : List.map (drawEvent pb) tiles
              = List.map (drawOf pb) (tileIndices pb)).
  { transitivity (List.map (drawOf pb) (List.map indexOf tiles)).
    - now rewrite map_map.
    - f_equal. exact (loadedTiles_all br (L.mapZoom map) (tileIndices pb) Hall). }
  assert (FD : filter isDraw (List.map (drawOf pb) (tileIndices pb))
               = List.map (drawOf pb) (tileIndices pb))
    by (clear; induction (tileIndices pb); simpl; congruence).
  assert (FR : filter isRequest (List.map (drawOf pb) (tileIndices pb)) = [])
    by (clear; induction (tileIndices pb); simpl; congruence).
  rewrite D in R.
  assert (T : exists tail,
             traceOf run
             = SetIsMapViewLoading true
               :: (uptoRequests map ab
                   ++ List.map (drawOf pb) (tileIndices pb)) ++ tail /\
             filter isRequest tail = [] /\ filter isDraw tail = []).
  { subst run. rewrite (handle_run br map ab s Hm Hb). cbv zeta.
    rewrite R. unfold traceOf.
    destruct (scaledOf br map ab) as [scaled|e]; cbn [fst snd].
    - eexists. split; [rewrite <- !app_assoc; reflexivity|].
      unfold encodeEvents, encodeExit.
      destruct (toBlob br scaled "image/png"); split; reflexivity.
    - eexists. split; [rewrite <- !app_assoc; reflexivity|].
      split; reflexivity. }
  destruct T as [tail [T [TR TD]]]. rewrite T. unfold uptoRequests. fold pb.
  split.
  - cbn [app filter isRequest]. rewrite !filter_app.
    rewrite requestEvents_only_requests, FR, TR. now rewrite !app_nil_r.
  - cbn [app filter isDraw]. rewrite !filter_app.
    rewrite requestEvents_no_draw, FD, TD. now rewrite app_nil_r.
Qed.

Lemma capture_draws_what_it_requests_witness :
  let br := Sample.browser Sample.allTilesLoad in
  let map := Sample.simpleMap 10 800 600 in
  let s := Sample.stateWith (Some map) 100 (Some Sample.square512) in
  filter isDraw (traceOf (handleAnalyzeMapView br s))
  = List.map (drawOf (pixelBoundsOf map Sample.square512))
      (tileIndices (pixelBoundsOf map Sample.square512)).
Proof.
  intros br map s.
  assert (Ha : hasArea map Sample.square512 = true)
    by (vm_compute; reflexivity).
  assert (Hall : allLoad br map Sample.square512)
    by (intros t _ L; discriminate L).
  apply (capture_draws_what_it_requests br s map Sample.square512
           eq_refl eq_refl Ha eq_refl Hall eq_refl).
Defined.

(** X10: a capture never writes the map instance, the radius, the
    insights panel, the selected topics or the custom topic: these
    cells are as before, whatever the browser does.  (The analysis
    bounds are left out: the fit of the map makes the map call its
    move listeners, which set them again.) *)
Theorem handleAnalyzeMapView_frame (br : Browser) (s : State) :
  let after := stateOf (handleAnalyzeMapView br s) in
  mapInstance after = mapInstance s /\ radius after = radius s /\
  insights after = insights s /\
  isInsightsLoading after = isInsightsLoading s /\
  insightsError after = insightsError s /\
  selectedTopics after = selectedTopics s /\
  customTopic after = customTopic s.
Proof.
  intros after. subst after.
  destruct (mapInstance s) as [map|] eqn:Hm;
    [destruct (analysisBounds s) as [ab|] eqn:Hb|].
  - rewrite (handle_run br map ab s Hm Hb). cbv zeta.
    unfold stateOf, settledState. cbn. now rewrite Hm.
  - unfold handleAnalyzeMapView. rewrite Hm, Hb. unfold stateOf. cbn [fst ret].
    now rewrite Hm.
  - unfold handleAnalyzeMapView. rewrite Hm. unfold stateOf. cbn [fst ret].
    now rewrite Hm.
Qed.

Lemma capture_starts_with_fit (br : Browser) (map : L.Map)
  (ab : L.LatLngBounds) (s : State) :
  exists rest, traceOf (capture br map ab s) = FitBounds ab :: rest.
Proof.
  unfold capture. rewrite run_emit.
  match goal with |- context [prepend _ ?r] => destruct r as [[s1 l1] r1] end.
  now exists l1.
Qed.

(** X11: the region selector and the capture together: after
    [updateAnalysisBounds] with a radius that is not positive, "Analyze
    Map Area" does nothing at all; with a positive radius it sets the
    flag and fits the map to the box of [2 * radius] metres around the
    centre of the map. *)
Theorem capture_after_selection (br : Browser) (s : State) (map : L.Map) :
  mapInstance s = Some map ->
  let selected := stateOf (updateAnalysisBounds br s) in
  (~ (0 < radius s)%Q ->
   handleAnalyzeMapView br selected = (selected, [], inl tt)) /\
  ((0 < radius s)%Q ->
   exists rest,
     traceOf (handleAnalyzeMapView br selected)
     = SetIsMapViewLoading true
       :: FitBounds (L.toBounds (cosDeg br) (L.mapCenter map) (radius s * 2))
       :: rest).
Proof.
  intros Hm selected. subst selected. unfold updateAnalysisBounds.
  rewrite Hm. split; intros Hr.
  - destruct (Qlt_bool 0 (radius s)) eqn:E;
      [apply Qlt_bool_iff in E; contradiction|].
    unfold handleAnalyzeMapView, setAnalysisBounds, modify, stateOf.
    cbn [fst mapInstance analysisBounds]. now rewrite Hm.
  - apply Qlt_bool_iff in Hr. rewrite Hr.
    set (box := L.toBounds (cosDeg br) (L.mapCenter map) (radius s * 2)).
    set (s1 := stateOf (setAnalysisBounds (Some box) s)).
    assert (M1 : mapInstance s1 = Some map) by exact Hm.
    assert (B1 : analysisBounds s1 = Some box) by reflexivity.
    rewrite (handle_run br map box s1 M1 B1). cbv zeta.
    destruct (capture_starts_with_fit br map box (loadingState s1))
      as [rest R].
    unfold traceOf in *. cbn [fst snd]. rewrite R.
    eexists. reflexivity.
Qed.

Lemma capture_after_selection_witness :
  let br := Sample.browser Sample.allTilesLoad in
  let map := Sample.simpleMap 10 800 600 in
  let s0 := Sample.stateWith (Some map) 0 (Some Sample.square512) in
  let s5 := Sample.stateWith (Some map) 500 None in
  traceOf (handleAnalyzeMapView br (stateOf (updateAnalysisBounds br s0))) = []
  /\ exists rest,
       traceOf (handleAnalyzeMapView br (stateOf (updateAnalysisBounds br s5)))
       = SetIsMapViewLoading true
         :: FitBounds (L.toBounds (cosDeg br) (L.mapCenter map) (500 * 2))
         :: rest.
Proof.
  intros br map s0 s5. split.
  - destruct (capture_after_selection br s0 map eq_refl) as [H _].
    rewrite H; [reflexivity | discriminate].
  - destruct (capture_after_selection br s5 map eq_refl) as [_ H].
    apply H. reflexivity.
Defined.

End MapSectionMore.

(** ** [getMapInsights]: topics, keys and schema *)

Section InsightsFacts.

Import Insights.
Local Open Scope list_scope.
Local Open Scope string_scope.

(** X12: the service rebuilds the list of topics that [handleGetInsights]
    checked before calling it: given the selected topics and the
    trimmed custom topic, [allTopics] is the list of the handler, so the
    service never works on an empty list of topics. *)
Theorem allTopics_of_handler (s : MapSection.State) :
  allTopics (MapSection.selectedTopics s)
    (Some (trim (MapSection.customTopic s)))
  = MapSection.allTopicsOf s /\
  (MapSection.allTopicsOf s = []
   <-> MapSection.selectedTopics s = []
       /\ trim (MapSection.customTopic s) = EmptyString).
Proof.
  unfold allTopics, MapSection.allTopicsOf. rewrite trim_idem.
  rewrite <- truthy_eqb, andb_diag. split; [reflexivity|].
  destruct (trim (MapSection.customTopic s)) as [|c r]; simpl.
  - tauto.
  - split; [|intros [_ H]; discriminate H].
    intros H. now apply app_eq_nil in H.
Qed.

Lemma notSpace_trimEnd (s : string) :
  allChars (fun c => negb (isWhiteSpace c)) s = true -> trimEnd s = s.
Proof.
  induction s as [|c r IH]; [reflexivity|]. simpl. intros H.
  apply andb_true_iff in H. destruct H as [Hc Hr].
  rewrite (IH Hr). apply negb_true_iff in Hc. rewrite Hc. now destruct r.
Qed.

Lemma notSpace_trim (s : string) :
  allChars (fun c => negb (isWhiteSpace c)) s = true -> trim s = s.
Proof.
  intros H. unfold trim.
  assert (T : trimStart s = s).
  { destruct s as [|c r]; [reflexivity|]. simpl in *.
    apply andb_true_iff in H. destruct H as [Hc _].
    apply negb_true_iff in Hc. now rewrite Hc. }
  rewrite T. now apply notSpace_trimEnd.
Qed.

Lemma notSpace_spaceRuns (b : bool) (s : string) :
  allChars (fun c => negb (isWhiteSpace c)) s = true ->
  replaceSpaceRunsFrom b s = s.
Proof.
  revert b. induction s as [|c r IH]; intros b H; [reflexivity|].
  simpl in *. apply andb_true_iff in H. destruct H as [Hc Hr].
  apply negb_true_iff in Hc. rewrite Hc. f_equal. now apply IH.
Qed.

Lemma spaceRuns_notSpace (b : bool) (s : string) :
  allChars (fun c => negb (isWhiteSpace c)) (replaceSpaceRunsFrom b s) = true.
Proof.
  revert b. induction s as [|c r IH]; intros b; [reflexivity|]. simpl.
  destruct (isWhiteSpace c) eqn:W.
  - destruct b; [apply IH|]. simpl. apply IH.
  - simpl. rewrite W. apply IH.
Qed.

Lemma spaceRuns_lower (b : bool) (s : string) :
  toLowerCase (replaceSpaceRunsFrom b (toLowerCase s))
  = replaceSpaceRunsFrom b (toLowerCase s).
Proof.
  revert b. induction s as [|c r IH]; intros b; [reflexivity|].
  unfold toLowerCase in *. simpl.
  destruct (isWhiteSpace (toLowerChar c)).
  - destruct b; [apply IH|]. simpl. f_equal. apply IH.
  - simpl. rewrite toLowerChar_idem. f_equal. apply IH.
Qed.

(** X13: the key of a topic has no white space, is in lower case, and is
    its own key. *)
Theorem topicKey_normal (topic : string) :
  allChars (fun c => negb (isWhiteSpace c)) (topicKey topic) = true /\
  toLowerCase (topicKey topic) = topicKey topic /\
  topicKey (topicKey topic) = topicKey topic.
Proof.
  assert (N : allChars (fun c => negb (isWhiteSpace c)) (topicKey topic) = true)
    by apply spaceRuns_notSpace.
  assert (L0 : toLowerCase (topicKey topic) = topicKey topic)
    by apply spaceRuns_lower.
  split; [exact N|]. split; [exact L0|].
  unfold topicKey at 1. rewrite (notSpace_trim _ N), L0.
  now apply notSpace_spaceRuns.
Qed.

(** X14: the entry of a topic in the prompt is quoted under the same key as
    the one the response schema declares for it, also for the topic
    [safety], which has a text of its own. *)
Theorem topicPrompt_key (topic : string) :
  exists text,
    topicPrompt topic
    = quote ++ topicKey topic ++ quote ++ ": " ++ quote ++ text ++ quote.
Proof.
  unfold topicPrompt.
  destruct (String.eqb_spec (toLowerCase topic) "safety") as [E|_].
  - exists safetyText.
    assert (K : topicKey topic = "safety").
    { unfold topicKey. now rewrite <- trim_lower, E. }
    now rewrite K.
  - exists ("A concise, one-paragraph analysis for the topic: " ++ topic ++ ".").
    now rewrite !string_app_assoc.
Qed.

Lemma setOwn_keys {V} (key : string) (value : V) (obj : list (string * V)) :
  objectKeys (setOwn key value obj)
  = if existsb (String.eqb key) (objectKeys obj)
    then objectKeys obj else (objectKeys obj ++ [key])%list.
Proof.
  induction obj as [|[k v] obj IH]; [reflexivity|].
  unfold objectKeys in *. simpl.
  rewrite (String.eqb_sym key k). destruct (String.eqb k key); simpl.
  - reflexivity.
  - rewrite IH. now destruct (existsb (String.eqb key) (List.map fst obj)).
Qed.

Lemma addTopic_invariant (acc : Schema) (topic : string) :
  NoDup (objectKeys (fst acc)) ->
  (forall k, In k (objectKeys (fst acc))
             <-> In k (snd acc) /\ k <> "__proto__") ->
  NoDup (objectKeys (fst (addTopic acc topic))) /\
  (forall k, In k (objectKeys (fst (addTopic acc topic)))
             <-> In k (snd (addTopic acc topic)) /\ k <> "__proto__").
Proof.
  intros ND EQ. unfold addTopic.
  destruct (truthy (topicKey topic)); [|now split].
  cbn [fst snd]. unfold objectSet.
  destruct (String.eqb_spec (topicKey topic) "__proto__") as [P|P].
  - split; [exact ND|]. intros k. rewrite in_app_iff, EQ. simpl.
    split; [tauto|]. intros [[H|[<-|[]]] N]; [tauto | contradiction].
  - rewrite setOwn_keys.
    destruct (existsb (String.eqb (topicKey topic)) (objectKeys (fst acc)))
      eqn:E.
    + split; [exact ND|]. intros k. rewrite in_app_iff. simpl.
      apply existsb_eqb_In in E. split.
      * intros H. apply EQ in H. tauto.
      * intros [[H|[<-|[]]] N]; [apply EQ; tauto | exact E].
    + assert (N : ~ In (topicKey topic) (objectKeys (fst acc)))
        by (rewrite <- existsb_eqb_In, E; discriminate).
      split.
      * apply NoDup_app; [exact ND | repeat constructor; intros [] |].
        intros k Hk [<-|[]]. contradiction.
      * intros k. rewrite !in_app_iff, EQ. simpl. split.
        -- intros [H|[<-|[]]]; tauto.
        -- tauto.
Qed.

Lemma responseSchema_required (topics : list string) (acc : Schema) :
  snd (fold_left addTopic topics acc)
  = (snd acc ++ filter truthy (List.map topicKey topics))%list.
Proof.
  revert acc. induction topics as [|t ts IH]; intros acc; simpl.
  - now rewrite app_nil_r.
  - rewrite IH. unfold addTopic.
    destruct (truthy (topicKey t)); cbn [snd]; [|reflexivity].
    now rewrite <- app_assoc.
Qed.

(** X15: the required fields of the response schema are [district]
    followed by the non-empty keys of the topics in their order; every
    declared property is a required field, and every required field is
    a declared property except [__proto__], which the assignment to the
    object of the properties never declares; no property is declared
    twice, also when two topics have the same key. *)
Theorem responseSchema_consistent (topics : list string) :
  let schema := responseSchema topics in
  snd schema = "district" :: filter truthy (List.map topicKey topics) /\
  NoDup (objectKeys (fst schema)) /\
  (forall k, In k (objectKeys (fst schema))
             <-> In k (snd schema) /\ k <> "__proto__") /\
  (In "__proto__" (List.map topicKey topics) ->
   In "__proto__" (snd schema) /\ ~ In "__proto__" (objectKeys (fst schema))).
Proof.
  intros schema. subst schema. unfold responseSchema.
  split; [apply responseSchema_required|].
  assert (G : forall ts acc,
             NoDup (objectKeys (fst acc)) ->
             (forall k, In k (objectKeys (fst acc))
                        <-> In k (snd acc) /\ k <> "__proto__") ->
             NoDup (objectKeys (fst (fold_left addTopic ts acc))) /\
             (forall k, In k (objectKeys (fst (fold_left addTopic ts acc)))
                        <-> In k (snd (fold_left addTopic ts acc))
                            /\ k <> "__proto__")).
  { induction ts as [|t ts IH]; intros acc ND EQ; [now split|].
    simpl. destruct (addTopic_invariant acc t ND EQ) as [ND' EQ'].
    now apply IH. }
  destruct (G topics schemaStart) as [ND EQ].
  - repeat constructor. intros [].
  - intros k. simpl. split; [|tauto].
    intros [<-|[]]. split; [now left | discriminate].
  - split; [exact ND|]. split; [exact EQ|].
    intros H. split.
    + rewrite responseSchema_required. simpl. right.
      apply filter_In. split; [exact H | reflexivity].
    + intros K. apply EQ in K. now destruct K.
Qed.

Lemma responseSchema_consistent_witness :
  In "__proto__" (snd (responseSchema ["Rivers"; "__proto__"])) /\
  ~ In "__proto__" (objectKeys (fst (responseSchema ["Rivers"; "__proto__"]))).
Proof.
  apply (responseSchema_consistent ["Rivers"; "__proto__"]).
  right. left. reflexivity.
Defined.

End InsightsFacts.

(** ** The segmentation response: what the patterns extract *)

Section ExtractionFacts.

Import Analysis.
Local Open Scope list_scope.
Local Open Scope string_scope.

Lemma noBrace_iff (s : string) :
  longestUpToBrace (fun _ => true) s = None <-> allChars (notChar "}") s = true.
Proof.
  induction s as [|c r IH]; simpl; [tauto|]. unfold notChar at 1.
  destruct (longestUpToBrace (fun _ => true) r).
  - split; [discriminate|]. intros H. apply andb_true_iff in H.
    destruct H as [_ H]. apply IH in H. discriminate H.
  - rewrite andb_true_r. destruct (Ascii.eqb c "}"); simpl.
    + split; discriminate.
    + split; [intros _; now apply IH | reflexivity].
Qed.

(** What the greedy scan returns is a prefix that ends in a closing
    brace, and the rest is accepted. *)
Lemma longestUpToBrace_some (after : string -> bool) (s b : string) :
  longestUpToBrace after s = Some b ->
  exists post, s = b ++ post /\ lastChar b = Some "}"%char /\
               after post = true /\
               longestUpToBrace after post = None.
Proof.
  revert b. induction s as [|c r IH]; intros b H; [discriminate|].
  simpl in H. destruct (longestUpToBrace after r) as [b'|] eqn:E.
  - injection H as <-. destruct (IH b' eq_refl) as [post [-> [L [A N]]]].
    exists post. repeat split; try assumption.
    simpl. destruct b'; [discriminate L | exact L].
  - destruct (Ascii.eqb c "}") eqn:C; [|discriminate].
    destruct (after r) eqn:A; [|discriminate]. injection H as <-.
    apply Ascii.eqb_eq in C. subst c. exists r. now repeat split.
Qed.

Lemma matchBraces_some (s j : string) :
  matchBraces s = Some j ->
  startsWithBrace j = true /\ lastChar j = Some "}"%char.
Proof.
  induction s as [|c r IH]; [discriminate|]. cbn [matchBraces].
  destruct (Ascii.eqb c "{") eqn:C; [|exact IH].
  intros E. destruct (longestUpToBrace_some _ _ _ E) as [post [S0 [L _]]].
  split; [|exact L]. destruct j as [|x j]; [discriminate L|].
  simpl in S0. injection S0 as <- _. exact C.
Qed.

(** X16: the plain pattern takes the text from its first opening brace to
    its last closing brace: nothing before the match has an opening
    brace, nothing after it a closing brace; and it finds nothing
    exactly when no closing brace follows the first opening brace. *)
Theorem matchBraces_first_to_last (s : string) :
  match matchBraces s with
  | Some j =>
      exists pre post,
        s = pre ++ j ++ post /\
        allChars (notChar "{") pre = true /\
        allChars (notChar "}") post = true /\
        startsWithBrace j = true /\ lastChar j = Some "}"%char
  | None =>
      forall pre rest, s = pre ++ String "{" rest ->
                       allChars (notChar "}") rest = true
  end.
Proof.
  induction s as [|c r IH].
  - simpl. intros [|x pre] rest H; discriminate H.
  - cbn [matchBraces]. destruct (Ascii.eqb c "{") eqn:C.
    + apply Ascii.eqb_eq in C. subst c.
      destruct (longestUpToBrace (fun _ => true) (String "{" r)) as [j|] eqn:E.
      * destruct (longestUpToBrace_some _ _ _ E) as [post [S0 [L [_ N]]]].
        exists EmptyString, post. repeat split; try assumption.
        -- now apply noBrace_iff.
        -- destruct j as [|x j]; [discriminate L|].
           simpl in S0. injection S0 as <- _. reflexivity.
      * intros pre rest H. apply noBrace_iff.
        assert (Sx : suffixOf (String "{" rest) (String "{" r)).
        { rewrite H. clear. induction pre; simpl; now constructor. }
        apply (noBrace_tail "{"). exact (noBrace_suffix _ _ Sx E).
    + destruct (matchBraces r) as [j|].
      * destruct IH as [pre [post [-> [P1 [P2 [B L]]]]]].
        exists (String c pre), post. repeat split; try assumption.
        simpl. unfold notChar at 1. now rewrite C.
      * intros [|x pre] rest H; simpl in H.
        -- injection H as -> _. discriminate C.
        -- injection H as _ H. now apply (IH pre).
Qed.

Lemma matchBraces_first_to_last_witness :
  allChars (notChar "}") "b" = true.
Proof.
  exact (matchBraces_first_to_last "a{b" "a" "b" eq_refl).
Defined.

(** X17: whichever pattern matched, the text taken for [JSON.parse] starts
    with an opening brace and ends with a closing brace, so it is never
    empty; and a fenced block, when there is one, is preferred to the
    braces of the whole text. *)
Theorem extractJson_shape (t j : string) :
  extractJson t = Some j ->
  startsWithBrace j = true /\ lastChar j = Some "}"%char /\
  truthy j = true /\
  (forall g, matchFenced t = Some g -> j = g).
Proof.
  intros H.
  assert (F : forall g, matchFenced t = Some g ->
                        startsWithBrace g = true /\ lastChar g = Some "}"%char).
  { intros g Hg. destruct (matchFenced_some t g Hg) as [u [_ [B L]]].
    destruct (longestUpToBrace_some _ _ _ L) as [post [-> [Lc _]]].
    split; [|exact Lc]. destruct g; [discriminate Lc | exact B]. }
  assert (T : forall g, startsWithBrace g = true -> truthy g = true)
    by (intros [|x g]; [discriminate | reflexivity]).
  unfold extractJson in H.
  destruct (matchFenced t) as [g|] eqn:Fg.
  - destruct (F g eq_refl) as [B L]. rewrite (T g B) in H.
    injection H as <-. repeat split; auto. now intros g' [= <-].
  - destruct (matchBraces_some t j H) as [B L].
    repeat split; auto. discriminate.
Qed.

Lemma extractJson_shape_witness :
  startsWithBrace "{1}" = true /\ lastChar "{1}" = Some "}"%char /\
  truthy "{1}" = true /\ "{1}" = "{1}".
Proof.
  destruct (extractJson_shape "see ```json {1} ``` or {2}" "{1}" eq_refl)
    as [B [L [T F]]].
  exact (conj B (conj L (conj T (F "{1}" eq_refl)))).
Defined.

End ExtractionFacts.

(** ** The segmentation call and [handleAnalysis]: the other paths *)

Section AnalysisMore.

Import Analysis.
Local Open Scope list_scope.
Local Open Scope string_scope.

Lemma scan_after_last_image (back : list Part) (acc : Scan) :
  forallb (fun q => negb (isImagePart q)) back = true ->
  scanImage (fold_left scanPart back acc) = scanImage acc /\
  scanMimeType (fold_left scanPart back acc) = scanMimeType acc.
Proof.
  revert acc. induction back as [|q back IH]; intros acc H; [now split|].
  simpl in H. apply andb_true_iff in H. destruct H as [Hq Hb].
  simpl. destruct (IH (scanPart acc q) Hb) as [I1 I2]. rewrite I1, I2.
  unfold scanPart, isImagePart in *. destruct (textOf q) as [t|].
  - now destruct (extractJson t).
  - destruct (inlineData q); [discriminate Hq | now split].
Qed.

(** X18: the segmented image is that of the last image part of the
    response, with the MIME type of that same part; without an image
    part it stays empty with the default type.  A part that carries
    text is never read as an image, even when it has inline data. *)
Theorem scan_takes_last_image (response : GenerateContentResponse) :
  let sc := scanResponse response in
  (forall front p d back,
      firstParts response = (front ++ p :: back)%list ->
      textOf p = None -> inlineData p = Some d ->
      forallb (fun q => negb (isImagePart q)) back = true ->
      scanImage sc = data d /\ scanMimeType sc = mimeType d) /\
  (forallb (fun q => negb (isImagePart q)) (firstParts response) = true ->
   scanImage sc = EmptyString /\ scanMimeType sc = "image/png").
Proof.
  intros sc. subst sc. unfold scanResponse, firstParts.
  destruct (candidates response) as [[|c cs]|].
  - split; [|now split]. intros [|x front] p d back H; discriminate H.
  - split.
    + intros front p d back H T D B. rewrite H, fold_left_app. simpl.
      destruct (scan_after_last_image back
                  (scanPart (fold_left scanPart front scanStart) p) B)
        as [I1 I2].
      rewrite I1, I2. unfold scanPart. rewrite T, D. now split.
    + intros B. exact (scan_after_last_image (parts c) scanStart B).
  - split; [|now split]. intros [|x front] p d back H; discriminate H.
Qed.

Lemma scan_takes_last_image_witness :
  scanImage
    (scanResponse
       (mkResponse
          (Some [mkCandidate
                   [mkPart None (Some (mkInlineData "image/jpeg" "AAA"));
                    imagePart; jsonPart]])))
  = "iVBORw0KGgo=".
Proof.
  apply (proj1 (scan_takes_last_image _)
           [mkPart None (Some (mkInlineData "image/jpeg" "AAA"))]
           imagePart (mkInlineData "image/png" "iVBORw0KGgo=") [jsonPart]);
    reflexivity.
Defined.

(** X19: the service call asks the model exactly once, whatever follows,
    and leaves the state of the component alone.  An error of the model
    is passed on as it is; a response with both parts whose JSON does
    not parse fails with the parse error, not with a result. *)
Theorem analyzeImageForBiodiversity_paths (rt : Runtime)
  (base64Image mime : string) (s : State) :
  let run := analyzeImageForBiodiversity rt base64Image mime s in
  filter isModelCall (traceOf run) = [GenerateContent base64Image mime] /\
  stateOf run = s /\
  (forall e, generateContent rt base64Image mime = inr e -> snd run = inr e) /\
  (forall response,
      generateContent rt base64Image mime = inl response ->
      truthy (jsonString (scanResponse response)) = true ->
      truthy (scanImage (scanResponse response)) = true ->
      parseJSON rt (jsonString (scanResponse response)) = None ->
      snd run = inr parseFailedMessage).
Proof.
  intros run. subst run.
  destruct (generateContent rt base64Image mime) as [response|e] eqn:G.
  - rewrite (analyze_run rt base64Image mime response s G). cbv zeta.
    destruct (negb (truthy (jsonString (scanResponse response)))
              || negb (truthy (scanImage (scanResponse response)))) eqn:C.
    + repeat split; try discriminate.
      intros r [= <-] T1 T2. rewrite T1, T2 in C. discriminate C.
    + destruct (parseJSON rt (jsonString (scanResponse response))) eqn:P;
        repeat split; try discriminate.
      intros r [= <-] _ _ P'. rewrite P in P'. discriminate P'.
  - unfold analyzeImageForBiodiversity. unfold bind at 1. cbn [emit].
    rewrite G. repeat split; try discriminate. now intros e' [= <-].
Qed.

Lemma analyzeImageForBiodiversity_paths_witness :
  snd (analyzeImageForBiodiversity
         (mkRuntime (fun _ _ => inl completeResponse) (fun _ => None))
         "AAAA" "image/png" sampleState)
  = inr parseFailedMessage /\
  snd (analyzeImageForBiodiversity
         (mkRuntime (fun _ _ => inr "503") (fun _ => None))
         "AAAA" "image/png" sampleState)
  = inr "503".
Proof.
  split.
  - apply (analyzeImageForBiodiversity_paths
             (mkRuntime (fun _ _ => inl completeResponse) (fun _ => None))
             "AAAA" "image/png" sampleState) with (response := completeResponse);
      reflexivity.
  - apply (analyzeImageForBiodiversity_paths
             (mkRuntime (fun _ _ => inr "503") (fun _ => None))
             "AAAA" "image/png" sampleState).
    reflexivity.
Defined.

(** X20: without a selected image, [handleAnalysis] only shows the message
    that asks for one: the model is not called, the loading flag and
    the result are left alone, and the parent is told that the
    analysis is over exactly when it had started it. *)
Theorem handleAnalysis_without_image (rt : Runtime) (startAnalysis : bool)
  (s : State) :
  imageFile s = None ->
  handleAnalysis rt startAnalysis s
  = (mkState None (previewImage s) (analysisResult s) (isLoading s)
       (Some noImageMessage),
     if startAnalysis then [OnAnalysisComplete] else [],
     inl tt).
Proof.
  intros H. unfold handleAnalysis. rewrite H.
  unfold setError. rewrite run_modify. rewrite H.
  now destruct startAnalysis.
Qed.

Lemma handleAnalysis_without_image_witness :
  traceOf (handleAnalysis (sampleRuntime completeResponse) true
             (mkState None None None false None))
  = [OnAnalysisComplete].
Proof.
  now rewrite handleAnalysis_without_image.
Defined.

(** X21: when the preview of the image has no payload after its first comma
    (no comma at all, nothing after it, or no preview yet), the model is
    not called: the handler shows the failure message, leaves no result
    and clears the loading flag. *)
Theorem handleAnalysis_unreadable_preview (rt : Runtime)
  (startAnalysis : bool) (s : State) (file : File) :
  imageFile s = Some file ->
  base64Of (previewImage s) = None
  \/ base64Of (previewImage s) = Some EmptyString ->
  let run := handleAnalysis rt startAnalysis s in
  filter isModelCall (traceOf run) = [] /\
  stateOf run
  = mkState (imageFile s) (previewImage s) None false
      (Some analysisFailedMessage) /\
  filter isCompletion (traceOf run)
  = if startAnalysis then [OnAnalysisComplete] else [].
Proof.
  intros Hf Hb run. subst run.
  match goal with |- _ /\ _ = ?rhs /\ _ => set (final := rhs) end.
  unfold handleAnalysis. rewrite Hf.
  unfold setIsLoading, setError. rewrite !run_modify.
  unfold setAnalysisResult at 1. rewrite run_modify.
  cbn [imageFile previewImage analysisResult isLoading error].
  unfold tryCatchFinally, finally, catch, traceOf, stateOf.
  destruct Hb as [Hb|Hb]; rewrite Hb; subst final;
    destruct startAnalysis; repeat split.
Qed.

Lemma handleAnalysis_unreadable_preview_witness :
  filter isModelCall
    (traceOf (handleAnalysis (sampleRuntime completeResponse) false
                (mkState (Some (mkFile [] "a.png" "image/png"))
                   (Some "not a data url") None false None)))
  = [].
Proof.
  apply (handleAnalysis_unreadable_preview (sampleRuntime completeResponse)
           false
           (mkState (Some (mkFile [] "a.png" "image/png"))
              (Some "not a data url") None false None)
           (mkFile [] "a.png" "image/png") eq_refl).
  left. reflexivity.
Defined.

Lemma analyze_cases (rt : Runtime) (base64Image mime : string) (s : State) :
  exists l r,
    analyzeImageForBiodiversity rt base64Image mime s = (s, l, r) /\
    filter isModelCall l = [GenerateContent base64Image mime] /\
    filter isCompletion l = [].
Proof.
  destruct (generateContent rt base64Image mime) as [response|e] eqn:G.
  - rewrite (analyze_run rt base64Image mime response s G). cbv zeta.
    destruct (negb (truthy (jsonString (scanResponse response)))
              || negb (truthy (scanImage (scanResponse response)))).
    + eexists _, _. repeat split.
    + destruct (parseJSON rt (jsonString (scanResponse response)));
        eexists _, _; repeat split.
  - unfold analyzeImageForBiodiversity. unfold bind at 1. cbn [emit].
    rewrite G. eexists _, _. repeat split.
Qed.

Lemma handleAnalysis_run (rt : Runtime) (startAnalysis : bool) (s : State)
  (file : File) (base64Image : string) (l : list Event)
  (r : BiodiversityAnalysisResult + string) :
  imageFile s = Some file ->
  base64Of (previewImage s) = Some base64Image ->
  truthy base64Image = true ->
  analyzeImageForBiodiversity rt base64Image (fileType file) (busy s)
  = (busy s, l, r) ->
  handleAnalysis rt startAnalysis s
  = (mkState (imageFile s) (previewImage s)
       (match r with inl res => Some res | inr _ => None end)
       false
       (match r with inl _ => None | inr _ => Some analysisFailedMessage end),
     (l ++ (match r with inl _ => [] | inr e => [ConsoleError e] end)
        ++ (if startAnalysis then [OnAnalysisComplete] else []))%list,
     inl tt).
Proof.
  intros Hf Hb Ht R.
  match goal with |- _ = ?rhs => set (final := rhs) end.
  unfold handleAnalysis. rewrite Hf, Hb, Ht. subst final.
  unfold setIsLoading, setError. rewrite !run_modify.
  unfold setAnalysisResult at 1. rewrite run_modify.
  cbn [imageFile previewImage analysisResult isLoading error].
  change (mkState (imageFile s) (previewImage s) None true None)
    with (busy s).
  unfold tryCatchFinally, finally, catch.
  destruct r as [res|e].
  - erewrite run_bind_ok by exact R.
    destruct startAnalysis; cbn;
      now rewrite ?List.app_nil_r, <- ?List.app_assoc.
  - erewrite run_bind_throw by exact R.
    destruct startAnalysis; cbn;
      now rewrite ?List.app_nil_r, <- ?List.app_assoc.
Qed.

(** X22: whatever the model and the parser do, [handleAnalysis] on a selected
    image returns normally with the loading flag cleared and the image
    and its preview untouched; it shows either a result or an error,
    never both and never neither; it calls the model at most once; and
    it reports completion to the parent exactly once when the parent had
    started the analysis, and not at all otherwise. *)
Theorem handleAnalysis_settles (rt : Runtime) (startAnalysis : bool)
  (s : State) (file : File) :
  imageFile s = Some file ->
  let run := handleAnalysis rt startAnalysis s in
  snd run = inl tt /\
  isLoading (stateOf run) = false /\
  imageFile (stateOf run) = imageFile s /\
  previewImage (stateOf run) = previewImage s /\
  (analysisResult (stateOf run) = None <-> error (stateOf run) <> None) /\
  (List.length (filter isModelCall (traceOf run)) <= 1)%nat /\
  filter isCompletion (traceOf run)
  = if startAnalysis then [OnAnalysisComplete] else [].
Proof.
  intros Hf run.
  assert (Hbad : base64Of (previewImage s) = None
                 \/ base64Of (previewImage s) = Some EmptyString
                 \/ exists b, base64Of (previewImage s) = Some b
                              /\ truthy b = true).
  { destruct (base64Of (previewImage s)) as [[|c b]|]; auto.
    right; right. now exists (String c b). }
  destruct Hbad as [Hb|[Hb|[b [Hb Ht]]]].
  - subst run. unfold handleAnalysis. rewrite Hf, Hb.
    unfold setIsLoading, setError. rewrite !run_modify.
    unfold setAnalysisResult at 1. rewrite run_modify.
    unfold tryCatchFinally, finally, catch, traceOf, stateOf.
    destruct startAnalysis; cbn; repeat split; auto; try discriminate.
  - subst run. unfold handleAnalysis. rewrite Hf, Hb.
    unfold setIsLoading, setError. rewrite !run_modify.
    unfold setAnalysisResult at 1. rewrite run_modify.
    unfold tryCatchFinally, finally, catch, traceOf, stateOf.
    destruct startAnalysis; cbn; repeat split; auto; try discriminate.
  - destruct (analyze_cases rt b (fileType file) (busy s))
      as [l [r [R [Hm Hc]]]].
    subst run.
    rewrite (handleAnalysis_run rt startAnalysis s file b l r Hf Hb Ht R).
    unfold traceOf, stateOf. cbn [fst snd isLoading imageFile previewImage
                                  analysisResult error].
    rewrite !filter_app, Hm, Hc.
    repeat split; auto.
    + destruct r; discriminate.
    + destruct r; [now intros H; elim H | reflexivity].
    + destruct r, startAnalysis; cbn; auto.
    + destruct r, startAnalysis; reflexivity.
Qed.

Lemma handleAnalysis_settles_witness :
  isLoading (stateOf (handleAnalysis (sampleRuntime completeResponse) true
                        sampleState)) = false.
Proof.
  apply (handleAnalysis_settles (sampleRuntime completeResponse) true
           sampleState (mkFile [] "area.png" "image/png") eq_refl).
Defined.

Lemma splitComma_plain (s : string) :
  allChars (notChar ",") s = true -> splitComma s = [s].
Proof.
  induction s as [|c s IH]; simpl; [reflexivity|].
  intros H. apply andb_true_iff in H. destruct H as [Hc Hs].
  unfold notChar in Hc. apply negb_true_iff in Hc. rewrite Hc.
  now rewrite (IH Hs).
Qed.

Lemma splitComma_header (header rest : string) :
  allChars (notChar ",") header = true ->
  splitComma (header ++ String "," rest) = header :: splitComma rest.
Proof.
  induction header as [|c h IH]; simpl; [reflexivity|].
  intros H. apply andb_true_iff in H. destruct H as [Hc Hs].
  unfold notChar in Hc. apply negb_true_iff in Hc. rewrite Hc.
  now rewrite (IH Hs).
Qed.

(** X23: what the model is asked about is the payload of the preview's data
    URL: the text between its first comma and the next one (or its
    end), sent together with the type of the selected file (not the
    type written in the data URL).  A preview without any comma has no
    payload. *)
Theorem handleAnalysis_sends_payload (rt : Runtime) (startAnalysis : bool)
  (s : State) (file : File) (header payload rest : string) :
  imageFile s = Some file ->
  allChars (notChar ",") header = true ->
  allChars (notChar ",") payload = true ->
  truthy payload = true ->
  rest = EmptyString \/ startsWithComma rest = true ->
  previewImage s = Some (header ++ "," ++ payload ++ rest) ->
  base64Of (previewImage s) = Some payload /\
  base64Of (Some header) = None /\
  filter isModelCall (traceOf (handleAnalysis rt startAnalysis s))
  = [GenerateContent payload (fileType file)].
Proof.
  intros Hf Hh Hp Ht Hr Hv.
  assert (Hb : base64Of (previewImage s) = Some payload).
  { rewrite Hv. unfold base64Of. change ("," ++ payload ++ rest)
      with (String "," (payload ++ rest)).
    rewrite (splitComma_header _ _ Hh). simpl.
    destruct Hr as [->|Hr].
    - replace (payload ++ "") with payload.
      + now rewrite (splitComma_plain _ Hp).
      + clear. induction payload as [|c p IH]; simpl; congruence.
    - destruct rest as [|c rest]; [discriminate Hr|].
      simpl in Hr. apply Ascii.eqb_eq in Hr. subst c.
      rewrite (splitComma_header _ _ Hp). reflexivity. }
  split; [exact Hb|]. split.
  { unfold base64Of. now rewrite (splitComma_plain _ Hh). }
  destruct (analyze_cases rt payload (fileType file) (busy s))
    as [l [r [R [Hm Hc]]]].
  rewrite (handleAnalysis_run rt startAnalysis s file payload l r Hf Hb Ht R).
  unfold traceOf. cbn [fst snd]. rewrite !filter_app, Hm.
  destruct r, startAnalysis; reflexivity.
Qed.

Lemma handleAnalysis_sends_payload_witness :
  filter isModelCall
    (traceOf (handleAnalysis (sampleRuntime completeResponse) false
                sampleState))
  = [GenerateContent "AAAA" "image/png"].
Proof.
  apply (handleAnalysis_sends_payload (sampleRuntime completeResponse) false
           sampleState (mkFile [] "area.png" "image/png")
           "data:image/png;base64" "AAAA" EmptyString);
    try reflexivity.
  left. reflexivity.
Defined.

End AnalysisMore.

(** ** [App.handleSustainabilityAnalysis] *)

Section ReportFacts.

Import App.
Local Open Scope list_scope.
Local Open Scope string_scope.

Lemma round_between (lo span : Z) (x : Q) :
  (inject_Z lo <= x)%Q -> (x < inject_Z (lo + span))%Q ->
  (inject_Z lo <= round x)%Q /\ (round x <= inject_Z (lo + span))%Q.
Proof.
  intros H1 H2. unfold round. rewrite <- !Zle_Qle. split.
  - rewrite <- (Qfloor_Z lo). apply Qfloor_resp_le.
    apply Qle_trans with x; [exact H1|].
    rewrite <- (Qplus_0_r x) at 1. apply Qplus_le_r. discriminate.
  - assert (H : (inject_Z (Qfloor (x + (1 # 2))) < inject_Z (lo + span + 1))%Q).
    { apply Qle_lt_trans with (x + (1 # 2))%Q; [apply Qfloor_le|].
      rewrite inject_Z_plus.
      apply Qlt_le_trans with (inject_Z (lo + span) + (1 # 2))%Q.
      - apply Qplus_lt_l. exact H2.
      - apply Qplus_le_r. discriminate. }
    rewrite <- Zlt_Qlt in H. lia.
Qed.

Lemma orRandom_range (rt : Runtime) (v : option Q) (lo span : Z) (n : nat) :
  (forall k, 0 <= random rt k /\ random rt k < 1)%Q ->
  (0 < span)%Z ->
  match v with
  | Some q => fst (orRandom rt v (inject_Z lo) (inject_Z span) n) = q
  | None =>
      (inject_Z lo <= fst (orRandom rt v (inject_Z lo) (inject_Z span) n))%Q /\
      (fst (orRandom rt v (inject_Z lo) (inject_Z span) n)
       <= inject_Z (lo + span))%Q
  end.
Proof.
  intros Hr Hs. destruct v as [q|]; [reflexivity|].
  unfold orRandom, fst. destruct (Hr n) as [R0 R1].
  assert (Hsp : (0 < inject_Z span)%Q) by (now rewrite <- (Zlt_Qlt 0)).
  apply (round_between lo span).
  - rewrite <- (Qplus_0_r (inject_Z lo)) at 1. apply Qplus_le_r.
    apply Qmult_le_0_compat; [exact R0 | now apply Qlt_le_weak].
  - rewrite inject_Z_plus. apply Qplus_lt_r.
    rewrite <- (Qmult_1_l (inject_Z span)) at 2.
    apply Qmult_lt_compat_r; assumption.
Qed.

(** X24: with [Math.random] in [0, 1), the figures sent to the report
    service are the values of the land cover entries named
    [Urban Areas], [Vegetation] and [Water Bodies] where there are such
    entries (the first one of each name, and also when its value is 0),
    and otherwise numbers within 10..50, 20..50 and 5..20; the
    population density is always drawn, within 500..2500.  The bounds
    are passed on as they are. *)
Theorem mapDataOf_fields (rt : Runtime) (b : option L.LatLngBounds)
  (landCover : option (list MapSection.LandCoverData)) :
  (forall k, 0 <= random rt k /\ random rt k < 1)%Q ->
  let d := mapDataOf rt b landCover in
  bounds d = b /\
  match findValue landCover "Urban Areas" with
  | Some v => urbanAreas d = v
  | None => (10 <= urbanAreas d)%Q /\ (urbanAreas d <= 50)%Q
  end /\
  match findValue landCover "Vegetation" with
  | Some v => vegetation d = v
  | None => (20 <= vegetation d)%Q /\ (vegetation d <= 50)%Q
  end /\
  match findValue landCover "Water Bodies" with
  | Some v => waterBodies d = v
  | None => (5 <= waterBodies d)%Q /\ (waterBodies d <= 20)%Q
  end /\
  (500 <= populationDensity d)%Q /\ (populationDensity d <= 2500)%Q.
Proof.
  intros Hr d. subst d. unfold mapDataOf.
  destruct (orRandom rt (findValue landCover "Urban Areas") 10 40 0)
    as [urban n1] eqn:E1.
  destruct (orRandom rt (findValue landCover "Vegetation") 20 30 n1)
    as [veg n2] eqn:E2.
  destruct (orRandom rt (findValue landCover "Water Bodies") 5 15 n2)
    as [water n3] eqn:E3.
  destruct (orRandom rt None 500 2000 n3) as [density n4] eqn:E4.
  cbn [bounds urbanAreas vegetation waterBodies populationDensity].
  pose proof (orRandom_range rt (findValue landCover "Urban Areas")
                10 40 0 Hr eq_refl) as H1.
  pose proof (orRandom_range rt (findValue landCover "Vegetation")
                20 30 n1 Hr eq_refl) as H2.
  pose proof (orRandom_range rt (findValue landCover "Water Bodies")
                5 15 n2 Hr eq_refl) as H3.
  pose proof (orRandom_range rt None 500 2000 n3 Hr eq_refl) as H4.
  change (inject_Z 10) with 10%Q in H1. change (inject_Z 40) with 40%Q in H1.
  change (inject_Z 20) with 20%Q in H2. change (inject_Z 30) with 30%Q in H2.
  change (inject_Z 5) with 5%Q in H3. change (inject_Z 15) with 15%Q in H3.
  change (inject_Z 500) with 500%Q in H4.
  change (inject_Z 2000) with 2000%Q in H4.
  rewrite E1 in H1. rewrite E2 in H2. rewrite E3 in H3. rewrite E4 in H4.
  cbn [fst] in H1, H2, H3, H4.
  repeat split; try assumption; try apply H4.
Qed.

Lemma mapDataOf_fields_witness :
  urbanAreas
    (mapDataOf (mkRuntime (fun _ => 1 # 2) (fun _ => inr "no reader")
                  (fun _ _ => inr "no service"))
       None (Some [("Urban Areas", 0%Q); ("Urban Areas", 70%Q)]))
  = 0%Q.
Proof.
  refine (proj1 (proj2 (mapDataOf_fields
           (mkRuntime (fun _ => 1 # 2) (fun _ => inr "no reader")
              (fun _ _ => inr "no service"))
           None (Some [("Urban Areas", 0%Q); ("Urban Areas", 70%Q)]) _))).
  intros k. split; discriminate || reflexivity.
Defined.

(** X25: a report asked for from the map gets its three land-use figures from
    the land cover of the map section, which always has the three
    entries: no random figure replaces them, the only number drawn is
    the population density, and the three figures together stay within
    100 (with numbers as exact rationals, and [Math.random] in
    [0, 1)). *)
Theorem mapDataOf_from_map (rt : Runtime) (b : option L.LatLngBounds)
  (r1 r2 r3 r4 : Q) :
  (0 <= r1 < 1)%Q -> (0 <= r2 < 1)%Q -> (0 <= r3 < 1)%Q -> (0 <= r4 < 1)%Q ->
  let data := MapSection.calculateLandPercentages r1 r2 r3 r4 in
  let d := mapDataOf rt b (Some data) in
  In ("Urban Areas", urbanAreas d) data /\
  In ("Vegetation", vegetation d) data /\
  In ("Water Bodies", waterBodies d) data /\
  populationDensity d = round (500 + random rt 0 * 2000) /\
  (urbanAreas d + vegetation d + waterBodies d <= 100)%Q.
Proof.
  intros H1 H2 H3 H4 data d. subst d data.
  unfold mapDataOf, findValue, MapSection.calculateLandPercentages.
  cbn [find fst snd String.eqb Ascii.eqb Bool.eqb orRandom
       urbanAreas vegetation waterBodies populationDensity].
  split; [simpl; tauto|]. split; [simpl; tauto|]. split; [simpl; tauto|].
  split; [reflexivity|].
  set (a := (8 + r1 * (16 - 8))%Q).
  set (b' := (4 + r2 * (9 - 4))%Q).
  set (c := (22 + r3 * (36 - 22))%Q).
  set (e := (45 + r4 * (58 - 45))%Q).
  assert (Ha : (0 < a)%Q) by (unfold a; lra).
  assert (Hb : (0 < b')%Q) by (unfold b'; lra).
  assert (Hc : (0 < c)%Q) by (unfold c; lra).
  assert (He : (0 < e)%Q) by (unfold e; lra).
  set (total := (a + b' + c + e)%Q).
  assert (Ht : (0 < total)%Q) by (unfold total; lra).
  assert (Hn : ~ (total == 0)%Q) by (intros E; rewrite E in Ht; discriminate).
  set (k := (100 / total)%Q).
  assert (Hk : (0 < k)%Q).
  { unfold k, Qdiv. apply Qmult_lt_0_compat; [reflexivity|].
    now apply Qinv_lt_0_compat. }
  assert (Sum : (a * k + b' * k + c * k + e * k == 100)%Q)
    by (unfold k, total; field; exact Hn).
  assert (Pb : (0 < b' * k)%Q) by now apply Qmult_lt_0_compat.
  lra.
Qed.

Lemma mapDataOf_from_map_witness :
  (urbanAreas
     (mapDataOf (mkRuntime (fun _ => 1 # 2) (fun _ => inr "no reader")
                   (fun _ _ => inr "no service"))
        None
        (Some (MapSection.calculateLandPercentages (1 # 2) 0 (1 # 4) (3 # 4))))
   + vegetation
       (mapDataOf (mkRuntime (fun _ => 1 # 2) (fun _ => inr "no reader")
                     (fun _ _ => inr "no service"))
          None
          (Some (MapSection.calculateLandPercentages (1 # 2) 0 (1 # 4) (3 # 4))))
   + waterBodies
       (mapDataOf (mkRuntime (fun _ => 1 # 2) (fun _ => inr "no reader")
                     (fun _ _ => inr "no service"))
          None
          (Some (MapSection.calculateLandPercentages (1 # 2) 0 (1 # 4) (3 # 4))))
   <= 100)%Q.
Proof.
  apply (mapDataOf_from_map
           (mkRuntime (fun _ => 1 # 2) (fun _ => inr "no reader")
              (fun _ _ => inr "no service"))
           None (1 # 2) 0 (1 # 4) (3 # 4));
    split; (discriminate || reflexivity).
Defined.

Lemma report_run (rt : Runtime) (b : option L.LatLngBounds)
  (landCover : option (list MapSection.LandCoverData))
  (imageFile : option File) (s : State) :
  let d := mapDataOf rt b landCover in
  let failed := mkState None false (Some reportFailedMessage) in
  let ask image (before : list Event) :=
    match getSustainabilityReport rt d image with
    | inl result =>
        (mkState (Some result) false None,
         (before ++ [GetSustainabilityReport d image])%list, inl tt)
    | inr e =>
        (failed,
         (before ++ [GetSustainabilityReport d image; ConsoleError e])%list,
         inl tt)
    end in
  handleSustainabilityAnalysis rt b landCover imageFile s
  = match imageFile with
    | Some f =>
        match readAsDataURL rt f with
        | inr e => (failed, [ReadAsDataURL f; ConsoleError e], inl tt)
        | inl url =>
            ask (Some (mkImageArg (nth_error (Analysis.splitComma url) 1)
                         (fileType f)))
                [ReadAsDataURL f]
        end
    | None => ask None []
    end.
Proof.
  intros d failed ask. subst ask failed.
  unfold handleSustainabilityAnalysis. fold d. clearbody d.
  unfold setIsReportLoading, setReportError. rewrite !run_modify.
  unfold setSustainabilityReport at 1. rewrite run_modify.
  cbn [sustainabilityReport isReportLoading reportError].
  unfold tryCatchFinally, finally, catch.
  destruct imageFile as [f|].
  - unfold readBase64. destruct (readAsDataURL rt f) as [url|e].
    + destruct (getSustainabilityReport rt d
                  (Some (mkImageArg (nth_error (Analysis.splitComma url) 1)
                           (fileType f)))) as [result|e] eqn:G;
        cbv [bind emit ret throw modify setSustainabilityReport
             setReportError fst snd app];
        rewrite G; reflexivity.
    + reflexivity.
  - destruct (getSustainabilityReport rt d None) as [result|e] eqn:G;
      cbv [bind emit ret throw modify setSustainabilityReport
           setReportError fst snd app];
      rewrite G; reflexivity.
Qed.

(** X26: whatever the file reader and the report service do,
    [handleSustainabilityAnalysis] returns normally with the loading
    flag cleared, and shows either the failure message or a report,
    never both and never neither; an earlier report or error does not
    survive.  A report that is shown is what the service answered to a
    request that was made, and the service is asked at most once. *)
Theorem handleSustainabilityAnalysis_settles (rt : Runtime)
  (b : option L.LatLngBounds)
  (landCover : option (list MapSection.LandCoverData))
  (imageFile : option File) (s : State) :
  let run := handleSustainabilityAnalysis rt b landCover imageFile s in
  let d := mapDataOf rt b landCover in
  snd run = inl tt /\
  (stateOf run = mkState None false (Some reportFailedMessage)
   \/ exists result image,
        stateOf run = mkState (Some result) false None /\
        getSustainabilityReport rt d image = inl result /\
        In (GetSustainabilityReport d image) (traceOf run)) /\
  (List.length (filter isReportCall (traceOf run)) <= 1)%nat.
Proof.
  intros run d. subst run d. rewrite report_run. cbv zeta.
  destruct imageFile as [f|].
  - destruct (readAsDataURL rt f) as [url|e].
    + destruct (getSustainabilityReport rt (mapDataOf rt b landCover)
                  (Some (mkImageArg (nth_error (Analysis.splitComma url) 1)
                           (fileType f)))) as [result|e] eqn:G.
      * repeat split; [|cbn; lia]. right. eexists _, _.
        repeat split; [exact G | cbn; auto].
      * repeat split; [|cbn; lia]. now left.
    + repeat split; [|cbn; lia]. now left.
  - destruct (getSustainabilityReport rt (mapDataOf rt b landCover) None)
      as [result|e] eqn:G.
    + repeat split; [|cbn; lia]. right. eexists _, _.
      repeat split; [exact G | cbn; auto].
    + repeat split; [|cbn; lia]. now left.
Qed.

(** X27: when the image cannot be read, the report service is not asked at
    all: the handler logs the reader's error and shows the failure
    message.  When it can be read, the service gets the part of the data
    URL after its first comma, with the type of the file. *)
Theorem handleSustainabilityAnalysis_image (rt : Runtime)
  (b : option L.LatLngBounds)
  (landCover : option (list MapSection.LandCoverData))
  (f : File) (s : State) :
  let run := handleSustainabilityAnalysis rt b landCover (Some f) s in
  (forall e, readAsDataURL rt f = inr e ->
     traceOf run = [ReadAsDataURL f; ConsoleError e] /\
     stateOf run = mkState None false (Some reportFailedMessage)) /\
  (forall url, readAsDataURL rt f = inl url ->
     filter isReportCall (traceOf run)
     = [GetSustainabilityReport (mapDataOf rt b landCover)
          (Some (mkImageArg (nth_error (Analysis.splitComma url) 1)
                   (fileType f)))]).
Proof.
  intros run. subst run. rewrite report_run. cbv zeta. split.
  - intros e R. rewrite R. now split.
  - intros url R. rewrite R.
    destruct (getSustainabilityReport rt (mapDataOf rt b landCover)
                (Some (mkImageArg (nth_error (Analysis.splitComma url) 1)
                         (fileType f)))); reflexivity.
Qed.

Lemma handleSustainabilityAnalysis_image_witness :
  traceOf
    (handleSustainabilityAnalysis
       (mkRuntime (fun _ => 1 # 2) (fun _ => inr "unreadable")
          (fun _ _ => inl []))
       None None (Some (mkFile [] "a.png" "image/png"))
       (mkState None false None))
  = [ReadAsDataURL (mkFile [] "a.png" "image/png");
     ConsoleError "unreadable"].
Proof.
  apply (handleSustainabilityAnalysis_image
           (mkRuntime (fun _ => 1 # 2) (fun _ => inr "unreadable")
              (fun _ _ => inl []))
           None None (mkFile [] "a.png" "image/png")
           (mkState None false None)).
  reflexivity.
Defined.

End ReportFacts.

(** ** [LocalMapIframe] *)

Section FrameFacts.

Import LocalMapIframe.
Local Open Scope list_scope.
Local Open Scope string_scope.

(** X28: after [fetchHtml] the component never shows the spinner: it shows
    the fetched page in the frame exactly when the request was answered
    with an ok response whose body could be read, and the error box with
    the fixed message in every other case.  The body of a response that
    is not ok is never shown, nor is the page of an earlier url; the
    request is made once and the effect itself never fails. *)
Theorem fetchHtml_outcome (fetch : string -> Response + string)
  (url : string) (s : State) :
  let run := fetchHtml fetch url s in
  snd run = inl tt /\
  filter (fun e => match e with Fetch _ => true | _ => false end)
    (traceOf run) = [Fetch url] /\
  render (stateOf run)
  = match fetch url with
    | inl response =>
        match ok response, text response with
        | true, inl t => Frame t
        | _, _ => ErrorBox loadFailedMessage
        end
    | inr _ => ErrorBox loadFailedMessage
    end /\
  (error (stateOf run) = None \/ htmlContent (stateOf run) = EmptyString).
Proof.
  intros run. subst run. unfold fetchHtml.
  unfold setIsLoading, setError. rewrite !run_modify.
  unfold setHtmlContent at 1. rewrite run_modify.
  cbn [htmlContent isLoading error].
  unfold tryCatchFinally, finally, catch.
  destruct (fetch url) as [response|e] eqn:F.
  - destruct (ok response) eqn:O.
    + destruct (text response) as [t|e] eqn:T;
        cbv [bind emit ret throw modify setHtmlContent setError setIsLoading
             fst snd app traceOf stateOf negb];
        rewrite ?F, ?O, ?T; cbn; repeat split; auto.
    + cbv [bind emit ret throw modify setHtmlContent setError setIsLoading
           fst snd app traceOf stateOf negb];
        rewrite ?F, ?O; cbn; repeat split; auto.
  - cbv [bind emit ret throw modify setHtmlContent setError setIsLoading
         fst snd app traceOf stateOf negb];
      rewrite ?F; cbn; repeat split; auto.
Qed.

End FrameFacts.

(** ** [RadialProgress] *)

Section ProgressFacts.

Import RadialProgress.
Local Open Scope Q_scope.

(** The ring is red below 40, yellow from 40 up to but not including 75,
    and green from 75 on: the later test overrides the earlier one. *)
Theorem colorClass_thresholds (progress : Q) :
  (colorClass progress = Red <-> progress < 40) /\
  (colorClass progress = Yellow <-> 40 <= progress /\ progress < 75) /\
  (colorClass progress = Green <-> 75 <= progress).
Proof.
  unfold colorClass.
  destruct (Qlt_bool progress 40) eqn:A; destruct (Qlt_bool progress 75) eqn:B.
  - apply Qlt_bool_iff in A. apply Qlt_bool_iff in B.
    repeat split; try discriminate; try (intros; assumption);
      try (intros; exfalso; lra).
  - apply Qlt_bool_iff in A.
    assert (B' : ~ progress < 75)
      by (intros H; apply Qlt_bool_iff in H; congruence).
    exfalso. lra.
  - assert (A' : ~ progress < 40)
      by (intros H; apply Qlt_bool_iff in H; congruence).
    apply Qlt_bool_iff in B.
    repeat split; try discriminate; try lra; intros; exfalso; lra.
  - assert (A' : ~ progress < 40)
      by (intros H; apply Qlt_bool_iff in H; congruence).
    assert (B' : ~ progress < 75)
      by (intros H; apply Qlt_bool_iff in H; congruence).
    repeat split; try discriminate; try lra; intros; exfalso; lra.
Qed.

(** X29: for a stroke narrower than the diameter and a progress within
    0..100, the dash offset lies between 0 and the circumference; it is
    the whole circumference at 0, nothing at 100, and it does not grow
    with the progress. *)
Theorem offset_range (pi strokeWidth progress progress' : Q) :
  0 < pi -> strokeWidth < 100 ->
  0 <= progress -> progress <= progress' -> progress' <= 100 ->
  0 <= offset pi strokeWidth progress' /\
  offset pi strokeWidth progress' <= offset pi strokeWidth progress /\
  offset pi strokeWidth progress <= circumference pi strokeWidth /\
  offset pi strokeWidth 0 == circumference pi strokeWidth /\
  offset pi strokeWidth 100 == 0.
Proof.
  intros Hpi Hw H0 Hle H100.
  assert (Hc : 0 <= circumference pi strokeWidth).
  { unfold circumference, normalizedRadius.
    apply Qmult_le_0_compat; [|lra].
    apply Qmult_le_0_compat; [|lra].
    assert (E : strokeWidth / 2 == strokeWidth * (1 # 2)) by reflexivity.
    rewrite E. lra. }
  unfold offset. set (c := circumference pi strokeWidth) in *. clearbody c.
  assert (E : forall p, c - p / 100 * c == c * (1 - p * (1 # 100))).
  { intros p. unfold Qdiv. change (/ 100) with (1 # 100). ring. }
  rewrite !E.
  repeat split.
  - apply Qmult_le_0_compat; [exact Hc | lra].
  - rewrite !(Qmult_comm c). apply Qmult_le_compat_r; [lra | exact Hc].
  - rewrite <- (Qmult_1_r c) at 2. rewrite !(Qmult_comm c).
    apply Qmult_le_compat_r; [lra | exact Hc].
  - ring.
  - ring.
Qed.

Lemma offset_range_witness :
  0 <= offset (22 # 7) 10 80 /\
  offset (22 # 7) 10 80 <= offset (22 # 7) 10 25.
Proof.
  destruct (offset_range (22 # 7) 10 25 80) as [H1 [H2 _]];
    try reflexivity; try discriminate.
  now split.
Defined.

End ProgressFacts.

(** ** The address of a tile *)

Section UrlFacts.

Import MapSection.
Local Open Scope string_scope.

Lemma prefix_app (p rest : string) : prefix p (p ++ rest) = true.
Proof.
  induction p as [|c p IH]; simpl; [now destruct rest|].
  destruct (ascii_dec c c) as [_|N]; [exact IH | now elim N].
Qed.

Lemma substring_all (s : string) : substring 0 (String.length s) s = s.
Proof. induction s as [|c s IH]; simpl; [reflexivity | now rewrite IH]. Qed.

Lemma substring_head (pre r : string) :
  substring 0 (String.length pre) (pre ++ r) = pre.
Proof.
  induction pre as [|c pre IH]; simpl; [now destruct r | now rewrite IH].
Qed.

Lemma substring_skip (pre r : string) (m : nat) :
  substring (String.length pre) m (pre ++ r) = substring 0 m r.
Proof. induction pre as [|c pre IH]; simpl; [reflexivity | exact IH]. Qed.

Lemma string_length_app (a b : string) :
  String.length (a ++ b) = (String.length a + String.length b)%nat.
Proof. induction a as [|c a IH]; simpl; [reflexivity | now rewrite IH]. Qed.

Lemma allChars_app (p : ascii -> bool) (a b : string) :
  allChars p (a ++ b) = allChars p a && allChars p b.
Proof.
  induction a as [|c a IH]; simpl; [reflexivity|].
  now rewrite IH, andb_assoc.
Qed.

Lemma index_placeholder (pre p rest : string) :
  allChars (fun c => negb (Ascii.eqb c "{")) pre = true ->
  index 0 (String "{" p) (pre ++ String "{" p ++ rest)
  = Some (String.length pre).
Proof.
  induction pre as [|c pre IH]; intros H.
  - change (index 0 (String "{" p) (String "{" (p ++ rest)) = Some 0%nat).
    cbn [index].
    change (String "{" (p ++ rest)) with (String "{" p ++ rest).
    now rewrite prefix_app.
  - simpl in H. apply andb_true_iff in H. destruct H as [Hc Hp].
    apply negb_true_iff in Hc. apply Ascii.eqb_neq in Hc.
    change ((String c pre) ++ String "{" p ++ rest)
      with (String c (pre ++ String "{" p ++ rest)).
    cbn [index prefix].
    destruct (ascii_dec "{" c) as [E|_]; [now elim Hc|].
    now rewrite (IH Hp).
Qed.

Lemma replace_placeholder (pre p v rest : string) :
  allChars (fun c => negb (Ascii.eqb c "{")) pre = true ->
  replace (String "{" p) v (pre ++ String "{" p ++ rest) = pre ++ v ++ rest.
Proof.
  intros H. unfold replace. rewrite (index_placeholder pre p rest H).
  rewrite substring_head.
  rewrite <- (string_length_app pre (String "{" p)).
  rewrite <- (string_app_assoc pre (String "{" p) rest).
  rewrite substring_skip.
  rewrite !string_length_app.
  replace (String.length pre + String.length (String "{" p)
           + String.length rest
           - (String.length pre + String.length (String "{" p)))%nat
    with (String.length rest) by lia.
  now rewrite substring_all.
Qed.

Lemma digits_plain (d : Decimal.uint) :
  allChars (fun c => negb (Ascii.eqb c "{") && negb (Ascii.eqb c "/"))
    (NilEmpty.string_of_uint d) = true.
Proof. induction d; simpl; auto. Qed.

Lemma stringOfZ_plain (n : Z) :
  allChars (fun c => negb (Ascii.eqb c "{") && negb (Ascii.eqb c "/"))
    (stringOfZ n) = true.
Proof.
  unfold stringOfZ, NilZero.string_of_int, NilZero.string_of_uint.
  destruct (Z.to_int n) as [d|d]; destruct d; simpl; auto using digits_plain.
Qed.

Lemma allChars_weaken (p q : ascii -> bool) (s : string) :
  (forall c, p c = true -> q c = true) ->
  allChars p s = true -> allChars q s = true.
Proof.
  intros W. induction s as [|c s IH]; simpl; [reflexivity|].
  intros H. apply andb_true_iff in H. destruct H as [Hc Hs].
  now rewrite (W c Hc), (IH Hs).
Qed.

Lemma stringOfZ_no_brace (n : Z) :
  allChars (fun c => negb (Ascii.eqb c "{")) (stringOfZ n) = true.
Proof.
  apply (allChars_weaken _ _ _ (fun c H => proj1 (andb_prop _ _ H))
           (stringOfZ_plain n)).
Qed.

Lemma stringOfZ_no_slash (n : Z) :
  allChars (fun c => negb (Ascii.eqb c "/")) (stringOfZ n) = true.
Proof.
  apply (allChars_weaken _ _ _ (fun c H => proj2 (andb_prop _ _ H))
           (stringOfZ_plain n)).
Qed.

Lemma stringOfZ_inj (n m : Z) : stringOfZ n = stringOfZ m -> n = m.
Proof.
  assert (R : forall k,
             NilZero.int_of_string (stringOfZ k) = Some (Z.to_int k)).
  { intros k. apply NilZero.isi; destruct k; simpl; try discriminate;
      intros [= E]; now apply DecimalPos.Unsigned.to_uint_nonnil in E. }
  intros H. apply DecimalZ.to_int_inj.
  pose proof (R n) as Rn. rewrite H, R in Rn. congruence.
Qed.

Lemma string_app_inv_head (a b c : string) : a ++ b = a ++ c -> b = c.
Proof.
  induction a as [|x a IH]; simpl; [auto|]. intros [= H]. auto.
Qed.

Lemma split_at_slash (a a' r r' : string) :
  allChars (fun c => negb (Ascii.eqb c "/")) a = true ->
  allChars (fun c => negb (Ascii.eqb c "/")) a' = true ->
  a ++ String "/" r = a' ++ String "/" r' -> a = a' /\ r = r'.
Proof.
  revert a'. induction a as [|c a IH]; intros [|c' a'] Ha Ha' H; simpl in *.
  - injection H as ->. now split.
  - injection H as <- _. now rewrite Ascii.eqb_refl in Ha'.
  - injection H as -> _. now rewrite Ascii.eqb_refl in Ha.
  - injection H as -> H.
    apply andb_true_iff in Ha. apply andb_true_iff in Ha'.
    destruct (IH a' (proj2 Ha) (proj2 Ha') H) as [-> ->]. now split.
Qed.

Lemma tileUrl_closed (zoom : Z) (t : TileIndex) :
  tileUrl zoom t
  = "https://server.arcgisonline.com/ArcGIS/rest/services/World_Imagery/MapServer/tile/"
    ++ stringOfZ zoom ++ "/" ++ stringOfZ (ty t) ++ "/" ++ stringOfZ (tx t).
Proof.
  unfold tileUrl.
  set (base := "https://server.arcgisonline.com/ArcGIS/rest/services/World_Imagery/MapServer/tile/").
  change SATELLITE_TILE_URL with (base ++ String "{" "z}" ++ "/{y}/{x}").
  assert (Hbase : allChars (fun c => negb (Ascii.eqb c "{")) base = true)
    by (vm_compute; reflexivity).
  rewrite (replace_placeholder base "z}" (stringOfZ zoom) "/{y}/{x}" Hbase).
  clearbody base.
  change (base ++ stringOfZ zoom ++ "/{y}/{x}")
    with (base ++ stringOfZ zoom ++ "/" ++ String "{" "y}" ++ "/{x}").
  rewrite <- (string_app_assoc (stringOfZ zoom) "/").
  rewrite <- (string_app_assoc base).
  rewrite replace_placeholder.
  2:{ rewrite !allChars_app, Hbase, stringOfZ_no_brace. reflexivity. }
  change ((base ++ stringOfZ zoom ++ "/") ++ stringOfZ (ty t) ++ "/{x}")
    with ((base ++ stringOfZ zoom ++ "/") ++ stringOfZ (ty t) ++ "/"
          ++ String "{" "x}" ++ "").
  rewrite <- (string_app_assoc (stringOfZ (ty t)) "/").
  rewrite <- (string_app_assoc (base ++ stringOfZ zoom ++ "/")).
  rewrite replace_placeholder.
  2:{ rewrite !allChars_app, Hbase, !stringOfZ_no_brace. reflexivity. }
  rewrite !string_app_assoc.
  replace (stringOfZ (tx t) ++ "") with (stringOfZ (tx t)); [reflexivity|].
  generalize (stringOfZ (tx t)). intros s.
  induction s as [|c s IH]; simpl; congruence.
Qed.

(** X30: the address asked for a tile is the template with the zoom, then
    the row [y], then the column [x], each in decimal; so two requests
    have the same address only for the same zoom and the same tile. *)
Theorem tileUrl_distinct (zoom zoom' : Z) (t t' : TileIndex) :
  tileUrl zoom t
  = "https://server.arcgisonline.com/ArcGIS/rest/services/World_Imagery/MapServer/tile/"
    ++ stringOfZ zoom ++ "/" ++ stringOfZ (ty t) ++ "/" ++ stringOfZ (tx t)
  /\ (tileUrl zoom t = tileUrl zoom' t' -> zoom = zoom' /\ t = t').
Proof.
  split; [apply tileUrl_closed|].
  rewrite !tileUrl_closed. intros H.
  apply string_app_inv_head in H.
  apply split_at_slash in H; try apply stringOfZ_no_slash.
  destruct H as [Hz H].
  apply split_at_slash in H; try apply stringOfZ_no_slash.
  destruct H as [Hy Hx].
  apply stringOfZ_inj in Hz, Hy, Hx.
  destruct t, t'. simpl in *. now subst.
Qed.

Lemma tileUrl_distinct_witness :
  tileUrl 3 (tileIndex 5 2)
  = "https://server.arcgisonline.com/ArcGIS/rest/services/World_Imagery/MapServer/tile/3/2/5"
  /\ (3 = 3)%Z /\ tileIndex 5 2 = tileIndex 5 2.
Proof.
  destruct (tileUrl_distinct 3 3 (tileIndex 5 2) (tileIndex 5 2)) as [H1 H2].
  split; [exact H1 | apply H2; reflexivity].
Defined.

End UrlFacts.
